(** * gotranslate: a shallow embedding of the translation handler

    The development follows the two Go sources of the repository:

    - [html.go]: [isHTML], [getTextFromHTML], [reconstructHTML],
      [replaceNonUTF8Characters];
    - [main.go]: [validateRequest], [getHashFromText], [splitSentences],
      [reconstructPlainText], [shouldCacheBeUsed], [translateLanguage],
      [cacheTranslatedText], [doesTargetLanguageExist],
      [getSupportedLanguages] and the handler [handle] with its
      [errgroup] of per-sentence tasks.

    Go strings are byte strings, modelled by [string] (a list of 8-bit
    characters).  The Go standard library functions the code calls
    ([strings.Contains], [strings.TrimSpace], [strings.ToValidUTF8],
    [hex.EncodeToString]) are modelled on bytes.  Third-party packages
    (the HTML tokenizer, the sentence segmenter, SHA-256, the JSON codec,
    the AWS clients) are interfaces: the code is written against an
    arbitrary implementation, and small reference implementations are
    given to run it. *)

From Stdlib Require Import ZArith Lia List String Ascii Bool Floats.
From stdpp Require Import base list strings gmap pretty.

Open Scope string_scope.
Open Scope nat_scope.
Open Scope list_scope.

(** ** Go standard library: package [strings] on byte strings *)

Module GoStrings.

(** [strings.HasPrefix]. *)
Fixpoint HasPrefix (s prefix : string) : bool :=
  match prefix, s with
  | EmptyString, _ => true
  | String _ _, EmptyString => false
  | String c prefix', String d s' =>
      if Ascii.eqb c d then HasPrefix s' prefix' else false
  end.

(** [strings.Contains(s, substr)]: [substr] occurs at some offset of [s]. *)
Fixpoint Contains (s substr : string) : bool :=
  HasPrefix s substr ||
  match s with
  | EmptyString => false
  | String _ s' => Contains s' substr
  end.

(** [strings.Builder]: [WriteString] appends, [String] reads the buffer. *)
Definition Builder := string.
Definition WriteString (sb : Builder) (s : string) : Builder := sb +:+ s.

(** The six ASCII bytes of Go's [asciiSpace] table. *)
Definition asciiSpace (c : ascii) : bool :=
  let n := nat_of_ascii c in
  (9 <=? n) && (n <=? 13) || (n =? 32).

(** [spaceWidth s] is the width in bytes of the white-space rune that
    [s] starts with ([unicode.IsSpace] after [utf8.DecodeRuneInString]),
    or [0] when [s] does not start with one.  The runes are U+0009..U+000D,
    U+0020, U+0085, U+00A0, U+1680, U+2000..U+200A, U+2028, U+2029,
    U+202F, U+205F and U+3000, in their shortest UTF-8 form. *)
Definition spaceWidth (s : string) : nat :=
  match s with
  | EmptyString => 0
  | String c s1 =>
      if asciiSpace c then 1 else
      match s1 with
      | EmptyString => 0
      | String d s2 =>
          let c := nat_of_ascii c in
          let d := nat_of_ascii d in
          if (c =? 194) && ((d =? 133) || (d =? 160)) then 2 else
          match s2 with
          | EmptyString => 0
          | String e _ =>
              let e := nat_of_ascii e in
              if (c =? 225) && (d =? 154) && (e =? 128) then 3
              else if (c =? 226) && (d =? 128) &&
                      ((128 <=? e) && (e <=? 138) || (e =? 168) || (e =? 169) ||
                       (e =? 175)) then 3
              else if (c =? 226) && (d =? 129) && (e =? 159) then 3
              else if (c =? 227) && (d =? 128) && (e =? 128) then 3
              else 0
          end
      end
  end.

Fixpoint dropBytes (n : nat) (s : string) : string :=
  match n, s with
  | 0, _ => s
  | S _, EmptyString => EmptyString
  | S n', String _ s' => dropBytes n' s'
  end.

(** [strings.TrimLeftFunc(s, unicode.IsSpace)]; the fuel is the length of
    [s], one unit per rune removed. *)
Fixpoint trimLeft (fuel : nat) (s : string) : string :=
  match fuel with
  | 0 => s
  | S fuel' =>
      match spaceWidth s with
      | 0 => s
      | w => trimLeft fuel' (dropBytes w s)
      end
  end.

Definition TrimLeftSpace (s : string) : string := trimLeft (String.length s) s.

Fixpoint reverseBytes (s : string) : string :=
  match s with
  | EmptyString => EmptyString
  | String c s' => reverseBytes s' +:+ String c EmptyString
  end.

(** Width of the white-space rune that the reversed string [r] starts with,
    that is, that the original string ends with
    ([utf8.DecodeLastRuneInString]): the last one, two or three bytes are
    read back in order and decoded. *)
Definition spaceWidthLast (r : string) : nat :=
  match r with
  | EmptyString => 0
  | String c r1 =>
      if asciiSpace c then 1 else
      match r1 with
      | EmptyString => 0
      | String b r2 =>
          if spaceWidth (String b (String c EmptyString)) =? 2 then 2 else
          match r2 with
          | EmptyString => 0
          | String a _ =>
              if spaceWidth (String a (String b (String c EmptyString))) =? 3
              then 3 else 0
          end
      end
  end.

Fixpoint trimLeftRev (fuel : nat) (r : string) : string :=
  match fuel with
  | 0 => r
  | S fuel' =>
      match spaceWidthLast r with
      | 0 => r
      | w => trimLeftRev fuel' (dropBytes w r)
      end
  end.

(** [strings.TrimRightFunc(s, unicode.IsSpace)]. *)
Definition TrimRightSpace (s : string) : string :=
  reverseBytes (trimLeftRev (String.length s) (reverseBytes s)).

(** [strings.TrimSpace]: all leading and all trailing white space is cut. *)
Definition TrimSpace (s : string) : string :=
  TrimRightSpace (TrimLeftSpace s).

(** [utf8.DecodeRuneInString]: the width in bytes of the well-formed
    UTF-8 sequence that [s] starts with, [0] when the first byte starts no
    well-formed sequence (Go then decodes [RuneError] with width 1). *)
Definition continuation (c : ascii) : bool :=
  let n := nat_of_ascii c in (128 <=? n) && (n <=? 191).

Definition between (lo hi : nat) (c : ascii) : bool :=
  let n := nat_of_ascii c in (lo <=? n) && (n <=? hi).

Definition runeWidth (s : string) : nat :=
  match s with
  | EmptyString => 0
  | String c s1 =>
      let n := nat_of_ascii c in
      if n <? 128 then 1
      else if between 194 223 c then
        match s1 with
        | String d _ => if continuation d then 2 else 0
        | _ => 0
        end
      else if between 224 239 c then
        match s1 with
        | String d (String e _) =>
            let second :=
              if n =? 224 then between 160 191 d
              else if n =? 237 then between 128 159 d
              else continuation d in
            if second && continuation e then 3 else 0
        | _ => 0
        end
      else if between 240 244 c then
        match s1 with
        | String d (String e (String f _)) =>
            let second :=
              if n =? 240 then between 144 191 d
              else if n =? 244 then between 128 143 d
              else continuation d in
            if second && continuation e && continuation f then 4 else 0
        | _ => 0
        end
      else 0
  end.

Fixpoint takeBytes (n : nat) (s : string) : string :=
  match n, s with
  | 0, _ => EmptyString
  | S _, EmptyString => EmptyString
  | S n', String c s' => String c (takeBytes n' s')
  end.

(** [strings.ToValidUTF8(s, "")]: every byte that starts no well-formed
    sequence is deleted, well-formed sequences are copied.  The fuel is the
    length of [s]. *)
Fixpoint toValid (fuel : nat) (s : string) : string :=
  match fuel, s with
  | 0, _ => EmptyString
  | _, EmptyString => EmptyString
  | S fuel', String _ s' =>
      match runeWidth s with
      | 0 => toValid fuel' s'
      | w => takeBytes w s +:+ toValid fuel' (dropBytes w s)
      end
  end.

Definition ToValidUTF8_empty (s : string) : string :=
  toValid (String.length s) s.

End GoStrings.

(** ** Go values: errors, panics, outcomes of a call *)

(** An [error] value.  [io_EOF] is the sentinel [io.EOF]; [errorString] is an
    error made of a message ([fmt.Errorf] without [%w], or an error of a
    collaborator); [wrapError msg err] is [fmt.Errorf("<msg>: %w", err)]. *)
Inductive error : Type :=
| io_EOF
| errorString (msg : string)
| wrapError (msg : string) (err : error).

(** A run-time panic of the Go program. *)
Inductive Panic : Type :=
| IndexOutOfRange (index : nat) (len : nat)
| InterfaceConversion
| NilPointerDereference.

(** What a call does: it returns, it panics, or it does not return. *)
Inductive Outcome (A : Type) : Type :=
| Returns (a : A)
| Panics (p : Panic)
| NoReturn.

Arguments Returns {A} a.
Arguments Panics {A} p.
Arguments NoReturn {A}.

(** ** Package [golang.org/x/net/html] *)

Module Html.

Inductive TokenType : Type :=
| ErrorToken
| TextToken
| StartTagToken
| EndTagToken
| SelfClosingTagToken
| CommentToken
| DoctypeToken.

#[export] Instance TokenType_eq_dec : EqDecision TokenType.
Proof. solve_decision. Defined.

Record Attribute : Type := mkAttribute {
  Namespace : string;
  Key : string;
  Val : string
}.

(** [html.Token]; the field [Type] of the Go struct is [Typ] here. *)
Record Token : Type := mkToken {
  Typ : TokenType;
  DataAtom : N;
  Data : string;
  Attr : list Attribute
}.

Definition isTextToken (tt : TokenType) : bool :=
  match tt with TextToken => true | _ => false end.

(** The tokenizer of the package, as the state machine its methods act on.
    The methods [Next], [Text] and [Token] of [*Tokenizer] advance or
    consume the tokenizer state; [Err] is the error behind an
    [ErrorToken]; [Token_String] is the method [Token.String];
    [remaining] is the number of input bytes not yet scanned. *)
Class Package : Type := {
  Tokenizer : Type;
  NewTokenizer : string -> Tokenizer;
  Tokenizer_Next : Tokenizer -> TokenType * Tokenizer;
  Tokenizer_Err : Tokenizer -> error;
  Tokenizer_Text : Tokenizer -> string * Tokenizer;
  Tokenizer_Token : Tokenizer -> Token * Tokenizer;
  Token_String : Token -> string;
  remaining : Tokenizer -> nat
}.

End Html.

(** ** Package [github.com/sentencizer/sentencizer] *)

Module Sentencizer.

(** [Segment lang input] is [NewSegmenter(lang).Segment(input)]. *)
Class Package : Type := {
  Segment : string -> string -> list string
}.

End Sentencizer.

(** ** [main.go]: sentence segmentation *)

Section SplitSentences.
Context {sentencizer : Sentencizer.Package}.

(** [splitSentences]: the segmenter is always built for ["en"]. *)
Definition splitSentences (input : string) : list string :=
  Sentencizer.Segment "en" input.

End SplitSentences.

(** ** [html.go] *)

Import GoStrings Html.

Definition isHTML (text : string) : bool :=
  Contains text "<html" ||
  Contains text "<p" ||
  Contains text "<div" ||
  Contains text "<span".

Definition replaceNonUTF8Characters (text : string) : string :=
  ToValidUTF8_empty text.

Section HtmlGo.
Context {html : Html.Package} {sentencizer : Sentencizer.Package}.

(** The four results of [getTextFromHTML]: the three slices and the error
    ([None] is Go's [nil]). *)
Definition Extracted : Type :=
  (list Token * list string * list Z * option error)%type.

(** The [for] loop of [getTextFromHTML].  One unit of fuel is one call of
    [tokenizer.Tokenizer_Next]; [None] means the fuel ran out before the tokenizer
    reported an [ErrorToken]. *)
Fixpoint getTextFromHTML_loop (fuel : nat) (tokenizer : Tokenizer)
    (tokens : list Token) (texts : list string) (counts : list Z)
    : option Extracted :=
  match fuel with
  | 0 => None
  | S fuel' =>
      let '(tt_, tokenizer) := Tokenizer_Next tokenizer in
      match tt_ with
      | ErrorToken =>
          match Tokenizer_Err tokenizer with
          | io_EOF => Some (tokens, texts, counts, None)
          | err => Some ([], [], [], Some err)
          end
      | _ =>
          let '(tokenizer, texts, counts) :=
            match tt_ with
            | TextToken =>
                let '(raw, tokenizer) := Tokenizer_Text tokenizer in
                let text := TrimSpace raw in
                if String.eqb text "" then (tokenizer, texts, counts)
                else
                  let sentences := splitSentences text in
                  (tokenizer, texts ++ sentences,
                   counts ++ [Z.of_nat (length sentences)])
            | _ => (tokenizer, texts, counts)
            end in
          let '(token, tokenizer) := Tokenizer_Token tokenizer in
          getTextFromHTML_loop fuel' tokenizer (tokens ++ [token]) texts counts
      end
  end.

Definition getTextFromHTML (input : string) : Outcome Extracted :=
  let input := replaceNonUTF8Characters input in
  let tokenizer := NewTokenizer input in
  match getTextFromHTML_loop (S (remaining tokenizer)) tokenizer [] [] [] with
  | Some result => Returns result
  | None => NoReturn
  end.

(** The inner loop [for range count] of [reconstructHTML]: the guard
    [textIndex < len(translatedSentences)] is the lookup. *)
Fixpoint writeSentences (count : nat) (translatedSentences : list string)
    (sb : Builder) (textIndex : nat) : Builder * nat :=
  match count with
  | 0 => (sb, textIndex)
  | S count' =>
      match translatedSentences !! textIndex with
      | Some sentence =>
          writeSentences count' translatedSentences
            (WriteString sb sentence) (S textIndex)
      | None => writeSentences count' translatedSentences sb textIndex
      end
  end.

(** The outer loop [for _, token := range tokens]; the index expression
    [sentenceCounts[sentenceIndex]] panics out of range.  [for range count]
    runs [count] times, and not at all when [count <= 0]. *)
Fixpoint reconstructHTML_loop (tokens : list Token)
    (translatedSentences : list string) (sentenceCounts : list Z)
    (sb : Builder) (textIndex sentenceIndex : nat) : Outcome string :=
  match tokens with
  | [] => Returns sb
  | token :: tokens' =>
      match Typ token with
      | TextToken =>
          match sentenceCounts !! sentenceIndex with
          | None => Panics (IndexOutOfRange sentenceIndex (length sentenceCounts))
          | Some count =>
              let '(sb, textIndex) :=
                writeSentences (Z.to_nat count) translatedSentences sb textIndex in
              reconstructHTML_loop tokens' translatedSentences sentenceCounts
                sb textIndex (S sentenceIndex)
          end
      | _ =>
          reconstructHTML_loop tokens' translatedSentences sentenceCounts
            (WriteString sb (Token_String token)) textIndex sentenceIndex
      end
  end.

Definition reconstructHTML (tokens : list Token)
    (translatedSentences : list string) (sentenceCounts : list Z)
    : Outcome string :=
  reconstructHTML_loop tokens translatedSentences sentenceCounts "" 0 0.

(** *** What the tokenizer emits

    [Emits z ems err]: driven the way [getTextFromHTML] drives it ([Tokenizer_Next];
    [Tokenizer_Text] on a text token; [Token]), the tokenizer in state [z] emits the
    tokens [ems] and then an [ErrorToken] with error [err].  Each emitted
    token is recorded with its type, the bytes [Tokenizer_Text] returned for it (text
    tokens only) and the value [Token] returned for it. *)
Record Emitted : Type := mkEmitted {
  emType : TokenType;
  emText : string;
  emToken : Token
}.

Inductive Emits : Tokenizer -> list Emitted -> error -> Prop :=
| Emits_end z z1 :
    Tokenizer_Next z = (ErrorToken, z1) ->
    Emits z [] (Tokenizer_Err z1)
| Emits_text z z1 raw z2 token z3 ems err :
    Tokenizer_Next z = (TextToken, z1) ->
    Tokenizer_Text z1 = (raw, z2) ->
    Tokenizer_Token z2 = (token, z3) ->
    Emits z3 ems err ->
    Emits z (mkEmitted TextToken raw token :: ems) err
| Emits_other z tt_ z1 token z2 ems err :
    Tokenizer_Next z = (tt_, z1) ->
    tt_ <> ErrorToken -> tt_ <> TextToken ->
    Tokenizer_Token z1 = (token, z2) ->
    Emits z2 ems err ->
    Emits z (mkEmitted tt_ "" token :: ems) err.

(** A text token that yields text: its trimmed payload is not empty. *)
Definition yieldsText (em : Emitted) : bool :=
  isTextToken (emType em) && negb (String.eqb (TrimSpace (emText em)) "").

(** The tokenizer consumes its input: a call of [Tokenizer_Next] that does not report
    an [ErrorToken] leaves fewer bytes to scan, and [Tokenizer_Text] and [Token] do
    not put bytes back. *)
Record TokenizerLaws : Prop := {
  Next_consumes : forall z tt_ z1,
    Tokenizer_Next z = (tt_, z1) -> tt_ <> ErrorToken -> remaining z1 < remaining z;
  Text_keeps : forall z raw z1, Tokenizer_Text z = (raw, z1) -> remaining z1 <= remaining z;
  Token_keeps : forall z token z1,
    Tokenizer_Token z = (token, z1) -> remaining z1 <= remaining z
}.

End HtmlGo.

(** ** Package [encoding/hex] *)

Module Hex.

Definition hextable : string := "0123456789abcdef".

Definition digit (n : nat) : ascii :=
  match String.get n hextable with
  | Some c => c
  | None => "0"%char
  end.

(** [hex.EncodeToString]: two digits per byte, high nibble first. *)
Fixpoint EncodeToString (src : string) : string :=
  match src with
  | EmptyString => EmptyString
  | String c src' =>
      let v := nat_of_ascii c in
      String (digit (v / 16)) (String (digit (v mod 16)) (EncodeToString src'))
  end.

(** [fromHexChar]: the value of a digit. *)
Definition fromHexChar (c : ascii) : option nat :=
  let v := nat_of_ascii c in
  if (48 <=? v) && (v <=? 57) then Some (v - 48)
  else if (97 <=? v) && (v <=? 102) then Some (v - 97 + 10)
  else if (65 <=? v) && (v <=? 70) then Some (v - 65 + 10)
  else None.

End Hex.

(** ** Package [crypto/sha256] *)

Module Sha256.

(** [Sum256 data] is the checksum, the 32 bytes of Go's [[32]byte]. *)
Class Package : Type := {
  Sum256 : string -> string
}.

Definition Size : nat := 32.

Definition Laws {sha256 : Package} : Prop :=
  forall data, String.length (Sum256 data) = Size.

End Sha256.

(** ** The AWS SDK types the handler touches *)

Module Dynamodb.

(** [types.AttributeValue]: the string member and some of the others. *)
Inductive AttributeValue : Type :=
| AttributeValueMemberS (Value : string)
| AttributeValueMemberN (Value : string)
| AttributeValueMemberBOOL (Value : bool)
| AttributeValueMemberNULL.

Record GetItemInput : Type := mkGetItemInput {
  GetItemInput_TableName : option string;
  GetItemInput_Key : gmap string AttributeValue
}.

(** [Item] is a Go map: [None] is the [nil] map. *)
Record GetItemOutput : Type := mkGetItemOutput {
  GetItemOutput_Item : option (gmap string AttributeValue)
}.

Record PutItemInput : Type := mkPutItemInput {
  PutItemInput_TableName : option string;
  PutItemInput_Item : gmap string AttributeValue
}.

Record PutItemOutput : Type := mkPutItemOutput { }.

End Dynamodb.

Module Translate.

(** Pointers to strings are options: [None] is [nil]. *)
Record TranslateTextInput : Type := mkTranslateTextInput {
  SourceLanguageCode : option string;
  TargetLanguageCode : option string;
  TranslateTextInput_Text : option string
}.

Record TranslateTextOutput : Type := mkTranslateTextOutput {
  TranslateTextOutput_TranslatedText : option string
}.

Record Language : Type := mkLanguage {
  LanguageCode : option string
}.

Record ListLanguagesInput : Type := mkListLanguagesInput { }.

(** [Languages] is a slice: [None] is the [nil] slice. *)
Record ListLanguagesOutput : Type := mkListLanguagesOutput {
  Languages : option (list Language)
}.

End Translate.

Import Dynamodb Translate.

(** A [context.Context] of the handler: the one it is called with, or the
    one [errgroup.WithContext] derives from it. *)
Inductive Context : Type :=
| ctxHandler
| ctxGroup.

(** ** [main.go]: data *)

Record TranslateRequest : Type := mkTranslateRequest {
  SourceLanguage : string;
  TargetLanguage : string;
  Text : string
}.

Record TranslateResponse : Type := mkTranslateResponse {
  TranslatedText : string;
  DetectedLanguage : string;
  TranslationConfidence : float
}.

Module Cache.
(** [CacheItem]. *)
Record Item : Type := mkItem {
  Hash : string;
  TranslatedText : string;
  SourceText : string;
  SourceLanguage : string;
  TargetLanguage : string
}.

Definition zero : Item := mkItem "" "" "" "" "".
End Cache.

(** [events.APIGatewayProxyResponse], the two fields the handler sets. *)
Record APIGatewayProxyResponse : Type := mkResponse {
  StatusCode : Z;
  Body : string
}.

Record APIGatewayProxyRequest : Type := mkEvent {
  EventBody : string
}.

Definition StatusOK : Z := 200.
Definition StatusBadRequest : Z := 400.
Definition StatusUnprocessableEntity : Z := 422.
Definition StatusInternalServerError : Z := 500.

(** ** Package [json] ([json-iterator], standard-library compatible) *)

Module Json.

(** [Unmarshal body] is the request the decoder fills and its error;
    [Encode escapeHTML v] is what the encoder writes (a line) and its
    error. *)
Class Package : Type := {
  Unmarshal : string -> TranslateRequest * option error;
  Encode : bool -> TranslateResponse -> string * option error
}.

End Json.

(** ** [main.go]: pure functions *)

(** [fmt.Sprintf("%s-%s-%s", a, b, c)]. *)
Definition Sprintf_s_s_s (a b c : string) : string :=
  a +:+ "-" +:+ b +:+ "-" +:+ c.

(** The error text [err.Error()]. *)
Fixpoint Error (err : error) : string :=
  match err with
  | io_EOF => "EOF"
  | errorString msg => msg
  | wrapError msg err' => msg +:+ ": " +:+ Error err'
  end.

Definition validateRequest (request : TranslateRequest) : option error :=
  if String.eqb (SourceLanguage request) "" then
    Some (errorString "source_language is required")
  else if String.eqb (TargetLanguage request) "" then
    Some (errorString "target_language is required")
  else if String.eqb (Text request) "" then
    Some (errorString "text is required")
  else None.

(** The loop of [reconstructPlainText]: every sentence, then one space. *)
Fixpoint reconstructPlainText_loop (translatedSentences : list string)
    (sb : Builder) : Builder :=
  match translatedSentences with
  | [] => sb
  | sentence :: rest =>
      reconstructPlainText_loop rest (WriteString (WriteString sb sentence) " ")
  end.

Definition reconstructPlainText (translatedSentences : list string) : string :=
  TrimSpace (reconstructPlainText_loop translatedSentences "").

Section Hashing.
Context {sha256 : Sha256.Package}.

Definition getHashFromText (text : string) : string :=
  let hash := Sha256.Sum256 text in
  Hex.EncodeToString hash.

(** The cache fingerprint of a (source language, target language, sentence)
    triple, as [shouldCacheBeUsed] and the handler compute it. *)
Definition fingerprint (sourceLanguage targetLanguage text : string) : string :=
  getHashFromText (Sprintf_s_s_s sourceLanguage targetLanguage text).

End Hashing.

(** ** The clients of the handler

    [DynamoDBClient] and [TranslateClient] are the two interfaces of
    [main.go].  A method call acts on the state [World] of the services
    behind them; it is told whether its context is done, and returns the Go
    pair (output pointer, error). *)

Class DynamoDBClient (World : Type) : Type := {
  GetItem : bool -> GetItemInput -> World ->
            (option GetItemOutput * option error) * World;
  PutItem : bool -> PutItemInput -> World ->
            (option PutItemOutput * option error) * World
}.

Class TranslateClient (World : Type) : Type := {
  TranslateText : bool -> TranslateTextInput -> World ->
                  (option TranslateTextOutput * option error) * World;
  ListLanguages : bool -> ListLanguagesInput -> World ->
                  (option ListLanguagesOutput * option error) * World
}.

(** One call of a client method, with what it returned. *)
Inductive Call : Type :=
| ListLanguagesCall (params : ListLanguagesInput)
    (out : option ListLanguagesOutput * option error)
| TranslateTextCall (params : TranslateTextInput)
    (out : option TranslateTextOutput * option error)
| GetItemCall (params : GetItemInput)
    (out : option GetItemOutput * option error)
| PutItemCall (params : PutItemInput)
    (out : option PutItemOutput * option error).

(** ** Code that calls the clients

    A function of [main.go] that calls a client is a term of [Prog]: the
    calls it makes, in order, each with the code that runs on its result.
    [Store index value] is the assignment [translatedSentences[index] = value]
    of a task.  A term is run one call at a time, so that the tasks of an
    [errgroup] can be interleaved. *)
Inductive Prog (A : Type) : Type :=
| Ret (a : A)
| Throw (p : Panic)
| CallListLanguages (ctx : Context) (params : ListLanguagesInput)
    (k : option ListLanguagesOutput * option error -> Prog A)
| CallTranslateText (ctx : Context) (params : TranslateTextInput)
    (k : option TranslateTextOutput * option error -> Prog A)
| CallGetItem (ctx : Context) (params : GetItemInput)
    (k : option GetItemOutput * option error -> Prog A)
| CallPutItem (ctx : Context) (params : PutItemInput)
    (k : option PutItemOutput * option error -> Prog A)
| Store (index : nat) (value : string) (k : Prog A).

Arguments Ret {A} a.
Arguments Throw {A} p.
Arguments CallListLanguages {A} ctx params k.
Arguments CallTranslateText {A} ctx params k.
Arguments CallGetItem {A} ctx params k.
Arguments CallPutItem {A} ctx params k.
Arguments Store {A} index value k.

Fixpoint bind {A B : Type} (m : Prog A) (f : A -> Prog B) : Prog B :=
  match m with
  | Ret a => f a
  | Throw p => Throw p
  | CallListLanguages ctx params k =>
      CallListLanguages ctx params (fun out => bind (k out) f)
  | CallTranslateText ctx params k =>
      CallTranslateText ctx params (fun out => bind (k out) f)
  | CallGetItem ctx params k =>
      CallGetItem ctx params (fun out => bind (k out) f)
  | CallPutItem ctx params k =>
      CallPutItem ctx params (fun out => bind (k out) f)
  | Store index value k => Store index value (bind k f)
  end.

Declare Scope prog_scope.
Delimit Scope prog_scope with prog.
Notation "'let*' x ':=' m 'in' k" := (bind m (fun x => k))
  (at level 10, x name, m at level 100, k at level 200, only parsing)
  : prog_scope.
Notation "'let*' ' pat ':=' m 'in' k" := (bind m (fun x => let 'pat := x in k))
  (at level 10, pat pattern, m at level 100, k at level 200, only parsing)
  : prog_scope.

(** Dereferencing a pointer: [nil] panics. *)
Definition deref {A : Type} (p : option A) : Prog A :=
  match p with
  | Some a => Ret a
  | None => Throw NilPointerDereference
  end.

(** The type assertion to [*types.AttributeValueMemberS] and the read of its
    [Value], on the value a map lookup gave:
    a missing key gives the [nil] interface, and the assertion panics on
    it as on any other member. *)
Definition assertS (v : option AttributeValue) : Prog string :=
  match v with
  | Some (AttributeValueMemberS Value) => Ret Value
  | _ => Throw InterfaceConversion
  end.

(** [for i, lang := range out.Languages { languages[i] = *lang.LanguageCode }]. *)
Fixpoint languageCodes (langs : list Language) : Prog (list string) :=
  match langs with
  | [] => Ret []
  | lang :: langs' =>
      (let* code := deref (LanguageCode lang) in
       let* codes := languageCodes langs' in
       Ret (code :: codes))%prog
  end.

(** [slices.Contains] on strings. *)
Definition slices_Contains (s : list string) (v : string) : bool :=
  existsb (String.eqb v) s.

Section MainGo.
Context {sha256 : Sha256.Package}.

(** The package variable [translateTableName], set from the environment
    when the program starts. *)
Variable translateTableName : string.

Open Scope prog_scope.

Definition shouldCacheBeUsed (ctx : Context)
    (sourceLanguage targetLanguage text : string)
    : Prog (Cache.Item * bool * option error) :=
  let hashKey := Sprintf_s_s_s sourceLanguage targetLanguage text in
  let hash := getHashFromText hashKey in
  let useCache := false in
  let cacheItem := Cache.zero in
  let* '(response, err) := CallGetItem ctx
      (mkGetItemInput (Some translateTableName)
         {[ "hash" := AttributeValueMemberS hash ]}) Ret in
  match err with
  | Some err => Ret (cacheItem, useCache, Some err)
  | None =>
      let* response := deref response in
      match GetItemOutput_Item response with
      | None => Ret (cacheItem, useCache, None)
      | Some item =>
          let* Hash := assertS (item !! "hash") in
          let* TranslatedText := assertS (item !! "translated_text") in
          let* SourceText := assertS (item !! "source_text") in
          let* SourceLanguage := assertS (item !! "source_language") in
          let* TargetLanguage := assertS (item !! "target_language") in
          Ret (Cache.mkItem Hash TranslatedText SourceText SourceLanguage
                 TargetLanguage, true, None)
      end
  end.

Definition translateLanguage (ctx : Context)
    (text sourceLanguage targetLanguage : string)
    : Prog (TranslateResponse * option error) :=
  let input :=
    mkTranslateTextInput (Some sourceLanguage) (Some targetLanguage) (Some text) in
  let* '(output, err) := CallTranslateText ctx input Ret in
  match err with
  | Some err => Ret (mkTranslateResponse "" "" 0%float, Some err)
  | None =>
      let* output := deref output in
      let* TranslatedText := deref (TranslateTextOutput_TranslatedText output) in
      Ret (mkTranslateResponse TranslatedText "" 0%float, None)
  end.

Definition cacheTranslatedText (ctx : Context) (item : Cache.Item)
    : Prog (option error) :=
  let* '(_, err) := CallPutItem ctx
      (mkPutItemInput (Some translateTableName)
         {[ "hash" := AttributeValueMemberS (Cache.Hash item);
            "translated_text" := AttributeValueMemberS (Cache.TranslatedText item);
            "source_text" := AttributeValueMemberS (Cache.SourceText item);
            "source_language" := AttributeValueMemberS (Cache.SourceLanguage item);
            "target_language" := AttributeValueMemberS (Cache.TargetLanguage item) ]})
      Ret in
  Ret err.

(** The result slice is [None] for Go's [nil]. *)
Definition getSupportedLanguages (ctx : Context)
    : Prog (option (list string) * option error) :=
  let* '(out, err) := CallListLanguages ctx mkListLanguagesInput Ret in
  match err with
  | Some err => Ret (None, Some err)
  | None =>
      let* out := deref out in
      match Languages out with
      | None => Ret (None, Some (errorString "no languages returned by AWS Translate"))
      | Some langs =>
          let* languages := languageCodes langs in
          Ret (Some languages, None)
      end
  end.

Definition doesTargetLanguageExist (ctx : Context) (targetLanguage : string)
    : Prog (bool * option error) :=
  let* '(languages, err) := getSupportedLanguages ctx in
  match err with
  | Some err => Ret (false, Some err)
  | None => Ret (slices_Contains (default [] languages) targetLanguage, None)
  end.

(** The closure the handler hands to [errGroup.Go] for the sentence
    [token] at [index]. *)
Definition translateTask (request : TranslateRequest) (index : nat)
    (token : string) : Prog (option error) :=
  let* '(cacheItem, useCache, err) := shouldCacheBeUsed ctxGroup (SourceLanguage request)
        (TargetLanguage request) token in
  match err with
  | Some err =>
      Ret (Some (wrapError ("error checking cache for token " +:+ pretty index) err))
  | None =>
      if useCache : bool then
        Store index (Cache.TranslatedText cacheItem) (Ret None)
      else
        let* '(translateResponse, err) := translateLanguage ctxGroup token (SourceLanguage request)
              (TargetLanguage request) in
        match err with
        | Some err =>
            Ret (Some (wrapError ("error translating token " +:+ pretty index) err))
        | None =>
            let cacheItem :=
              Cache.mkItem
                (getHashFromText
                   (Sprintf_s_s_s (SourceLanguage request)
                      (TargetLanguage request) token))
                (TranslatedText translateResponse)
                token
                (SourceLanguage request)
                (TargetLanguage request) in
            let* err := cacheTranslatedText ctxGroup cacheItem in
            match err with
            | Some err =>
                Ret (Some (wrapError
                             ("error caching translation for token " +:+ pretty index)
                             err))
            | None => Store index (TranslatedText translateResponse) (Ret None)
            end
        end
  end.

End MainGo.

(** ** Running the code against the clients *)

Section Run.
Context {World : Type}.
Context {dynamoClient : DynamoDBClient World}.
Context {translateClient : TranslateClient World}.

(** The state a run acts on: the services, the calls made so far (oldest
    first) and the slice [translatedSentences] of the handler, which its
    tasks share. *)
Record Machine : Type := mkMachine {
  world : World;
  calls : list Call;
  slots : list string
}.

Definition logCall (c : Call) (w : World) (m : Machine) : Machine :=
  mkMachine w (calls m ++ [c]) (slots m).

(** The assignment [translatedSentences[index] = value]; out of range it
    panics. *)
Definition store (index : nat) (value : string) (m : Machine)
    : option Machine :=
  if decide (index < length (slots m))
  then Some (mkMachine (world m) (calls m) (<[index := value]> (slots m)))
  else None.

(** One step of a term: its first call, or its first assignment.  [done ctx]
    tells whether the context [ctx] is done when the call is made. *)
Definition stepProg {A : Type} (done : Context -> bool) (p : Prog A)
    (m : Machine) : Prog A * Machine :=
  match p with
  | Ret a => (Ret a, m)
  | Throw pn => (Throw pn, m)
  | CallListLanguages ctx params k =>
      let '(out, w) := ListLanguages (done ctx) params (world m) in
      (k out, logCall (ListLanguagesCall params out) w m)
  | CallTranslateText ctx params k =>
      let '(out, w) := TranslateText (done ctx) params (world m) in
      (k out, logCall (TranslateTextCall params out) w m)
  | CallGetItem ctx params k =>
      let '(out, w) := GetItem (done ctx) params (world m) in
      (k out, logCall (GetItemCall params out) w m)
  | CallPutItem ctx params k =>
      let '(out, w) := PutItem (done ctx) params (world m) in
      (k out, logCall (PutItemCall params out) w m)
  | Store index value k =>
      match store index value m with
      | Some m' => (k, m')
      | None => (Throw (IndexOutOfRange index (length (slots m))), m)
      end
  end.

(** A term run to its end, with no other code in between. *)
Fixpoint runProg {A : Type} (done : Context -> bool) (p : Prog A)
    (m : Machine) : Outcome A * Machine :=
  match p with
  | Ret a => (Returns a, m)
  | Throw pn => (Panics pn, m)
  | CallListLanguages ctx params k =>
      let '(out, w) := ListLanguages (done ctx) params (world m) in
      runProg done (k out) (logCall (ListLanguagesCall params out) w m)
  | CallTranslateText ctx params k =>
      let '(out, w) := TranslateText (done ctx) params (world m) in
      runProg done (k out) (logCall (TranslateTextCall params out) w m)
  | CallGetItem ctx params k =>
      let '(out, w) := GetItem (done ctx) params (world m) in
      runProg done (k out) (logCall (GetItemCall params out) w m)
  | CallPutItem ctx params k =>
      let '(out, w) := PutItem (done ctx) params (world m) in
      runProg done (k out) (logCall (PutItemCall params out) w m)
  | Store index value k =>
      match store index value m with
      | Some m' => runProg done k m'
      | None => (Panics (IndexOutOfRange index (length (slots m))), m)
      end
  end.

(** *** Package [golang.org/x/sync/errgroup]

    A task is queued (its [Go] call has not returned: the limit is
    reached, or the handler has not come to it), running (a goroutine, with
    the code it still has to run), or finished with the error it
    returned.  [groupErr] is the first error a task returned; the group
    context is cancelled with it. *)
Inductive Task : Type :=
| Queued (f : Prog (option error))
| Running (f : Prog (option error))
| Finished (err : option error).

Record Group : Type := mkGroup {
  tasks : list Task;
  groupErr : option error;
  cancelled : bool
}.

(** [errGroup.SetLimit(10)]. *)
Definition limit : nat := 10.

Definition isRunning (t : Task) : bool :=
  match t with Running _ => true | _ => false end.

Definition inFlight (g : Group) : nat := length (filter isRunning (tasks g)).

(** The handler's context is not done while it runs; the group's context is
    done once a task has failed. *)
Definition ctxDone (g : Group) (ctx : Context) : bool :=
  match ctx with
  | ctxHandler => false
  | ctxGroup => cancelled g
  end.

(** [Go] starts the tasks in the order of the handler's loop: the first
    queued task becomes a goroutine. *)
Fixpoint startFirst (ts : list Task) : list Task :=
  match ts with
  | [] => []
  | Queued f :: ts' => Running f :: ts'
  | t :: ts' => t :: startFirst ts'
  end.

Definition launch (g : Group) : Group :=
  if decide (inFlight g < limit)
  then mkGroup (startFirst (tasks g)) (groupErr g) (cancelled g)
  else g.

(** A task returns: the first error is kept and cancels the context. *)
Definition finish (index : nat) (err : option error) (g : Group) : Group :=
  mkGroup (<[index := Finished err]> (tasks g))
    (match groupErr g with
     | Some first => Some first
     | None => err
     end)
    (cancelled g || bool_decide (is_Some err)).

(** What the scheduler does next: let [Go] start a task, or let the
    goroutine of the task at [index] take a step.  A pick that cannot be
    followed (nothing to start, the limit reached, no such goroutine)
    changes nothing. *)
Inductive Pick : Type :=
| Launch
| Step (index : nat).

Definition stepTask (index : nat) (g : Group) (m : Machine)
    : Outcome Group * Machine :=
  match tasks g !! index with
  | Some (Running f) =>
      match f with
      | Ret err => (Returns (finish index err g), m)
      | Throw pn => (Panics pn, m)
      | _ =>
          let '(f', m') := stepProg (ctxDone g) f m in
          (Returns (mkGroup (<[index := Running f']> (tasks g))
                      (groupErr g) (cancelled g)), m')
      end
  | _ => (Returns g, m)
  end.

Definition pick (p : Pick) (g : Group) (m : Machine) : Outcome Group * Machine :=
  match p with
  | Launch => (Returns (launch g), m)
  | Step index => stepTask index g m
  end.

Fixpoint runPicks (sched : list Pick) (g : Group) (m : Machine)
    : Outcome Group * Machine :=
  match sched with
  | [] => (Returns g, m)
  | p :: sched' =>
      match pick p g m with
      | (Returns g', m') => runPicks sched' g' m'
      | other => other
      end
  end.

(** A task run from where it is to its return. *)
Fixpoint runTask (index : nat) (f : Prog (option error)) (g : Group)
    (m : Machine) : Outcome Group * Machine :=
  match f with
  | Ret err => (Returns (finish index err g), m)
  | Throw pn => (Panics pn, m)
  | CallListLanguages ctx params k =>
      let '(out, w) := ListLanguages (ctxDone g ctx) params (world m) in
      runTask index (k out) g (logCall (ListLanguagesCall params out) w m)
  | CallTranslateText ctx params k =>
      let '(out, w) := TranslateText (ctxDone g ctx) params (world m) in
      runTask index (k out) g (logCall (TranslateTextCall params out) w m)
  | CallGetItem ctx params k =>
      let '(out, w) := GetItem (ctxDone g ctx) params (world m) in
      runTask index (k out) g (logCall (GetItemCall params out) w m)
  | CallPutItem ctx params k =>
      let '(out, w) := PutItem (ctxDone g ctx) params (world m) in
      runTask index (k out) g (logCall (PutItemCall params out) w m)
  | Store i value k =>
      match store i value m with
      | Some m' => runTask index k g m'
      | None => (Panics (IndexOutOfRange i (length (slots m))), m)
      end
  end.

(** When the scheduler's picks are used up, the tasks that have not
    returned are run to their return one after the other, in the order of
    their indices (a task still queued is started when its turn
    comes: all the tasks before it have returned). *)
Fixpoint drain (indices : list nat) (g : Group) (m : Machine)
    : Outcome Group * Machine :=
  match indices with
  | [] => (Returns g, m)
  | index :: indices' =>
      match tasks g !! index with
      | Some (Queued f) | Some (Running f) =>
          match runTask index f g m with
          | (Returns g', m') => drain indices' g' m'
          | other => other
          end
      | _ => drain indices' g m
      end
  end.

(** [errGroup.Wait()]: every task has returned; the result is the first
    error. *)
Definition Wait (sched : list Pick) (g : Group) (m : Machine)
    : Outcome (option error) * Machine :=
  match runPicks sched g m with
  | (Returns g', m') =>
      match drain (seq 0 (length (tasks g'))) g' m' with
      | (Returns g'', m'') => (Returns (groupErr g''), m'')
      | (Panics pn, m'') => (Panics pn, m'')
      | (NoReturn, m'') => (NoReturn, m'')
      end
  | (Panics pn, m') => (Panics pn, m')
  | (NoReturn, m') => (NoReturn, m')
  end.

End Run.

Arguments Machine World : clear implicits.

(** ** [main.go]: the handler *)

Section Handler.
Context {html : Html.Package} {sentencizer : Sentencizer.Package}.
Context {sha256 : Sha256.Package} {json : Json.Package}.
Context {World : Type}.
Context {dynamoClient : DynamoDBClient World}.
Context {translateClient : TranslateClient World}.
Variable translateTableName : string.

Definition unmarshalRequest (body : string) : TranslateRequest * option error :=
  let '(request, err) := Json.Unmarshal body in
  match err with
  | Some err =>
      (request, Some (wrapError "failed to unmarshal request body" err))
  | None => (request, None)
  end.

Definition marshalResponse (response : TranslateResponse)
    : string * option error :=
  let '(buf, err) := Json.Encode false response in
  match err with
  | Some err => ("", Some (wrapError "failed to marshal response" err))
  | None => (TrimSpace buf, None)
  end.

(** The handler's choice between markup and plain text, and the sentences
    it takes from the request: whether the text is HTML, then the tokens,
    the sentences, the counts and the error of [getTextFromHTML] (for plain
    text the tokens and the counts stay [nil]). *)
Definition extractSentences (request : TranslateRequest)
    : Outcome (bool * Extracted) :=
  let htmlContent := isHTML (Text request) in
  if htmlContent then
    match getTextFromHTML (Text request) with
    | Returns extracted => Returns (true, extracted)
    | Panics pn => Panics pn
    | NoReturn => NoReturn
    end
  else Returns (false, ([], splitSentences (Text request), [], None)).

(** The code of the handler runs on a [Machine]. *)
Definition Handler (A : Type) : Type :=
  Machine World -> Outcome A * Machine World.

Definition ret {A : Type} (a : A) : Handler A := fun m => (Returns a, m).

Definition andThen {A B : Type} (h : Handler A) (f : A -> Handler B)
    : Handler B :=
  fun m =>
    match h m with
    | (Returns a, m') => f a m'
    | (Panics pn, m') => (Panics pn, m')
    | (NoReturn, m') => (NoReturn, m')
    end.

Definition lift {A : Type} (o : Outcome A) : Handler A := fun m => (o, m).

(** Code that calls the clients, run by the handler itself. *)
Definition exec {A : Type} (p : Prog A) : Handler A :=
  runProg (fun _ => false) p.

(** The tasks of the handler's loop over [sentences], in the order of the
    calls of [errGroup.Go]. *)
Definition makeTasks (request : TranslateRequest) (sentences : list string)
    : list Task :=
  imap (fun idx tok => Queued (translateTask translateTableName request idx tok))
    sentences.

(** The translation of the sentences: [translatedSentences] is made, one
    task per sentence is handed to the group, and the handler waits.  The
    result is the slice and the error of [Wait]. *)
Definition translateSentences (sched : list Pick) (request : TranslateRequest)
    (sentences : list string) : Handler (list string * option error) :=
  fun m =>
    let m := mkMachine (world m) (calls m) (replicate (length sentences) "") in
    let g := mkGroup (makeTasks request sentences) None false in
    match Wait sched g m with
    | (Returns err, m') => (Returns (slots m', err), m')
    | (Panics pn, m') => (Panics pn, m')
    | (NoReturn, m') => (NoReturn, m')
    end.

Definition respond (status : Z) (body : string)
    : Handler (APIGatewayProxyResponse * option error) :=
  ret (mkResponse status body, None).

Declare Scope handler_scope.
Delimit Scope handler_scope with handler.
Notation "'let*' x ':=' h 'in' k" := (andThen h (fun x => k))
  (at level 10, x name, h at level 100, k at level 200, only parsing)
  : handler_scope.
Notation "'let*' ' pat ':=' h 'in' k" :=
  (andThen h (fun x => let 'pat := x in k))
  (at level 10, pat pattern, h at level 100, k at level 200, only parsing)
  : handler_scope.
Open Scope handler_scope.

(** [handler.handle].  [sched] is what the scheduler does with the tasks
    of the group. *)
Definition handle (sched : list Pick) (event : APIGatewayProxyRequest)
    : Handler (APIGatewayProxyResponse * option error) :=
  let '(request, err) := unmarshalRequest (EventBody event) in
  match err with
  | Some _ => respond StatusBadRequest "Invalid request format"
  | None =>
  match validateRequest request with
  | Some err => respond StatusBadRequest (Error err)
  | None =>
  let* '(supported, err) :=
    exec (doesTargetLanguageExist ctxHandler (TargetLanguage request)) in
  match err with
  | Some _ =>
      respond StatusInternalServerError "Error checking supported languages"
  | None =>
  if negb supported then
    respond StatusUnprocessableEntity "Target language not supported"
  else
  let* '(htmlContent, (htmlTokens, sentences, wordCounts, err)) :=
    lift (extractSentences request) in
  match err with
  | Some _ => respond StatusInternalServerError "Error processing HTML content"
  | None =>
  let* '(translatedSentences, err) :=
    translateSentences sched request sentences in
  match err with
  | Some _ => respond StatusInternalServerError "Error during translation"
  | None =>
  let* translatedText :=
    lift (if htmlContent : bool
          then reconstructHTML htmlTokens translatedSentences wordCounts
          else Returns (reconstructPlainText translatedSentences)) in
  let response := mkTranslateResponse translatedText "" 0%float in
  let '(responseBody, err) := marshalResponse response in
  match err with
  | Some _ => respond StatusInternalServerError "Error marshalling response"
  | None => respond StatusOK responseBody
  end
  end
  end
  end
  end
  end.

End Handler.

(** * Reference implementations of the packages

    They are not the packages themselves: they are small implementations of
    the interfaces, on which the code above can be run.  [Sha256Ref] is
    SHA-256 (FIPS 180-4); the others cover the inputs of the repository's
    tests. *)

Module Sha256Ref.
Local Open Scope N_scope.

Definition mask32 : N := 0xffffffff.
Definition add32 (x y : N) : N := N.land (x + y) mask32.
Definition rotr (n x : N) : N :=
  N.lor (N.shiftr x n) (N.land (N.shiftl x (32 - n)) mask32).
Definition not32 (x : N) : N := N.lxor x mask32.
Definition Ch (x y z : N) : N := N.lxor (N.land x y) (N.land (not32 x) z).
Definition Maj (x y z : N) : N :=
  N.lxor (N.lxor (N.land x y) (N.land x z)) (N.land y z).
Definition bsig0 (x : N) : N := N.lxor (N.lxor (rotr 2 x) (rotr 13 x)) (rotr 22 x).
Definition bsig1 (x : N) : N := N.lxor (N.lxor (rotr 6 x) (rotr 11 x)) (rotr 25 x).
Definition ssig0 (x : N) : N := N.lxor (N.lxor (rotr 7 x) (rotr 18 x)) (N.shiftr x 3).
Definition ssig1 (x : N) : N := N.lxor (N.lxor (rotr 17 x) (rotr 19 x)) (N.shiftr x 10).

(** The constants of the standard are roots of the first primes: the first
    32 bits of the fractional part of the cube root of each of the first 64
    primes, and, for the initial state, of the square root of each of the
    first 8. *)
Definition isPrime (n : nat) : bool :=
  forallb (fun d => negb (Nat.eqb (Nat.modulo n d) 0)) (seq 2 (n - 2)).

Definition primes : list N :=
  map N.of_nat (List.filter isPrime (seq 2 310)).

Fixpoint cubeRoot (bits : nat) (n r : N) : N :=
  match bits with
  | O => r
  | S bits' =>
      let r' := r + N.shiftl 1 (N.of_nat bits') in
      cubeRoot bits' n (if r' * r' * r' <=? n then r' else r)
  end.

Definition K : list N :=
  map (fun p => N.land (cubeRoot 36 (N.shiftl p 96) 0) mask32) primes.

Definition State : Type := (N * N * N * N * N * N * N * N)%type.

Definition rootBits (i : nat) : N :=
  N.land (N.sqrt (N.shiftl (nth i primes 0) 64)) mask32.

Definition init : State :=
  (rootBits 0, rootBits 1, rootBits 2, rootBits 3,
   rootBits 4, rootBits 5, rootBits 6, rootBits 7).

Definition bytes (s : string) : list N :=
  map (fun c => N_of_ascii c) (list_ascii_of_string s).

Definition be (width : nat) (x : N) : list N :=
  map (fun i => N.land (N.shiftr x (8 * N.of_nat i)) 0xff) (List.rev (seq 0 width)).

Definition pad (msg : list N) : list N :=
  let len := N.of_nat (length msg) in
  let zeros := N.to_nat ((64 - (len + 9) mod 64) mod 64) in
  msg ++ [0x80] ++ repeat 0 zeros ++ be 8 (8 * len).

Fixpoint words (bs : list N) : list N :=
  match bs with
  | a :: b :: c :: d :: bs' =>
      (N.shiftl a 24 + N.shiftl b 16 + N.shiftl c 8 + d) :: words bs'
  | _ => []
  end.

(** The message schedule, the latest word first. *)
Fixpoint schedule (n : nat) (ws : list N) : list N :=
  match n with
  | O => ws
  | S n' =>
      let w := add32 (add32 (ssig1 (nth 1 ws 0)) (nth 6 ws 0))
                     (add32 (ssig0 (nth 14 ws 0)) (nth 15 ws 0)) in
      schedule n' (w :: ws)
  end.

Definition round (st : State) (kw : N * N) : State :=
  let '(a, b, c, d, e, f, g, h) := st in
  let '(k, w) := kw in
  let t1 := add32 (add32 (add32 h (bsig1 e)) (add32 (Ch e f g) k)) w in
  let t2 := add32 (bsig0 a) (Maj a b c) in
  (add32 t1 t2, a, b, c, add32 d t1, e, f, g).

Definition compress (st : State) (block : list N) : State :=
  let ws := List.rev (schedule 48 (List.rev (words block))) in
  let '(a, b, c, d, e, f, g, h) := fold_left round (combine K ws) st in
  let '(a0, b0, c0, d0, e0, f0, g0, h0) := st in
  (add32 a0 a, add32 b0 b, add32 c0 c, add32 d0 d,
   add32 e0 e, add32 f0 f, add32 g0 g, add32 h0 h).

Fixpoint blocks (n : nat) (bs : list N) (st : State) : State :=
  match n with
  | O => st
  | S n' => blocks n' (skipn 64 bs) (compress st (firstn 64 bs))
  end.

Definition word_string (x : N) : string :=
  string_of_list_ascii (map ascii_of_N (be 4 x)).

Definition digest (st : State) : string :=
  let '(a, b, c, d, e, f, g, h) := st in
  word_string a +:+ word_string b +:+ word_string c +:+ word_string d +:+
  word_string e +:+ word_string f +:+ word_string g +:+ word_string h.

Definition Sum256 (data : string) : string :=
  let padded := pad (bytes data) in
  digest (blocks (length padded / 64) padded init).
End Sha256Ref.
#[export] Instance sha256Ref : Sha256.Package := {|
  Sha256.Sum256 := Sha256Ref.Sum256
|}.

(** A tokenizer for markup made of text and of tags without attributes:
    [<name>], [</name>] and the text between them.  As with the package,
    [Text] hands out the bytes of the current token once, so that a [Token]
    called after it finds no data. *)
Module HtmlRef.

Record State : Type := mkState {
  input : string;
  current : TokenType;
  data : string
}.

(** The bytes of [s] before the first [c], and those after it. *)
Fixpoint cut (c : ascii) (s : string) : option (string * string) :=
  match s with
  | EmptyString => None
  | String d s' =>
      if Ascii.eqb c d then Some (EmptyString, s')
      else
        match cut c s' with
        | Some (before, after) => Some (String d before, after)
        | None => None
        end
  end.

(** The text up to the next ["<"], and what follows from it on. *)
Fixpoint text (s : string) : string * string :=
  match s with
  | EmptyString => (EmptyString, EmptyString)
  | String d s' =>
      if Ascii.eqb d "<" then (EmptyString, s)
      else let '(t, rest) := text s' in (String d t, rest)
  end.

Definition Next (z : State) : TokenType * State :=
  match input z with
  | EmptyString => (ErrorToken, mkState "" ErrorToken "")
  | String c s' =>
      if Ascii.eqb c "<" then
        match cut ">" s' with
        | Some (String "/" name, rest) => (EndTagToken, mkState rest EndTagToken name)
        | Some (name, rest) => (StartTagToken, mkState rest StartTagToken name)
        | None => (TextToken, mkState "" TextToken (input z))
        end
      else
        let '(t, rest) := text s' in
        (TextToken, mkState rest TextToken (String c t))
  end.

Definition Text (z : State) : string * State :=
  match current z with
  | TextToken | CommentToken | DoctypeToken =>
      (data z, mkState (input z) (current z) "")
  | _ => ("", z)
  end.

Definition Token (z : State) : Token * State :=
  match current z with
  | TextToken | CommentToken | DoctypeToken =>
      let '(d, z') := Text z in (mkToken (current z) 0 d [], z')
  | ErrorToken => (mkToken ErrorToken 0 "" [], z)
  | _ => (mkToken (current z) 0 (data z) [], z)
  end.

Definition String (t : Html.Token) : string :=
  match Typ t with
  | ErrorToken => ""
  | TextToken => Data t
  | StartTagToken => "<" +:+ Data t +:+ ">"
  | EndTagToken => "</" +:+ Data t +:+ ">"
  | SelfClosingTagToken => "<" +:+ Data t +:+ "/>"
  | CommentToken => "<!--" +:+ Data t +:+ "-->"
  | DoctypeToken => "<!DOCTYPE " +:+ Data t +:+ ">"
  end.

End HtmlRef.

#[export] Instance htmlRef : Html.Package := {|
  Html.Tokenizer := HtmlRef.State;
  Html.NewTokenizer := fun input => HtmlRef.mkState input ErrorToken "";
  Html.Tokenizer_Next := HtmlRef.Next;
  Html.Tokenizer_Err := fun _ => io_EOF;
  Html.Tokenizer_Text := HtmlRef.Text;
  Html.Tokenizer_Token := HtmlRef.Token;
  Html.Token_String := HtmlRef.String;
  Html.remaining := fun z => String.length (HtmlRef.input z)
|}.

(** A segmenter that ends a sentence at ["."], ["!"] or ["?"] and trims
    it, whatever the language. *)
Module SentencizerRef.

Definition terminator (c : ascii) : bool :=
  Ascii.eqb c "." || Ascii.eqb c "!" || Ascii.eqb c "?".

Definition emit (sentence : string) : list string :=
  let sentence := TrimSpace sentence in
  if String.eqb sentence "" then [] else [sentence].

Fixpoint segment (s : string) (current : string) : list string :=
  match s with
  | EmptyString => emit current
  | String c s' =>
      let current := current +:+ String c EmptyString in
      if terminator c then emit current ++ segment s' ""
      else segment s' current
  end.

End SentencizerRef.

#[export] Instance sentencizerRef : Sentencizer.Package := {|
  Sentencizer.Segment := fun _ input => SentencizerRef.segment input ""
|}.

(** Clients on a table in memory, in the manner of the mocks of
    [main_test.go].  The table maps a hash to a cache item; a call on a
    context that is done fails. *)
Module Mock.

Definition Table : Type := gmap string Cache.Item.

Definition canceled : error := errorString "context canceled".

Definition attributes (item : Cache.Item) : gmap string AttributeValue :=
  {[ "hash" := AttributeValueMemberS (Cache.Hash item);
     "translated_text" := AttributeValueMemberS (Cache.TranslatedText item);
     "source_text" := AttributeValueMemberS (Cache.SourceText item);
     "source_language" := AttributeValueMemberS (Cache.SourceLanguage item);
     "target_language" := AttributeValueMemberS (Cache.TargetLanguage item) ]}.

Definition stringOf (v : option AttributeValue) : option string :=
  match v with
  | Some (AttributeValueMemberS s) => Some s
  | _ => None
  end.

Definition itemOf (attrs : gmap string AttributeValue) : option Cache.Item :=
  match stringOf (attrs !! "hash"), stringOf (attrs !! "translated_text"),
        stringOf (attrs !! "source_text"), stringOf (attrs !! "source_language"),
        stringOf (attrs !! "target_language") with
  | Some h, Some t, Some s, Some sl, Some tl => Some (Cache.mkItem h t s sl tl)
  | _, _, _, _, _ => None
  end.

Definition getItem (done : bool) (params : GetItemInput) (table : Table)
    : (option GetItemOutput * option error) * Table :=
  if done then ((None, Some canceled), table)
  else
    match stringOf (GetItemInput_Key params !! "hash") with
    | Some h => ((Some (mkGetItemOutput (attributes <$> table !! h)), None), table)
    | None => ((None, Some (errorString "ValidationException")), table)
    end.

Definition putItem (done : bool) (params : PutItemInput) (table : Table)
    : (option PutItemOutput * option error) * Table :=
  if done then ((None, Some canceled), table)
  else
    match itemOf (PutItemInput_Item params) with
    | Some item => ((Some mkPutItemOutput, None), <[Cache.Hash item := item]> table)
    | None => ((None, Some (errorString "ValidationException")), table)
    end.

(** [translate text target] is the translation, or [None] when the
    provider fails on this text. *)
Definition translateText (translate : string -> string -> option string)
    (done : bool) (params : TranslateTextInput) (table : Table)
    : (option TranslateTextOutput * option error) * Table :=
  if done then ((None, Some canceled), table)
  else
    match TranslateTextInput_Text params, TargetLanguageCode params with
    | Some text, Some target =>
        match translate text target with
        | Some translated =>
            ((Some (mkTranslateTextOutput (Some translated)), None), table)
        | None => ((None, Some (errorString "mock error")), table)
        end
    | _, _ => ((None, Some (errorString "ValidationException")), table)
    end.

Definition listLanguages (languages : list string) (done : bool)
    (params : ListLanguagesInput) (table : Table)
    : (option ListLanguagesOutput * option error) * Table :=
  if done then ((None, Some canceled), table)
  else
    ((Some (mkListLanguagesOutput
              (Some (map (fun code => mkLanguage (Some code)) languages))),
      None), table).

Definition dynamoClient : DynamoDBClient Table := {|
  GetItem := getItem;
  PutItem := putItem
|}.

Definition translateClient (languages : list string)
    (translate : string -> string -> option string) : TranslateClient Table := {|
  TranslateText := translateText translate;
  ListLanguages := listLanguages languages
|}.

(** A codec with a given decoder; it encodes the translated text between
    quotes, as it is, and ends the line. *)
Definition quote : string := String (ascii_of_nat 34) EmptyString.
Definition newline : string := String (ascii_of_nat 10) EmptyString.

Definition encode (escapeHTML : bool) (response : TranslateResponse)
    : string * option error :=
  ("{" +:+ quote +:+ "translated_text" +:+ quote +:+ ":" +:+ quote +:+
   TranslatedText response +:+ quote +:+ "}" +:+ newline, None).

Definition json (decode : string -> option TranslateRequest) : Json.Package := {|
  Json.Unmarshal := fun body =>
    match decode body with
    | Some request => (request, None)
    | None => (mkTranslateRequest "" "" "", Some (errorString "invalid JSON"))
    end;
  Json.Encode := encode
|}.

(** The provider of the examples: Spanish is the one language, and three
    sentences have a translation. *)
Definition spanish (text target : string) : option string :=
  if String.eqb text "Hello world." then Some "Hola mundo."
  else if String.eqb text "How are you?" then Some "¿Cómo estás?"
  else if String.eqb text "Hello" then Some "Hola"
  else None.

(** The decoder of the examples reads [source|target|text]. *)
Definition decode (body : string) : option TranslateRequest :=
  match HtmlRef.cut "|" body with
  | Some (source, rest) =>
      match HtmlRef.cut "|" rest with
      | Some (target, text) => Some (mkTranslateRequest source target text)
      | None => None
      end
  | None => None
  end.

End Mock.

(** * Vocabulary of the properties *)

(** [substr] occurs in [s]. *)
Definition occurs (substr s : string) : Prop :=
  exists before after, s = before +:+ substr +:+ after.

(** The sum of the counts. *)
Definition sum (counts : list Z) : Z := foldr Z.add 0%Z counts.

(** The text tokens among [tokens]. *)
Definition textTokens (tokens : list Token) : list Token :=
  filter (fun token => isTextToken (Typ token)) tokens.

Section Vocabulary.
Context {sentencizer : Sentencizer.Package} {sha256 : Sha256.Package}.

(** The sentences of an emitted text token, and their number. *)
Definition sentencesOf (em : Emitted) : list string :=
  splitSentences (TrimSpace (emText em)).

Definition countOf (em : Emitted) : Z := Z.of_nat (length (sentencesOf em)).

(** The error a call returned; a call failed when it returned one. *)
Definition callError (c : Call) : option error :=
  match c with
  | ListLanguagesCall _ (_, err) => err
  | TranslateTextCall _ (_, err) => err
  | GetItemCall _ (_, err) => err
  | PutItemCall _ (_, err) => err
  end.

Definition failed (c : Call) : Prop := callError c <> None.

(** The contract of the clients where the code relies on it: a lookup
    without an error returns an output, whose item, when there is one, has
    the five string attributes of a cache item; a translation without an
    error returns an output with a translated text. *)
Definition isS (v : option AttributeValue) : Prop :=
  exists Value, v = Some (AttributeValueMemberS Value).

Definition lawfulGet (out : option GetItemOutput * option error) : Prop :=
  snd out = None ->
  exists response,
    fst out = Some response /\
    forall item,
      GetItemOutput_Item response = Some item ->
      isS (item !! "hash") /\ isS (item !! "translated_text") /\
      isS (item !! "source_text") /\ isS (item !! "source_language") /\
      isS (item !! "target_language").

Definition lawfulTranslate (out : option TranslateTextOutput * option error)
    : Prop :=
  snd out = None ->
  exists output text,
    fst out = Some output /\
    TranslateTextOutput_TranslatedText output = Some text.

Record ClientLaws {World : Type} {dynamoClient : DynamoDBClient World}
    {translateClient : TranslateClient World} : Prop := {
  GetItem_lawful : forall done params w,
    lawfulGet (fst (GetItem done params w));
  TranslateText_lawful : forall done params w,
    lawfulTranslate (fst (TranslateText done params w))
}.

(** What a task has done so far: the calls it made and the values it
    stored in its slot. *)
Inductive Event : Type :=
| Called (c : Call)
| Stored (value : string).

Fixpoint lastStored (h : list Event) : option string :=
  match h with
  | [] => None
  | Stored value :: h' =>
      match lastStored h' with
      | Some later => Some later
      | None => Some value
      end
  | Called _ :: h' => lastStored h'
  end.

(** [Runs index Q h f]: after the events [h], whatever the clients answer
    within their contract, the code [f] of the task at [index] does not
    panic, stores in the slot [index] only, and returns an error [err] after
    events [h'] such that [Q h' err]. *)
Inductive Runs (index : nat) (Q : list Event -> option error -> Prop)
    : list Event -> Prog (option error) -> Prop :=
| Runs_ret h err : Q h err -> Runs index Q h (Ret err)
| Runs_list h ctx params k :
    (forall out,
        Runs index Q (h ++ [Called (ListLanguagesCall params out)]) (k out)) ->
    Runs index Q h (CallListLanguages ctx params k)
| Runs_translate h ctx params k :
    (forall out, lawfulTranslate out ->
        Runs index Q (h ++ [Called (TranslateTextCall params out)]) (k out)) ->
    Runs index Q h (CallTranslateText ctx params k)
| Runs_get h ctx params k :
    (forall out, lawfulGet out ->
        Runs index Q (h ++ [Called (GetItemCall params out)]) (k out)) ->
    Runs index Q h (CallGetItem ctx params k)
| Runs_put h ctx params k :
    (forall out,
        Runs index Q (h ++ [Called (PutItemCall params out)]) (k out)) ->
    Runs index Q h (CallPutItem ctx params k)
| Runs_store h value k :
    Runs index Q (h ++ [Stored value]) k ->
    Runs index Q h (Store index value k).

(** [text] is a translation of [token] that the calls [cs] obtained: the
    translated text of a cache item found under the fingerprint of the
    triple, or the text the provider returned for the sentence. *)
Definition Translates (request : TranslateRequest) (token text : string)
    (cs : list Call) : Prop :=
  (exists params response item,
      GetItemCall params (Some response, None) ∈ cs /\
      GetItemInput_Key params !! "hash" =
        Some (AttributeValueMemberS
                (fingerprint (SourceLanguage request) (TargetLanguage request)
                   token)) /\
      GetItemOutput_Item response = Some item /\
      item !! "translated_text" = Some (AttributeValueMemberS text)) \/
  (exists output,
      TranslateTextCall
        (mkTranslateTextInput (Some (SourceLanguage request))
           (Some (TargetLanguage request)) (Some token))
        (Some output, None) ∈ cs /\
      TranslateTextOutput_TranslatedText output = Some text).

Definition calledIn (h : list Event) : list Call :=
  omap (fun ev => match ev with Called c => Some c | Stored _ => None end) h.

(** What a task has done when it returns: with an error, one of its calls
    failed; without one, none of them failed and the last value it stored is
    a translation of its sentence. *)
Definition TaskPost (request : TranslateRequest) (token : string)
    (h : list Event) (err : option error) : Prop :=
  match err with
  | Some _ => exists c, c ∈ calledIn h /\ failed c
  | None =>
      (forall c, c ∈ calledIn h -> ~ failed c) /\
      exists text, lastStored h = Some text /\
                   Translates request token text (calledIn h)
  end.

(** A task of the group with the events [h] behind it. *)
Definition TaskInv (request : TranslateRequest) (index : nat) (token : string)
    (h : list Event) (t : Task) : Prop :=
  match t with
  | Queued f | Running f => Runs index (TaskPost request token) h f
  | Finished err => TaskPost request token h err
  end.

(** The invariant of the group while the tasks of [sentences] run, the
    task at an index outside [care] being in the middle of a step: [hs]
    holds the events of every task, the calls logged since [before] are
    theirs, every slot holds what its task stored last, and the error of the
    group is that of a task that returned one. *)
Record Invariant {World : Type} (request : TranslateRequest)
    (sentences : list string) (before : list Call) (care : nat -> Prop)
    (hs : list (list Event)) (g : Group) (m : Machine World) : Prop := {
  inv_tasks : length (tasks g) = length sentences;
  inv_events : length hs = length sentences;
  inv_slots : length (slots m) = length sentences;
  inv_task : forall i t h token,
    care i -> tasks g !! i = Some t -> hs !! i = Some h ->
    sentences !! i = Some token -> TaskInv request i token h t;
  inv_calls : exists new,
    calls m = before ++ new /\
    forall c, c ∈ new <-> exists i h, hs !! i = Some h /\ c ∈ calledIn h;
  inv_slot : forall i h,
    hs !! i = Some h -> slots m !! i = Some (default "" (lastStored h));
  inv_err :
    match groupErr g with
    | None => forall i err, care i -> tasks g !! i = Some (Finished err) -> err = None
    | Some _ => exists i err, care i /\ tasks g !! i = Some (Finished (Some err))
    end
}.

End Vocabulary.


(** The handler on the mock clients, as the tests of the repository set it
    up: Spanish is the one supported language. *)
Definition mockHandle (sched : list Pick) (body : string)
    : Outcome (APIGatewayProxyResponse * option error) * Machine Mock.Table :=
  handle (html := htmlRef) (sentencizer := sentencizerRef) (sha256 := sha256Ref)
    (json := Mock.json Mock.decode) (dynamoClient := Mock.dynamoClient)
    (translateClient := Mock.translateClient ["es"] Mock.spanish)
    "TranslateCache" sched (mkEvent body) (mkMachine ∅ [] []).

(** The call that lists the languages of the mock provider, which the
    handler makes first. *)
Definition listedSpanish : Call :=
  ListLanguagesCall mkListLanguagesInput
    (Some (mkListLanguagesOutput (Some [mkLanguage (Some "es")])), None).

(** A tokenizer whose reader fails: its first token is an [ErrorToken], and
    the error behind it is not [io.EOF] (the package has
    [ErrBufferExceeded], and passes on the errors of the reader). *)
Definition htmlFailing : Html.Package := {|
  Html.Tokenizer := unit;
  Html.NewTokenizer := fun _ => tt;
  Html.Tokenizer_Next := fun z => (ErrorToken, z);
  Html.Tokenizer_Err := fun _ => errorString "max buffer exceeded";
  Html.Tokenizer_Text := fun z => ("", z);
  Html.Tokenizer_Token := fun z => (mkToken ErrorToken 0 "" [], z);
  Html.Token_String := HtmlRef.String;
  Html.remaining := fun _ => 0
|}.

(** A provider that is out of reach: its calls fail. *)
Definition unavailableTranslateClient : TranslateClient Mock.Table := {|
  TranslateText := fun _ _ table =>
    ((None, Some (errorString "service unavailable")), table);
  ListLanguages := fun _ _ table =>
    ((None, Some (errorString "service unavailable")), table)
|}.

(** A table with an item that was not written by this program: it has a
    hash and nothing else. *)
Definition foreignDynamoClient : DynamoDBClient Mock.Table := {|
  GetItem := fun _ _ table =>
    ((Some (mkGetItemOutput
              (Some {[ "hash" := AttributeValueMemberS "0000" ]})), None),
     table);
  PutItem := Mock.putItem
|}.

(** A checksum with no collision at all (the data themselves), to run the
    statements that assume one. *)
Definition plainSum : Sha256.Package := {|
  Sha256.Sum256 := fun data => data
|}.

(** ** The runs of a task

    The three calls a task can make for the sentence [token] of [request],
    with what the client answered, and the five ways a task can go: the
    error it returns and the machine it leaves, from the machine it
    started on. *)
Section TaskRuns.
Context {sha256 : Sha256.Package}.
Variable translateTableName : string.
Variable request : TranslateRequest.
Variable token : string.

Definition lookupInput : GetItemInput :=
  mkGetItemInput (Some translateTableName)
    {[ "hash" := AttributeValueMemberS
                   (fingerprint (SourceLanguage request)
                      (TargetLanguage request) token) ]}.

Definition lookupCall (out : option GetItemOutput * option error) : Call :=
  GetItemCall lookupInput out.

Definition translateCall (out : option TranslateTextOutput * option error)
    : Call :=
  TranslateTextCall
    (mkTranslateTextInput (Some (SourceLanguage request))
       (Some (TargetLanguage request)) (Some token))
    out.

Definition storeCall (text : string)
    (out : option PutItemOutput * option error) : Call :=
  PutItemCall
    (mkPutItemInput (Some translateTableName)
       {[ "hash" := AttributeValueMemberS
                      (fingerprint (SourceLanguage request)
                         (TargetLanguage request) token);
          "translated_text" := AttributeValueMemberS text;
          "source_text" := AttributeValueMemberS token;
          "source_language" := AttributeValueMemberS (SourceLanguage request);
          "target_language" := AttributeValueMemberS (TargetLanguage request) ]})
    out.

Inductive TaskRun {World : Type} (index : nat) (m : Machine World)
    : option error -> Machine World -> Prop :=
| lookup_failed out err m' :
    snd out = Some err ->
    calls m' = calls m ++ [lookupCall out] ->
    slots m' = slots m ->
    TaskRun index m
      (Some (wrapError ("error checking cache for token " +:+ pretty index) err))
      m'
| served_from_cache response item text m' :
    GetItemOutput_Item response = Some item ->
    item !! "translated_text" = Some (AttributeValueMemberS text) ->
    calls m' = calls m ++ [lookupCall (Some response, None)] ->
    slots m' = <[index := text]> (slots m) ->
    TaskRun index m None m'
| translation_failed response out err m' :
    GetItemOutput_Item response = None ->
    snd out = Some err ->
    calls m' = calls m ++ [lookupCall (Some response, None); translateCall out] ->
    slots m' = slots m ->
    TaskRun index m
      (Some (wrapError ("error translating token " +:+ pretty index) err)) m'
| store_failed response output text out err m' :
    GetItemOutput_Item response = None ->
    TranslateTextOutput_TranslatedText output = Some text ->
    snd out = Some err ->
    calls m' = calls m ++ [lookupCall (Some response, None);
                           translateCall (Some output, None);
                           storeCall text out] ->
    slots m' = slots m ->
    TaskRun index m
      (Some (wrapError ("error caching translation for token " +:+ pretty index)
               err))
      m'
| translated_and_stored response output text out m' :
    GetItemOutput_Item response = None ->
    TranslateTextOutput_TranslatedText output = Some text ->
    snd out = None ->
    calls m' = calls m ++ [lookupCall (Some response, None);
                           translateCall (Some output, None);
                           storeCall text out] ->
    slots m' = <[index := text]> (slots m) ->
    TaskRun index m None m'.

End TaskRuns.

(** * Properties *)

(** ** Byte strings *)

Lemma app_cons (c : ascii) (a b : string) :
  String c a +:+ b = String c (a +:+ b).
Proof. reflexivity. Qed.

Lemma app_nil_right (s : string) : s +:+ "" = s.
Proof. induction s as [|c s IH]; [reflexivity | rewrite app_cons; now f_equal]. Qed.

Lemma app_associative (a b c : string) : (a +:+ b) +:+ c = a +:+ (b +:+ c).
Proof.
  induction a as [|x a IH]; [reflexivity | rewrite !app_cons; now f_equal].
Qed.

Lemma length_app_bytes (a b : string) :
  String.length (a +:+ b) = String.length a + String.length b.
Proof.
  induction a as [|x a IH]; [reflexivity | rewrite app_cons; simpl; now f_equal].
Qed.

Lemma HasPrefix_spec (s prefix : string) :
  HasPrefix s prefix = true <-> exists after, s = prefix +:+ after.
Proof.
  revert s. induction prefix as [|c prefix IH]; intros s.
  - split; [intros _; now exists s | now destruct s].
  - destruct s as [|d s].
    + split; [discriminate | intros [after H]; discriminate].
    + cbn [HasPrefix]. destruct (Ascii.eqb_spec c d) as [->|Hne].
      * rewrite IH. split; intros [after H]; exists after.
        -- rewrite app_cons. now f_equal.
        -- rewrite app_cons in H. now injection H.
      * split; [discriminate|].
        intros [after H]. rewrite app_cons in H. injection H; congruence.
Qed.

Lemma Contains_spec (s substr : string) :
  Contains s substr = true <-> occurs substr s.
Proof.
  unfold occurs. induction s as [|d s IH].
  - cbn [Contains]. rewrite orb_false_r, HasPrefix_spec. split.
    + intros [after H]. now exists "", after.
    + intros (before & after & H). destruct before; [now exists after|discriminate].
  - cbn [Contains]. rewrite orb_true_iff, HasPrefix_spec, IH. split.
    + intros [[after H] | (before & after & H)].
      * now exists "", after.
      * exists (String d before), after. rewrite app_cons. now f_equal.
    + intros (before & after & H). destruct before as [|x before].
      * left. now exists after.
      * right. exists before, after. rewrite app_cons in H. now injection H.
Qed.

(** ** The content classifier *)

(** C10.  [isHTML] is an exact, case-sensitive substring test: it answers
    [true] exactly when the text contains one of ["<html"], ["<p"], ["<div"]
    or ["<span"]; markup whose tags are all in upper case, such as
    ["<DIV>Hello</DIV>"], is classified as plain text. *)
Theorem isHTML_exact_substring_test :
  (forall text,
      isHTML text = true <->
      occurs "<html" text \/ occurs "<p" text \/ occurs "<div" text \/
      occurs "<span" text) /\
  isHTML "<DIV>Hello</DIV>" = false.
Proof.
  split; [|reflexivity].
  intros text. unfold isHTML.
  rewrite !orb_true_iff, !Contains_spec. tauto.
Qed.

(** ** White space *)

Ltac split_tests :=
  repeat match goal with
         | |- context [if ?b then _ else _] => destruct b eqn:?
         end.

Ltac tests_to_props :=
  repeat match goal with
         | H : _ && _ = true |- _ => apply andb_true_iff in H; destruct H
         | H : _ || _ = true |- _ => apply orb_true_iff in H; destruct H
         | H : _ && _ = false |- _ => apply andb_false_iff in H; destruct H
         | H : _ || _ = false |- _ => apply orb_false_iff in H; destruct H
         | H : (_ =? _) = true |- _ => apply Nat.eqb_eq in H
         | H : (_ =? _) = false |- _ => apply Nat.eqb_neq in H
         | H : (_ <=? _) = true |- _ => apply Nat.leb_le in H
         | H : (_ <=? _) = false |- _ => apply Nat.leb_gt in H
         end.

Lemma app_nil_left (s : string) : "" +:+ s = s.
Proof. reflexivity. Qed.

Lemma spaceWidth_le (s : string) : spaceWidth s <= String.length s.
Proof.
  destruct s as [|c [|d [|e s]]]; cbv [spaceWidth]; cbn [String.length];
    split_tests; lia.
Qed.

Lemma spaceWidth_app (s t : string) :
  spaceWidth s <> 0 -> spaceWidth (s +:+ t) = spaceWidth s.
Proof.
  destruct s as [|c [|d [|e s]]]; rewrite ?app_cons, ?app_nil_left;
    cbv [spaceWidth]; split_tests; congruence.
Qed.

Lemma spaceWidth_app_space (s : string) :
  s <> "" -> spaceWidth s = 0 -> spaceWidth (s +:+ " ") = 0.
Proof.
  intros Hs. destruct s as [|c [|d [|e s]]]; [congruence| | |];
    rewrite ?app_cons, ?app_nil_left; cbv [spaceWidth];
    change (nat_of_ascii " ") with 32;
    split_tests; try congruence; tests_to_props; lia.
Qed.

Lemma dropBytes_app (w : nat) (s t : string) :
  w <= String.length s -> dropBytes w (s +:+ t) = dropBytes w s +:+ t.
Proof.
  revert s. induction w as [|w IH]; intros s Hw; [reflexivity|].
  destruct s as [|c s]; simpl in Hw; [lia|].
  rewrite app_cons. cbn [dropBytes]. apply IH. lia.
Qed.

Lemma length_dropBytes (w : nat) (s : string) :
  String.length (dropBytes w s) = String.length s - w.
Proof.
  revert s. induction w as [|w IH]; intros s; [simpl; lia|].
  destruct s as [|c s]; [reflexivity|]. cbn [dropBytes String.length]. apply IH.
Qed.

Lemma trimLeft_empty (fuel : nat) : trimLeft fuel "" = "".
Proof. now destruct fuel. Qed.

Lemma trimLeft_step (fuel : nat) (s : string) :
  trimLeft (S fuel) s =
  if spaceWidth s =? 0 then s else trimLeft fuel (dropBytes (spaceWidth s) s).
Proof. cbn [trimLeft]. now destruct (spaceWidth s). Qed.

Lemma trimLeft_app_space (fuel : nat) (s : string) :
  String.length s <= fuel ->
  trimLeft (S fuel) (s +:+ " ") =
  match trimLeft fuel s with
  | "" => ""
  | r => r +:+ " "
  end.
Proof.
  revert s. induction fuel as [|fuel IH]; intros s Hlen.
  - destruct s; [reflexivity | simpl in Hlen; lia].
  - destruct (string_dec s "") as [->|Hs].
    { rewrite app_nil_left.
      change (trimLeft (S (S fuel)) " ") with (trimLeft (S fuel) "").
      now rewrite !trimLeft_empty. }
    rewrite (trimLeft_step (S fuel) (s +:+ " ")), (trimLeft_step fuel s).
    destruct (spaceWidth s) as [|w] eqn:Hw.
    + rewrite (spaceWidth_app_space s Hs Hw). cbn [Nat.eqb]. now destruct s.
    + assert (Hle := spaceWidth_le s).
      rewrite spaceWidth_app by lia. rewrite Hw. cbn [Nat.eqb].
      rewrite dropBytes_app by lia. apply IH.
      rewrite length_dropBytes. lia.
Qed.

Lemma reverseBytes_app (a b : string) :
  reverseBytes (a +:+ b) = reverseBytes b +:+ reverseBytes a.
Proof.
  induction a as [|c a IH].
  - cbn. now rewrite app_nil_right.
  - rewrite app_cons. cbn [reverseBytes]. now rewrite IH, app_associative.
Qed.

Lemma TrimRightSpace_app_space (s : string) :
  TrimRightSpace (s +:+ " ") = TrimRightSpace s.
Proof.
  unfold TrimRightSpace.
  rewrite reverseBytes_app, length_app_bytes, Nat.add_1_r. reflexivity.
Qed.

Lemma TrimSpace_app_space (s : string) : TrimSpace (s +:+ " ") = TrimSpace s.
Proof.
  unfold TrimSpace, TrimLeftSpace.
  rewrite length_app_bytes, Nat.add_1_r, trimLeft_app_space by lia.
  destruct (trimLeft (String.length s) s) as [|c r]; [reflexivity|].
  apply TrimRightSpace_app_space.
Qed.

(** ** Plain-text reassembly *)

Lemma reconstructPlainText_loop_join (sentences : list string) (sb : Builder) :
  sentences <> [] ->
  reconstructPlainText_loop sentences sb =
  sb +:+ String.concat " " sentences +:+ " ".
Proof.
  revert sb. induction sentences as [|s rest IH]; intros sb Hne; [congruence|].
  cbn [reconstructPlainText_loop]. unfold WriteString.
  destruct rest as [|s' rest].
  - cbn. now rewrite app_associative.
  - rewrite IH by discriminate.
    change (String.concat " " (s :: s' :: rest))
      with (s +:+ " " +:+ String.concat " " (s' :: rest)).
    now rewrite !app_associative.
Qed.

(** C7, as the code has it.  [reconstructPlainText] is the sentences joined
    by single spaces and then trimmed by [strings.TrimSpace]: the separator
    after the last sentence goes, and with it all the white space at the
    start of the first sentence and at the end of the last one. *)
Theorem reconstructPlainText_join_trimmed (translatedSentences : list string) :
  reconstructPlainText translatedSentences =
  TrimSpace (String.concat " " translatedSentences).
Proof.
  unfold reconstructPlainText.
  destruct translatedSentences as [|s rest]; [reflexivity|].
  rewrite reconstructPlainText_loop_join by discriminate.
  change ("" +:+ String.concat " " (s :: rest) +:+ " ")
    with (String.concat " " (s :: rest) +:+ " ").
  apply TrimSpace_app_space.
Qed.

(** C7 as it is written fails: the white space a sentence starts with is
    not preserved. *)
Lemma reconstructPlainText_trims_leading_space :
  reconstructPlainText [" Hola"] = "Hola" /\
  reconstructPlainText [" Hola"] <> String.concat " " [" Hola"].
Proof. split; [reflexivity | discriminate]. Qed.

(** ** Segmentation and the languages of the request *)

(** C9.  The sentences the handler takes from a request do not depend on
    its source and target languages: two requests with the same text give
    the same classification, tokens, sentences and counts, and
    [splitSentences] always segments with the segmenter for ["en"]. *)
Theorem sentences_independent_of_languages
    {html : Html.Package} {sentencizer : Sentencizer.Package}
    (source target source' target' text : string) :
  extractSentences (mkTranslateRequest source target text) =
  extractSentences (mkTranslateRequest source' target' text) /\
  splitSentences text = Sentencizer.Segment "en" text.
Proof. split; reflexivity. Qed.

(** ** The cache fingerprint *)

Lemma length_EncodeToString (src : string) :
  String.length (Hex.EncodeToString src) = 2 * String.length src.
Proof. induction src as [|c src IH]; cbn [Hex.EncodeToString String.length]; lia. Qed.

(** The digest is the same for the same triple, and 64 hexadecimal digits
    long. *)
Lemma fingerprint_fixed_length {sha256 : Sha256.Package}
    (sourceLanguage targetLanguage text : string) :
  Sha256.Laws ->
  String.length (fingerprint sourceLanguage targetLanguage text) = 64.
Proof.
  intros Hsize. unfold fingerprint, getHashFromText.
  rewrite length_EncodeToString, Hsize. reflexivity.
Qed.

Lemma fromHexChar_digit (c : ascii) :
  Hex.fromHexChar (Hex.digit (nat_of_ascii c / 16)) = Some (nat_of_ascii c / 16) /\
  Hex.fromHexChar (Hex.digit (nat_of_ascii c mod 16)) =
    Some (nat_of_ascii c mod 16).
Proof.
  destruct c as [[] [] [] [] [] [] [] []]; vm_compute; split; reflexivity.
Qed.

Lemma EncodeToString_injective (a b : string) :
  Hex.EncodeToString a = Hex.EncodeToString b -> a = b.
Proof.
  revert b. induction a as [|x a IH]; intros [|y b] H;
    cbn [Hex.EncodeToString] in H; try discriminate; [reflexivity|].
  injection H as Hhigh Hlow Hrest. f_equal; [|now apply IH].
  change (Hex.digit (nat_of_ascii x / 16) = Hex.digit (nat_of_ascii y / 16))
    in Hhigh.
  change (Hex.digit (nat_of_ascii x mod 16) = Hex.digit (nat_of_ascii y mod 16))
    in Hlow.
  destruct (fromHexChar_digit x) as [Hx1 Hx2].
  destruct (fromHexChar_digit y) as [Hy1 Hy2].
  rewrite Hhigh in Hx1. rewrite Hlow in Hx2.
  assert (Heq : nat_of_ascii x = nat_of_ascii y).
  { rewrite (Nat.div_mod_eq (nat_of_ascii x) 16),
      (Nat.div_mod_eq (nat_of_ascii y) 16). congruence. }
  rewrite <- (ascii_nat_embedding x), <- (ascii_nat_embedding y). now f_equal.
Qed.



(** C4 at a failing input.  The key is the three fields joined by ["-"], so
    that two triples whose fields split one key differently have one
    fingerprint, whatever the hash function is. *)
Theorem fingerprint_collides_across_fields {sha256 : Sha256.Package} :
  ("en", "zh", "TW-Hello") <> ("en", "zh-TW", "Hello") /\
  fingerprint "en" "zh" "TW-Hello" = fingerprint "en" "zh-TW" "Hello".
Proof. split; [discriminate | reflexivity]. Qed.

(** ** Markup reconstruction *)

Lemma textTokens_cons (token : Token) (tokens : list Token) :
  textTokens (token :: tokens) =
  if isTextToken (Typ token) then token :: textTokens tokens
  else textTokens tokens.
Proof.
  unfold textTokens. rewrite filter_cons.
  destruct (isTextToken (Typ token)); reflexivity.
Qed.

Section Reconstruct.
Context {html : Html.Package}.

(** [reconstructHTML] returns exactly when there are at least as many
    counts as text tokens. *)
Lemma reconstructHTML_loop_returns (tokens : list Token)
    (translatedSentences : list string) (sentenceCounts : list Z) :
  forall sb textIndex sentenceIndex,
    sentenceIndex <= length sentenceCounts ->
    (exists s,
        reconstructHTML_loop tokens translatedSentences sentenceCounts
          sb textIndex sentenceIndex = Returns s) <->
    sentenceIndex + length (textTokens tokens) <= length sentenceCounts.
Proof.
  induction tokens as [|token tokens IH]; intros sb textIndex sentenceIndex Hle.
  - cbn. split; [intros _; lia | intros _; eauto].
  - rewrite textTokens_cons. cbn [reconstructHTML_loop].
    destruct (Typ token) eqn:Htyp; cbn [isTextToken];
      try (rewrite IH by assumption; reflexivity).
    destruct (sentenceCounts !! sentenceIndex) as [count|] eqn:Hcount.
    + apply lookup_lt_Some in Hcount.
      destruct (writeSentences _ _ _ _) as [sb' textIndex'].
      rewrite IH by lia. cbn [length]. lia.
    + apply lookup_ge_None in Hcount. cbn [length].
      split; [intros [s Hs]; discriminate | lia].
Qed.

Lemma reconstructHTML_returns_iff (tokens : list Token)
    (translatedSentences : list string) (sentenceCounts : list Z) :
  (exists s,
      reconstructHTML tokens translatedSentences sentenceCounts = Returns s) <->
  length (textTokens tokens) <= length sentenceCounts.
Proof.
  unfold reconstructHTML. rewrite reconstructHTML_loop_returns by lia. lia.
Qed.

(** The guard on the translated sentences: a text token gets the sentences
    that are left, and none when none is left. *)
Lemma writeSentences_exhausted (count : nat) (translatedSentences : list string)
    (sb : Builder) (textIndex : nat) :
  length translatedSentences <= textIndex ->
  writeSentences count translatedSentences sb textIndex = (sb, textIndex).
Proof.
  intros Hle. induction count as [|count IH]; [reflexivity|].
  cbn [writeSentences]. now rewrite (lookup_ge_None_2 _ _ Hle).
Qed.

(** C1 at a failing input.  The tokens of
    ["<p>Hello world.</p> <p>How are you?</p>"] hold three text tokens, the
    one between the paragraphs being white space, for which
    [getTextFromHTML] records no count; on its two counts [reconstructHTML]
    panics with an index out of range. *)
Theorem reconstructHTML_panics_when_counts_run_out :
  reconstructHTML
    [mkToken StartTagToken 0 "p" []; mkToken TextToken 0 "Hello world." [];
     mkToken EndTagToken 0 "p" []; mkToken TextToken 0 " " [];
     mkToken StartTagToken 0 "p" []; mkToken TextToken 0 "How are you?" [];
     mkToken EndTagToken 0 "p" []]
    ["Hola mundo."; "¿Cómo estás?"] [1%Z; 1%Z] =
  Panics (IndexOutOfRange 2 2).
Proof. reflexivity. Qed.

End Reconstruct.

(** ** Tokenization *)

Lemma sum_app (a b : list Z) : sum (a ++ b) = (sum a + sum b)%Z.
Proof.
  unfold sum. induction a as [|x a IH]; cbn [foldr app]; [reflexivity | lia].
Qed.

Lemma filter_bool_cons {A : Type} (f : A -> bool) (x : A) (l : list A) :
  filter f (x :: l) = if f x then x :: filter f l else filter f l.
Proof.
  rewrite filter_cons. destruct (decide (f x)) as [H|H]; destruct (f x);
    try reflexivity; [destruct H | destruct H; exact I].
Qed.

Section Tokenize.
Context {html : Html.Package} {sentencizer : Sentencizer.Package}.

(** The sentences of an emitted text token. *)
Let sentencesOf (em : Emitted) : list string :=
  splitSentences (TrimSpace (emText em)).

Let countOf (em : Emitted) : Z := Z.of_nat (length (sentencesOf em)).

Lemma sum_counts (ems : list Emitted) :
  sum (map countOf ems) = Z.of_nat (length (concat (map sentencesOf ems))).
Proof.
  induction ems as [|em ems IH]; [reflexivity|].
  cbn [map concat]. rewrite length_app. unfold sum in *. cbn [foldr].
  rewrite IH. unfold countOf. lia.
Qed.

(** What the loop returns without an error is read off the tokens the
    tokenizer emitted up to the end of the input. *)
Lemma getTextFromHTML_loop_sound (fuel : nat) :
  forall z tokens texts counts tokens' texts' counts',
    getTextFromHTML_loop fuel z tokens texts counts =
      Some (tokens', texts', counts', None) ->
    exists ems,
      Emits z ems io_EOF /\
      tokens' = tokens ++ map emToken ems /\
      texts' = texts ++ concat (map sentencesOf (filter yieldsText ems)) /\
      counts' = counts ++ map countOf (filter yieldsText ems).
Proof.
  induction fuel as [|fuel IH]; intros z tokens texts counts tokens' texts' counts' H;
    [discriminate|].
  cbn [getTextFromHTML_loop] in H.
  destruct (Tokenizer_Next z) as [tt_ z1] eqn:Hnext.
  destruct tt_.
  - destruct (Tokenizer_Err z1) eqn:Herr; try discriminate.
    injection H as <- <- <-. exists []. rewrite <- Herr.
    repeat split; try (cbn; now rewrite app_nil_r).
    now apply Emits_end.
  - destruct (Tokenizer_Text z1) as [raw z2] eqn:Htext.
    assert (Hy : forall token,
               yieldsText (mkEmitted TextToken raw token) =
               negb (String.eqb (TrimSpace raw) "")) by reflexivity.
    destruct (String.eqb (TrimSpace raw) "") eqn:Hempty;
      destruct (Tokenizer_Token z2) as [token z3] eqn:Htoken;
      apply IH in H as (ems & Hems & -> & -> & ->);
      exists (mkEmitted TextToken raw token :: ems);
      (split; [eapply Emits_text; eassumption|]);
      rewrite filter_bool_cons, Hy; cbn [negb map concat];
      rewrite <- ?app_assoc; repeat split; reflexivity.
  - destruct (Tokenizer_Token z1) as [token z2] eqn:Htoken.
    apply IH in H as (ems & Hems & -> & -> & ->).
    exists (mkEmitted StartTagToken "" token :: ems).
    split; [eapply Emits_other; try eassumption; discriminate|].
    rewrite filter_bool_cons. cbn. rewrite <- app_assoc. repeat split; reflexivity.
  - destruct (Tokenizer_Token z1) as [token z2] eqn:Htoken.
    apply IH in H as (ems & Hems & -> & -> & ->).
    exists (mkEmitted EndTagToken "" token :: ems).
    split; [eapply Emits_other; try eassumption; discriminate|].
    rewrite filter_bool_cons. cbn. rewrite <- app_assoc. repeat split; reflexivity.
  - destruct (Tokenizer_Token z1) as [token z2] eqn:Htoken.
    apply IH in H as (ems & Hems & -> & -> & ->).
    exists (mkEmitted SelfClosingTagToken "" token :: ems).
    split; [eapply Emits_other; try eassumption; discriminate|].
    rewrite filter_bool_cons. cbn. rewrite <- app_assoc. repeat split; reflexivity.
  - destruct (Tokenizer_Token z1) as [token z2] eqn:Htoken.
    apply IH in H as (ems & Hems & -> & -> & ->).
    exists (mkEmitted CommentToken "" token :: ems).
    split; [eapply Emits_other; try eassumption; discriminate|].
    rewrite filter_bool_cons. cbn. rewrite <- app_assoc. repeat split; reflexivity.
  - destruct (Tokenizer_Token z1) as [token z2] eqn:Htoken.
    apply IH in H as (ems & Hems & -> & -> & ->).
    exists (mkEmitted DoctypeToken "" token :: ems).
    split; [eapply Emits_other; try eassumption; discriminate|].
    rewrite filter_bool_cons. cbn. rewrite <- app_assoc. repeat split; reflexivity.
Qed.

End Tokenize.

Section TokenizeAll.
Context {html : Html.Package} {sentencizer : Sentencizer.Package}.

Lemma Emits_bounded (z : Tokenizer) (ems : list Emitted) (err : error) :
  TokenizerLaws -> Emits z ems err -> length ems <= remaining z.
Proof.
  intros [Hnext Htext Htoken]. induction 1 as
    [z z1 Hn | z z1 raw z2 token z3 ems err Hn Ht Hk _ IH
     | z tt_ z1 token z2 ems err Hn He Hx Hk _ IH]; cbn [length].
  - lia.
  - apply Hnext in Hn; [|discriminate]. apply Htext in Ht. apply Htoken in Hk. lia.
  - apply Hnext in Hn; [|assumption]. apply Htoken in Hk. lia.
Qed.

(** A tokenizer that consumes its input comes to an [ErrorToken]. *)
Lemma Emits_total :
  TokenizerLaws -> forall z, exists ems err, Emits z ems err.
Proof.
  intros Hlaws z. remember (remaining z) as n eqn:Hn.
  revert z Hn. induction n as [n IH] using lt_wf_ind. intros z ->.
  destruct Hlaws as [Hnext Htext Htoken].
  destruct (Tokenizer_Next z) as [tt_ z1] eqn:Hn.
  destruct (decide (tt_ = ErrorToken)) as [->|Herr].
  { exists [], (Tokenizer_Err z1). now apply Emits_end. }
  assert (Hlt := Hnext _ _ _ Hn Herr).
  destruct (decide (tt_ = TextToken)) as [->|Htxt].
  - destruct (Tokenizer_Text z1) as [raw z2] eqn:Ht.
    destruct (Tokenizer_Token z2) as [token z3] eqn:Hk.
    assert (Hle1 := Htext _ _ _ Ht). assert (Hle2 := Htoken _ _ _ Hk).
    destruct (IH (remaining z3) ltac:(lia) z3 eq_refl) as (ems & err & Hems).
    exists (mkEmitted TextToken raw token :: ems), err.
    eapply Emits_text; eassumption.
  - destruct (Tokenizer_Token z1) as [token z2] eqn:Hk.
    assert (Hle2 := Htoken _ _ _ Hk).
    destruct (IH (remaining z2) ltac:(lia) z2 eq_refl) as (ems & err & Hems).
    exists (mkEmitted tt_ "" token :: ems), err.
    eapply Emits_other; eassumption.
Qed.

(** With fuel for every emitted token and for the final [ErrorToken], the
    loop returns what the tokens give. *)
Lemma getTextFromHTML_loop_complete (z : Tokenizer) (ems : list Emitted)
    (err : error) :
  Emits z ems err ->
  forall fuel tokens texts counts,
    length ems < fuel ->
    getTextFromHTML_loop fuel z tokens texts counts =
    Some match err with
         | io_EOF =>
             (tokens ++ map emToken ems,
              texts ++ concat (map (fun em => splitSentences (TrimSpace (emText em)))
                                 (filter yieldsText ems)),
              counts ++ map (fun em => Z.of_nat (length (splitSentences
                                                           (TrimSpace (emText em)))))
                          (filter yieldsText ems),
              None)
         | _ => ([], [], [], Some err)
         end.
Proof.
  induction 1 as
    [z z1 Hn | z z1 raw z2 token z3 ems err Hn Ht Hk _ IH
     | z tt_ z1 token z2 ems err Hn He Hx Hk _ IH];
    intros fuel tokens texts counts Hfuel;
    (destruct fuel as [|fuel]; [cbn [length] in Hfuel; lia|]);
    cbn [getTextFromHTML_loop]; rewrite Hn.
  - destruct (Tokenizer_Err z1); cbn; rewrite ?app_nil_r; reflexivity.
  - rewrite Ht. cbv beta iota zeta. rewrite filter_bool_cons.
    assert (Hy : yieldsText (mkEmitted TextToken raw token) =
                 negb (String.eqb (TrimSpace raw) "")) by reflexivity.
    rewrite Hy.
    destruct (String.eqb (TrimSpace raw) ""); cbn [negb]; rewrite Hk;
      (rewrite IH by (cbn [length] in Hfuel; lia));
      destruct err; cbn [map concat emToken emText];
      rewrite <- ?app_assoc; reflexivity.
  - rewrite filter_bool_cons.
    assert (Hy : yieldsText (mkEmitted tt_ "" token) = false)
      by (unfold yieldsText; cbn; now destruct tt_).
    rewrite Hy.
    destruct tt_; try congruence; rewrite Hk;
      (rewrite IH by (cbn [length] in Hfuel; lia));
      destruct err; cbn [map emToken]; rewrite <- ?app_assoc; reflexivity.
Qed.

(** X1.  [getTextFromHTML] returns on every input: with a tokenizer that
    consumes its input, the loop comes to the [ErrorToken] that ends it. *)
Lemma getTextFromHTML_returns (input : string) :
  TokenizerLaws -> exists result, getTextFromHTML input = Returns result.
Proof.
  intros Hlaws. unfold getTextFromHTML.
  destruct (Emits_total Hlaws (NewTokenizer (replaceNonUTF8Characters input)))
    as (ems & err & Hems).
  rewrite (getTextFromHTML_loop_complete _ _ _ Hems)
    by (apply Emits_bounded in Hems; [lia | assumption]).
  eauto.
Qed.

(** C2.  When [getTextFromHTML] returns without an error, the counts sum
    to the number of sentences, and there is one count for each text token
    the tokenizer emitted whose trimmed text is not empty (the tokens
    returned are the emitted ones, in order). *)
Theorem getTextFromHTML_counts (input : string) (tokens : list Token)
    (texts : list string) (counts : list Z) :
  getTextFromHTML input = Returns (tokens, texts, counts, None) ->
  sum counts = Z.of_nat (length texts) /\
  exists ems,
    Emits (NewTokenizer (replaceNonUTF8Characters input)) ems io_EOF /\
    tokens = map emToken ems /\
    length counts = length (filter yieldsText ems).
Proof.
  unfold getTextFromHTML. intros H.
  destruct (getTextFromHTML_loop _ _ _ _ _) as [result|] eqn:Hloop;
    [|discriminate].
  injection H as ->.
  apply getTextFromHTML_loop_sound in Hloop as (ems & Hems & -> & -> & ->).
  cbn [app]. split.
  - apply (sum_counts (filter yieldsText ems)).
  - exists ems. rewrite length_map. auto.
Qed.

End TokenizeAll.

(** ** The reference tokenizer consumes its input *)

Lemma cut_length (c : ascii) (s before after : string) :
  HtmlRef.cut c s = Some (before, after) ->
  String.length after < String.length s.
Proof.
  revert before. induction s as [|d s IH]; intros before H; [discriminate|].
  cbn [HtmlRef.cut] in H. destruct (Ascii.eqb c d).
  - injection H as <- <-. cbn. lia.
  - destruct (HtmlRef.cut c s) as [[b a]|]; [|discriminate].
    injection H as <- <-. specialize (IH b eq_refl). cbn. lia.
Qed.

Lemma text_length (s t rest : string) :
  HtmlRef.text s = (t, rest) -> String.length rest <= String.length s.
Proof.
  revert t. induction s as [|d s IH]; intros t H; cbn [HtmlRef.text] in H.
  - injection H as <- <-. cbn. lia.
  - destruct (Ascii.eqb d "<").
    + injection H as <- <-. lia.
    + destruct (HtmlRef.text s) as [t' rest']. injection H as <- <-.
      specialize (IH t' eq_refl). cbn. lia.
Qed.

Lemma htmlRef_laws : TokenizerLaws (html := htmlRef).
Proof.
  split.
  - intros [input current data] tt_ z1. cbn. unfold HtmlRef.Next. cbn.
    destruct input as [|c s]; [intros [= <- <-]; congruence|].
    destruct (Ascii.eqb c "<").
    + destruct (HtmlRef.cut ">" s) as [[name rest]|] eqn:Hcut.
      * apply cut_length in Hcut.
        destruct name as [|x name]; [intros [= <- <-] _; cbn; lia|].
        destruct (Ascii.eqb_spec x "/") as [->|Hx].
        -- intros [= <- <-] _. cbn. lia.
        -- destruct x as [[] [] [] [] [] [] [] []];
             try (intros [= <- <-] _; cbn; lia).
      * intros [= <- <-] _. cbn. lia.
    + destruct (HtmlRef.text s) as [t rest] eqn:Htext.
      apply text_length in Htext. intros [= <- <-] _. cbn. lia.
  - intros [input current data] raw z1. cbn. unfold HtmlRef.Text. cbn.
    destruct current; intros [= <- <-]; cbn; lia.
  - intros [input current data] token z1. cbn. unfold HtmlRef.Token, HtmlRef.Text.
    cbn. destruct current; intros [= <- <-]; cbn; lia.
Qed.

(** ** The scenario of one paragraph *)

Section Scenario.
Context {html : Html.Package} {sentencizer : Sentencizer.Package}.


End Scenario.


(** The counts of the reference tokenizer on the same text. *)
Lemma getTextFromHTML_counts_reference :
  sum [2%Z] = Z.of_nat (length ["Hello world."; "How are you?"]) /\
  exists ems,
    Emits (html := htmlRef)
      (NewTokenizer (replaceNonUTF8Characters "<p>Hello world. How are you?</p>"))
      ems io_EOF /\
    [mkToken StartTagToken 0 "p" []; mkToken TextToken 0 "" [];
     mkToken EndTagToken 0 "p" []] = map emToken ems /\
    length [2%Z] = length (filter yieldsText ems).
Proof.
  apply (getTextFromHTML_counts (html := htmlRef) (sentencizer := sentencizerRef)
           "<p>Hello world. How are you?</p>").
  reflexivity.
Defined.

(** ** Running code that calls the clients *)

Section RunProg.
Context {World : Type}.
Context {dynamoClient : DynamoDBClient World}.
Context {translateClient : TranslateClient World}.

Lemma runProg_bind {A B : Type} (done : Context -> bool) (p : Prog A)
    (f : A -> Prog B) :
  forall m,
    runProg done (bind p f) m =
    match runProg done p m with
    | (Returns a, m') => runProg done (f a) m'
    | (Panics pn, m') => (Panics pn, m')
    | (NoReturn, m') => (NoReturn, m')
    end.
Proof.
  induction p as [a | pn | ctx params k IH | ctx params k IH | ctx params k IH
                  | ctx params k IH | index value k IH];
    intros m; cbn [bind runProg]; try reflexivity.
  - destruct (ListLanguages _ _ _) as [out w]. apply IH.
  - destruct (TranslateText _ _ _) as [out w]. apply IH.
  - destruct (GetItem _ _ _) as [out w]. apply IH.
  - destruct (PutItem _ _ _) as [out w]. apply IH.
  - destruct (store index value m) as [m'|]; [apply IH | reflexivity].
Qed.

Lemma runProg_languageCodes (done : Context -> bool) (langs : list Language)
    (codes : list string) (m : Machine World) :
  map LanguageCode langs = map Some codes ->
  runProg done (languageCodes langs) m = (Returns codes, m).
Proof.
  revert codes. induction langs as [|lang langs IH]; intros [|code codes] H;
    try discriminate; [reflexivity|].
  injection H as Hcode Hrest. cbn [languageCodes].
  rewrite Hcode. cbn [deref bind].
  rewrite runProg_bind, (IH codes Hrest). reflexivity.
Qed.

End RunProg.

Lemma slices_Contains_false (s : list string) (v : string) :
  ~ In v s -> slices_Contains s v = false.
Proof.
  intros Hnot. unfold slices_Contains. apply not_true_is_false. intros H.
  apply existsb_exists in H as (x & Hin & Heq).
  apply String.eqb_eq in Heq. now subst.
Qed.

(** ** The handler's early returns *)

Section EarlyReturns.
Context {html : Html.Package} {sentencizer : Sentencizer.Package}.
Context {sha256 : Sha256.Package} {json : Json.Package}.
Context {World : Type}.
Context {dynamoClient : DynamoDBClient World}.
Context {translateClient : TranslateClient World}.
Variable translateTableName : string.

(** C6.  For a request that passes validation and names a target language
    that is not among the languages the provider lists, the handler returns
    the response 422 "Target language not supported", which no other path
    returns.  The one call made is the list-languages call: the state of
    the services is the one that call left, no cache lookup, cache store or
    translate call is logged, and since nothing is assumed of the tokenizer
    (not even that it returns), nothing is tokenized. *)
Theorem unsupported_target_language_fails_fast (sched : list Pick)
    (event : APIGatewayProxyRequest) (request : TranslateRequest)
    (m : Machine World) (out : ListLanguagesOutput) (langs : list Language)
    (codes : list string) (w : World) :
  unmarshalRequest (EventBody event) = (request, None) ->
  validateRequest request = None ->
  ListLanguages false mkListLanguagesInput (world m) = ((Some out, None), w) ->
  Languages out = Some langs ->
  map LanguageCode langs = map Some codes ->
  ~ In (TargetLanguage request) codes ->
  handle translateTableName sched event m =
  (Returns (mkResponse StatusUnprocessableEntity "Target language not supported",
            None),
   mkMachine w
     (calls m ++ [ListLanguagesCall mkListLanguagesInput (Some out, None)])
     (slots m)).
Proof.
  intros Hbody Hvalid Hlist Hlangs Hcodes Hnot.
  unfold handle. rewrite Hbody, Hvalid.
  unfold andThen, exec, doesTargetLanguageExist, getSupportedLanguages.
  cbn [bind runProg]. rewrite Hlist. cbn [deref bind]. rewrite Hlangs.
  rewrite !runProg_bind, (runProg_languageCodes _ _ codes) by assumption.
  cbn [runProg bind default]. rewrite slices_Contains_false by assumption.
  reflexivity.
Qed.

(** C8, as the code has it.  A request whose text is empty does not pass
    validation: the handler returns the response 400 with a validation
    message, which is "text is required" when both languages are given, and
    leaves the machine as it was: no client is called, and nothing is
    classified, segmented or translated. *)
Theorem empty_text_is_rejected (sched : list Pick)
    (event : APIGatewayProxyRequest) (request : TranslateRequest)
    (m : Machine World) :
  unmarshalRequest (EventBody event) = (request, None) ->
  Text request = "" ->
  exists msg,
    handle translateTableName sched event m =
      (Returns (mkResponse StatusBadRequest msg, None), m) /\
    (SourceLanguage request <> "" -> TargetLanguage request <> "" ->
     msg = "text is required").
Proof.
  intros Hbody Htext. unfold handle. rewrite Hbody.
  unfold validateRequest. rewrite Htext.
  destruct (String.eqb_spec (SourceLanguage request) "") as [Hs|Hs];
    [eexists; split; [reflexivity | congruence]|].
  destruct (String.eqb_spec (TargetLanguage request) "") as [Ht|Ht];
    [eexists; split; [reflexivity | congruence]|].
  eexists; split; reflexivity.
Qed.

End EarlyReturns.

(** ** The tasks of the group *)

Ltac in_calls H :=
  cbn in H; rewrite ?elem_of_cons, ?elem_of_nil in H;
  repeat match type of H with
         | _ \/ _ => destruct H as [H|H]
         | False => destruct H
         end;
  subst.

Section Task.
Context {sha256 : Sha256.Package}.
Variable translateTableName : string.

(** The closure of the handler, whatever the clients answer within their
    contract: it does not panic, it stores in its own slot, and it returns
    an error exactly when one of its calls failed; without one, what it
    stored is a translation of its sentence. *)
Lemma translateTask_runs (request : TranslateRequest) (index : nat)
    (token : string) :
  Runs index (TaskPost request token) []
    (translateTask translateTableName request index token).
Proof.
  unfold translateTask, shouldCacheBeUsed. cbn [bind].
  apply Runs_get. intros [response [err|]] Hget; cbn [bind].
  { apply Runs_ret. eexists. split; [cbn; apply list_elem_of_here|].
    unfold failed. cbn. discriminate. }
  destruct (Hget eq_refl) as (resp & Hresp & Hitem). cbn in Hresp. subst response.
  cbn [deref bind].
  destruct (GetItemOutput_Item resp) as [item|] eqn:Hfound.
  - destruct (Hitem item eq_refl)
      as ([h Hh] & [t Ht] & [s Hs] & [sl Hsl] & [tl Htl]).
    rewrite Hh, Ht, Hs, Hsl, Htl. cbn [assertS bind Cache.TranslatedText].
    apply Runs_store, Runs_ret. split.
    + intros c Hc. in_calls Hc. unfold failed. cbn. congruence.
    + exists t. split; [reflexivity|]. left. eexists _, resp, item.
      split; [cbn; apply list_elem_of_here|].
      split; [apply lookup_singleton_eq|]. auto.
  - cbn [bind]. unfold translateLanguage. cbn [bind].
    apply Runs_translate. intros [output [err|]] Htr; cbn [bind].
    { apply Runs_ret. eexists. split; [cbn; apply list_elem_of_further, list_elem_of_here|].
      unfold failed. cbn. discriminate. }
    destruct (Htr eq_refl) as (out & text & Hout & Htext). cbn in Hout. subst output.
    cbn [deref bind]. rewrite Htext. cbn [deref bind TranslatedText].
    unfold cacheTranslatedText. cbn [bind].
    apply Runs_put. intros [stored [err|]]; cbn [bind].
    { apply Runs_ret. eexists.
      split; [cbn; do 2 apply list_elem_of_further; apply list_elem_of_here|].
      unfold failed. cbn. discriminate. }
    apply Runs_store, Runs_ret. split.
    + intros c Hc. in_calls Hc; unfold failed; cbn; congruence.
    + exists text. split; [reflexivity|]. right. exists out.
      split; [cbn; apply list_elem_of_further, list_elem_of_here | assumption].
Qed.

End Task.

(** ** The events of a task *)

Lemma calledIn_app (h h' : list Event) :
  calledIn (h ++ h') = calledIn h ++ calledIn h'.
Proof.
  unfold calledIn. induction h as [|ev h IH]; [reflexivity|].
  cbn [app omap list_omap]. destruct ev; cbn; now rewrite <- IH.
Qed.

Lemma lastStored_called (h : list Event) (c : Call) :
  lastStored (h ++ [Called c]) = lastStored h.
Proof.
  induction h as [|ev h IH]; [reflexivity|].
  cbn [app lastStored]. destruct ev; now rewrite IH.
Qed.

Lemma lastStored_stored (h : list Event) (value : string) :
  lastStored (h ++ [Stored value]) = Some value.
Proof.
  induction h as [|ev h IH]; [reflexivity|].
  cbn [app lastStored]. destruct ev; now rewrite IH.
Qed.

(** ** Starting a task *)

Lemma length_startFirst (ts : list Task) : length (startFirst ts) = length ts.
Proof.
  induction ts as [|t ts IH]; [reflexivity|].
  destruct t; cbn [startFirst length]; congruence.
Qed.

Lemma startFirst_lookup (ts : list Task) :
  forall j t',
    startFirst ts !! j = Some t' ->
    exists t, ts !! j = Some t /\
              (t' = t \/ exists f, t = Queued f /\ t' = Running f).
Proof.
  induction ts as [|t ts IH]; intros j t' H; [discriminate|].
  destruct t as [f|f|err]; cbn [startFirst] in H.
  - destruct j as [|j]; cbn in H |- *.
    + injection H as <-. eauto 6.
    + eauto.
  - destruct j as [|j]; cbn in H |- *; [injection H as <-; eauto | auto].
  - destruct j as [|j]; cbn in H |- *; [injection H as <-; eauto | auto].
Qed.

Lemma startFirst_finished (ts : list Task) :
  forall j err,
    ts !! j = Some (Finished err) -> startFirst ts !! j = Some (Finished err).
Proof.
  induction ts as [|t ts IH]; intros j err H; [discriminate|].
  destruct t as [f|f|err']; cbn [startFirst]; destruct j as [|j];
    cbn in H |- *; try discriminate; auto.
Qed.

(** ** The invariant of the group *)

Section Group.
Context {sha256 : Sha256.Package}.
Context {World : Type}.
Context {dynamoClient : DynamoDBClient World}.
Context {translateClient : TranslateClient World}.
Hypothesis laws : ClientLaws.
Variable translateTableName : string.
Variable request : TranslateRequest.
Variable sentences : list string.
Variable before : list Call.

Local Abbreviation Inv := (Invariant request sentences before).
Local Abbreviation every := (fun _ : nat => True).
Local Abbreviation but i := (fun j : nat => j <> i).

(** A call of the task at [i], in the middle of its step. *)
Lemma Invariant_call (i : nat) (hs : list (list Event)) (g : Group)
    (m : Machine World) (h : list Event) (c : Call) (w : World) :
  Inv (but i) hs g m -> hs !! i = Some h ->
  Inv (but i) (<[i := h ++ [Called c]]> hs) g (logCall c w m).
Proof.
  intros [Ht He Hs Htask (new & Hcalls & Hnew) Hslot Herr] Hi.
  assert (Hlt : i < length hs) by (eapply lookup_lt_Some; eassumption).
  split; try assumption.
  - now rewrite length_insert.
  - intros j t h' token Hj Hjt Hjh Htok.
    rewrite list_lookup_insert_ne in Hjh by congruence. eauto.
  - exists (new ++ [c]). split; [cbn; now rewrite Hcalls, app_assoc|].
    intros c'. rewrite elem_of_app, Hnew, list_elem_of_singleton. split.
    + intros [(j & h' & Hj & Hc) | ->].
      * destruct (decide (j = i)) as [->|Hne].
        -- exists i, (h ++ [Called c]).
           split; [now apply list_lookup_insert_eq|].
           rewrite calledIn_app, elem_of_app. left. congruence.
        -- exists j, h'. now rewrite list_lookup_insert_ne by congruence.
      * exists i, (h ++ [Called c]).
        split; [now apply list_lookup_insert_eq|].
        rewrite calledIn_app, elem_of_app. right. apply list_elem_of_here.
    + intros (j & h' & Hj & Hc). destruct (decide (j = i)) as [->|Hne].
      * rewrite list_lookup_insert_eq in Hj by assumption. injection Hj as <-.
        rewrite calledIn_app, elem_of_app in Hc. destruct Hc as [Hc|Hc].
        -- left. eauto.
        -- right. now apply list_elem_of_singleton in Hc.
      * rewrite list_lookup_insert_ne in Hj by congruence. left. eauto.
  - intros j h' Hj. cbn [logCall slots].
    destruct (decide (j = i)) as [->|Hne].
    + rewrite list_lookup_insert_eq in Hj by assumption. injection Hj as <-.
      rewrite lastStored_called. auto.
    + rewrite list_lookup_insert_ne in Hj by congruence. auto.
Qed.

(** An assignment of the task at [i] to its slot. *)
Lemma Invariant_store (i : nat) (hs : list (list Event)) (g : Group)
    (m : Machine World) (h : list Event) (value : string) :
  Inv (but i) hs g m -> hs !! i = Some h ->
  exists m',
    store i value m = Some m' /\
    Inv (but i) (<[i := h ++ [Stored value]]> hs) g m'.
Proof.
  intros [Ht He Hs Htask (new & Hcalls & Hnew) Hslot Herr] Hi.
  assert (Hlt : i < length hs) by (eapply lookup_lt_Some; eassumption).
  unfold store. destruct (decide (i < length (slots m))) as [Hin|Hout]; [|lia].
  eexists. split; [reflexivity|].
  split; cbn [slots calls world]; try assumption.
  - now rewrite length_insert.
  - now rewrite length_insert.
  - intros j t h' token Hj Hjt Hjh Htok.
    rewrite list_lookup_insert_ne in Hjh by congruence. eauto.
  - exists new. split; [assumption|]. intros c'. rewrite Hnew. split.
    + intros (j & h' & Hj & Hc). destruct (decide (j = i)) as [->|Hne].
      * exists i, (h ++ [Stored value]).
        split; [now apply list_lookup_insert_eq|].
        rewrite calledIn_app, elem_of_app. left. congruence.
      * exists j, h'. now rewrite list_lookup_insert_ne by congruence.
    + intros (j & h' & Hj & Hc). destruct (decide (j = i)) as [->|Hne].
      * rewrite list_lookup_insert_eq in Hj by assumption. injection Hj as <-.
        rewrite calledIn_app, elem_of_app in Hc. destruct Hc as [Hc|Hc]; [eauto|].
        cbn in Hc. now apply elem_of_nil in Hc.
      * rewrite list_lookup_insert_ne in Hj by congruence. eauto.
  - intros j h' Hj. destruct (decide (j = i)) as [->|Hne].
    + rewrite list_lookup_insert_eq in Hj by assumption. injection Hj as <-.
      rewrite lastStored_stored. now apply list_lookup_insert_eq.
    + rewrite list_lookup_insert_ne in Hj by congruence.
      rewrite list_lookup_insert_ne by congruence. auto.
Qed.

(** The step of the task at [i] is over: it has more to run. *)
Lemma Invariant_running (i : nat) (hs : list (list Event)) (g : Group)
    (m : Machine World) (h : list Event) (token : string)
    (f : Prog (option error)) :
  Inv (but i) hs g m -> hs !! i = Some h -> sentences !! i = Some token ->
  Runs i (TaskPost request token) h f ->
  Inv every hs
    (mkGroup (<[i := Running f]> (tasks g)) (groupErr g) (cancelled g)) m.
Proof.
  intros [Ht He Hs Htask Hcalls Hslot Herr] Hi Htok Hruns.
  assert (Hlt : i < length (tasks g)).
  { apply lookup_lt_Some in Hi. lia. }
  split; cbn [tasks groupErr]; try assumption.
  - now rewrite length_insert.
  - intros j t h' token' _ Hjt Hjh Htok'. destruct (decide (j = i)) as [->|Hne].
    + rewrite list_lookup_insert_eq in Hjt by lia. injection Hjt as <-.
      cbn. congruence.
    + rewrite list_lookup_insert_ne in Hjt by congruence. eauto.
  - destruct (groupErr g).
    + destruct Herr as (j & err & Hj & Hfin). exists j, err.
      split; [exact I|]. now rewrite list_lookup_insert_ne by congruence.
    + intros j err _ Hj. destruct (decide (j = i)) as [->|Hne].
      * rewrite list_lookup_insert_eq in Hj by lia. discriminate.
      * rewrite list_lookup_insert_ne in Hj by congruence. eauto.
Qed.

(** The task at [i] returns. *)
Lemma Invariant_finish (i : nat) (hs : list (list Event)) (g : Group)
    (m : Machine World) (h : list Event) (token : string) (err : option error) :
  Inv (but i) hs g m -> hs !! i = Some h -> sentences !! i = Some token ->
  TaskPost request token h err ->
  Inv every hs (finish i err g) m.
Proof.
  intros [Ht He Hs Htask Hcalls Hslot Herr] Hi Htok Hpost.
  assert (Hlt : i < length (tasks g)).
  { apply lookup_lt_Some in Hi. lia. }
  split; cbn [finish tasks groupErr]; try assumption.
  - now rewrite length_insert.
  - intros j t h' token' _ Hjt Hjh Htok'. destruct (decide (j = i)) as [->|Hne].
    + rewrite list_lookup_insert_eq in Hjt by lia. injection Hjt as <-.
      cbn. congruence.
    + rewrite list_lookup_insert_ne in Hjt by congruence. eauto.
  - destruct (groupErr g).
    + destruct Herr as (j & e' & Hj & Hfin). exists j, e'.
      split; [exact I|]. now rewrite list_lookup_insert_ne by congruence.
    + destruct err as [e'|].
      * exists i, e'. split; [exact I|]. now apply list_lookup_insert_eq.
      * intros j e' _ Hj. destruct (decide (j = i)) as [->|Hne].
        -- rewrite list_lookup_insert_eq in Hj by lia. congruence.
        -- rewrite list_lookup_insert_ne in Hj by congruence. eauto.
Qed.

(** A task that has not returned begins a step. *)
Lemma Invariant_but (i : nat) (hs : list (list Event)) (g : Group)
    (m : Machine World) :
  Inv every hs g m ->
  (forall err, tasks g !! i <> Some (Finished err)) ->
  Inv (but i) hs g m.
Proof.
  intros [Ht He Hs Htask Hcalls Hslot Herr] Hi.
  split; try assumption.
  - intros j t h token _. now apply Htask.
  - destruct (groupErr g).
    + destruct Herr as (j & err & _ & Hfin). exists j, err.
      split; [|assumption]. intros ->. now apply Hi in Hfin.
    + intros j err _. now apply Herr.
Qed.

(** A task with events behind it and a sentence before it. *)
Lemma Invariant_lookup (care : nat -> Prop) (i : nat) (hs : list (list Event))
    (g : Group) (m : Machine World) (t : Task) :
  Inv care hs g m -> tasks g !! i = Some t ->
  exists h token, hs !! i = Some h /\ sentences !! i = Some token.
Proof.
  intros [Ht He Hs _ _ _ _] Hi. apply lookup_lt_Some in Hi.
  destruct (lookup_lt_is_Some_2 hs i) as [h Hh]; [lia|].
  destruct (lookup_lt_is_Some_2 sentences i) as [token Htok]; [lia|].
  eauto.
Qed.

(** A task run to its return: it returns, and the invariant holds again. *)
Lemma runTask_Invariant (i : nat) (token : string) (f : Prog (option error))
    (h : list Event) :
  Runs i (TaskPost request token) h f ->
  forall hs g m,
    sentences !! i = Some token -> Inv (but i) hs g m -> hs !! i = Some h ->
    exists hs' m' err,
      runTask i f g m = (Returns (finish i err g), m') /\
      Inv every hs' (finish i err g) m'.
Proof.
  induction 1 as [h err Hpost | h ctx params k _ IH | h ctx params k _ IH
                 | h ctx params k _ IH | h ctx params k _ IH | h value k _ IH];
    intros hs g m Htok Hinv Hi; cbn [runTask];
    assert (Hlt : i < length hs) by (eapply lookup_lt_Some; eassumption).
  - exists hs, m, err. split; [reflexivity|]. eapply Invariant_finish; eassumption.
  - destruct (ListLanguages (ctxDone g ctx) params (world m)) as [out w].
    eapply IH; [eassumption | eapply Invariant_call; eassumption |].
    now apply list_lookup_insert_eq.
  - destruct (TranslateText (ctxDone g ctx) params (world m)) as [out w] eqn:E.
    eapply IH; [| eassumption | eapply Invariant_call; eassumption |].
    + pose proof (TranslateText_lawful laws (ctxDone g ctx) params (world m)) as L.
      now rewrite E in L.
    + now apply list_lookup_insert_eq.
  - destruct (GetItem (ctxDone g ctx) params (world m)) as [out w] eqn:E.
    eapply IH; [| eassumption | eapply Invariant_call; eassumption |].
    + pose proof (GetItem_lawful laws (ctxDone g ctx) params (world m)) as L.
      now rewrite E in L.
    + now apply list_lookup_insert_eq.
  - destruct (PutItem (ctxDone g ctx) params (world m)) as [out w].
    eapply IH; [eassumption | eapply Invariant_call; eassumption |].
    now apply list_lookup_insert_eq.
  - destruct (Invariant_store i hs g m h value Hinv Hi) as (m' & -> & Hinv').
    eapply IH; [eassumption | eassumption |].
    now apply list_lookup_insert_eq.
Qed.

(** One step of a goroutine. *)
Lemma stepTask_Invariant (i : nat) (hs : list (list Event)) (g : Group)
    (m : Machine World) :
  Inv every hs g m ->
  exists hs' g' m',
    stepTask i g m = (Returns g', m') /\ Inv every hs' g' m'.
Proof.
  intros Hinv. unfold stepTask.
  destruct (tasks g !! i) as [[f|f|err]|] eqn:Ht; try (now eauto).
  destruct (Invariant_lookup _ _ _ _ _ _ Hinv Ht) as (h & token & Hi & Htok).
  assert (Hlt : i < length hs) by (eapply lookup_lt_Some; eassumption).
  assert (Hruns : Runs i (TaskPost request token) h f).
  { exact (inv_task _ _ _ _ _ _ _ Hinv i _ h token I Ht Hi Htok). }
  assert (Hbut : Inv (but i) hs g m).
  { apply Invariant_but; [assumption|]. intros err. rewrite Ht. discriminate. }
  inversion Hruns as [h0 err Hpost | h0 ctx params k Hk | h0 ctx params k Hk
                     | h0 ctx params k Hk | h0 ctx params k Hk | h0 value k Hk];
    subst; cbn [stepProg].
  - do 3 eexists. split; [reflexivity|]. eapply Invariant_finish; eassumption.
  - destruct (ListLanguages (ctxDone g ctx) params (world m)) as [out w].
    do 3 eexists. split; [reflexivity|].
    eapply Invariant_running;
      [eapply Invariant_call; eassumption
      | now apply list_lookup_insert_eq | eassumption | apply Hk].
  - destruct (TranslateText (ctxDone g ctx) params (world m)) as [out w] eqn:E.
    do 3 eexists. split; [reflexivity|].
    eapply Invariant_running;
      [eapply Invariant_call; eassumption
      | now apply list_lookup_insert_eq | eassumption | apply Hk].
    pose proof (TranslateText_lawful laws (ctxDone g ctx) params (world m)) as L.
    now rewrite E in L.
  - destruct (GetItem (ctxDone g ctx) params (world m)) as [out w] eqn:E.
    do 3 eexists. split; [reflexivity|].
    eapply Invariant_running;
      [eapply Invariant_call; eassumption
      | now apply list_lookup_insert_eq | eassumption | apply Hk].
    pose proof (GetItem_lawful laws (ctxDone g ctx) params (world m)) as L.
    now rewrite E in L.
  - destruct (PutItem (ctxDone g ctx) params (world m)) as [out w].
    do 3 eexists. split; [reflexivity|].
    eapply Invariant_running;
      [eapply Invariant_call; eassumption
      | now apply list_lookup_insert_eq | eassumption | apply Hk].
  - destruct (Invariant_store i hs g m h value Hbut Hi) as (m' & -> & Hinv').
    do 3 eexists. split; [reflexivity|].
    eapply Invariant_running;
      [eassumption | now apply list_lookup_insert_eq | eassumption | assumption].
Qed.

(** [Go] starts a task. *)
Lemma launch_Invariant (hs : list (list Event)) (g : Group) (m : Machine World) :
  Inv every hs g m -> Inv every hs (launch g) m.
Proof.
  intros Hinv. unfold launch. destruct (decide (inFlight g < limit)); [|assumption].
  destruct Hinv as [Ht He Hs Htask Hcalls Hslot Herr].
  split; cbn [tasks groupErr]; try assumption.
  - now rewrite length_startFirst.
  - intros j t' h token _ Hj Hh Htok.
    destruct (startFirst_lookup _ _ _ Hj) as (t & Hjt & [-> | (f & -> & ->)]).
    + eauto.
    + exact (Htask j _ h token I Hjt Hh Htok).
  - destruct (groupErr g).
    + destruct Herr as (j & err & _ & Hfin). exists j, err.
      split; [exact I|]. now apply startFirst_finished.
    + intros j err _ Hj.
      destruct (startFirst_lookup _ _ _ Hj) as (t & Hjt & [<- | (f & _ & ?)]);
        [eauto | discriminate].
Qed.

(** The scheduler's picks. *)
Lemma runPicks_Invariant (sched : list Pick) :
  forall hs g m,
    Inv every hs g m ->
    exists hs' g' m',
      runPicks sched g m = (Returns g', m') /\ Inv every hs' g' m'.
Proof.
  induction sched as [|p sched IH]; intros hs g m Hinv; cbn [runPicks].
  - eauto.
  - destruct p as [|i]; cbn [pick].
    + apply (IH hs). now apply launch_Invariant.
    + destruct (stepTask_Invariant i hs g m Hinv) as (hs1 & g1 & m1 & -> & Hinv1).
      now apply (IH hs1).
Qed.

(** The tasks that are left are run to their return. *)
Lemma drain_Invariant (indices : list nat) :
  forall hs g m,
    Inv every hs g m ->
    exists hs' g' m',
      drain indices g m = (Returns g', m') /\ Inv every hs' g' m' /\
      forall j,
        j < length sentences ->
        j ∈ indices \/ (exists err, tasks g !! j = Some (Finished err)) ->
        exists err, tasks g' !! j = Some (Finished err).
Proof.
  induction indices as [|i indices IH]; intros hs g m Hinv; cbn [drain].
  - exists hs, g, m. split; [reflexivity|]. split; [assumption|].
    intros j _ [Hj|Hj]; [now apply elem_of_nil in Hj | assumption].
  - assert (Hrun : forall f,
        tasks g !! i = Some (Queued f) \/ tasks g !! i = Some (Running f) ->
        exists hs' g' m',
          match runTask i f g m with
          | (Returns g1, m1) => drain indices g1 m1
          | other => other
          end = (Returns g', m') /\ Inv every hs' g' m' /\
          forall j,
            j < length sentences ->
            j ∈ i :: indices \/ (exists err, tasks g !! j = Some (Finished err)) ->
            exists err, tasks g' !! j = Some (Finished err)).
    { intros f Hf.
      assert (Ht : exists t, tasks g !! i = Some t) by (destruct Hf; eauto).
      destruct Ht as (t & Ht).
      destruct (Invariant_lookup _ _ _ _ _ _ Hinv Ht) as (h & token & Hi & Htok).
      assert (Hruns : Runs i (TaskPost request token) h f).
      { destruct Hf as [Hf|Hf];
          exact (inv_task _ _ _ _ _ _ _ Hinv i _ h token I Hf Hi Htok). }
      assert (Hbut : Inv (but i) hs g m).
      { apply Invariant_but; [assumption|]. intros err.
        destruct Hf as [-> | ->]; discriminate. }
      destruct (runTask_Invariant i token f h Hruns hs g m Htok Hbut Hi)
        as (hs1 & m1 & err & -> & Hinv1).
      destruct (IH hs1 _ m1 Hinv1) as (hs' & g' & m' & Hd & Hinv' & Hfin).
      exists hs', g', m'. split; [assumption|]. split; [assumption|].
      intros j Hj Hcase. apply Hfin; [assumption|].
      assert (Hlt : i < length (tasks g)) by (eapply lookup_lt_Some; eassumption).
      destruct (decide (j = i)) as [->|Hne].
      - right. exists err. cbn [finish tasks]. now apply list_lookup_insert_eq.
      - destruct Hcase as [Hin | (e & He)].
        + left. apply elem_of_cons in Hin. destruct Hin; [contradiction | assumption].
        + right. exists e. cbn [finish tasks].
          now rewrite list_lookup_insert_ne by congruence. }
    destruct (tasks g !! i) as [[f|f|err]|] eqn:Ht.
    + apply Hrun. now left.
    + apply Hrun. now right.
    + destruct (IH hs g m Hinv) as (hs' & g' & m' & Hd & Hinv' & Hfin).
      exists hs', g', m'. split; [assumption|]. split; [assumption|].
      intros j Hj Hcase. apply Hfin; [assumption|].
      destruct Hcase as [Hin | Hdone]; [|now right].
      apply elem_of_cons in Hin. destruct Hin as [-> | Hin]; [right; eauto | now left].
    + destruct (IH hs g m Hinv) as (hs' & g' & m' & Hd & Hinv' & Hfin).
      exists hs', g', m'. split; [assumption|]. split; [assumption|].
      intros j Hj Hcase. apply Hfin; [assumption|].
      destruct Hcase as [Hin | Hdone]; [|now right].
      apply elem_of_cons in Hin. destruct Hin as [-> | Hin]; [|now left].
      apply lookup_ge_None in Ht. destruct Hinv as [Hlen _ _ _ _ _ _]. lia.
Qed.

(** The group as the handler's loop leaves it. *)
Lemma Invariant_initial (w : World) :
  Inv every (replicate (length sentences) [])
    (mkGroup (makeTasks translateTableName request sentences) None false)
    (mkMachine w before (replicate (length sentences) "")).
Proof.
  split; cbn [tasks groupErr slots calls].
  - unfold makeTasks. now rewrite length_imap.
  - now rewrite length_replicate.
  - now rewrite length_replicate.
  - intros i t h token _ Ht Hh Htok. unfold makeTasks in Ht.
    rewrite list_lookup_imap, Htok in Ht. cbn in Ht. injection Ht as <-.
    apply lookup_replicate in Hh. destruct Hh as [-> _].
    cbn [TaskInv]. apply translateTask_runs.
  - exists []. split; [now rewrite app_nil_r|]. intros c. split.
    + intros Hc. now apply elem_of_nil in Hc.
    + intros (i & h & Hh & Hc). apply lookup_replicate in Hh.
      destruct Hh as [-> _]. now apply elem_of_nil in Hc.
  - intros i h Hh. apply lookup_replicate in Hh. destruct Hh as [-> Hlt].
    cbn. now apply lookup_replicate_2.
  - intros i err _ Ht. unfold makeTasks in Ht. rewrite list_lookup_imap in Ht.
    destruct (sentences !! i); discriminate.
Qed.

(** A translation obtained by some calls is obtained by more calls. *)
Lemma Translates_mono (token text : string) (cs cs' : list Call) :
  (forall c, c ∈ cs -> c ∈ cs') ->
  Translates request token text cs -> Translates request token text cs'.
Proof.
  intros Hsub [(params & response & item & Hc & H)|(output & Hc & H)].
  - left. exists params, response, item. split; [now apply Hsub | assumption].
  - right. exists output. split; [now apply Hsub | assumption].
Qed.

(** The handler's wait: every task returns; the error is that of a task one
    of whose calls failed, and without an error no call failed and every
    slot holds a translation of the sentence at its index. *)
Lemma translateSentences_spec (sched : list Pick) (m : Machine World) :
  calls m = before ->
  exists translated err m' new,
    translateSentences translateTableName sched request sentences m =
      (Returns (translated, err), m') /\
    calls m' = before ++ new /\
    (err <> None <-> exists c, c ∈ new /\ failed c) /\
    (err = None ->
     length translated = length sentences /\
     forall i token,
       sentences !! i = Some token ->
       exists text,
         translated !! i = Some text /\ Translates request token text new).
Proof.
  intros Hbefore. unfold translateSentences, Wait. rewrite Hbefore.
  destruct (runPicks_Invariant sched _ _ _ (Invariant_initial (world m)))
    as (hs1 & g1 & m1 & -> & Hinv1).
  destruct (drain_Invariant (seq 0 (length (tasks g1))) hs1 g1 m1 Hinv1)
    as (hs2 & g2 & m2 & -> & Hinv2 & Hfin).
  assert (Hall : forall j, j < length sentences ->
                           exists err, tasks g2 !! j = Some (Finished err)).
  { intros j Hj. apply Hfin; [assumption|]. left. apply elem_of_seq.
    destruct Hinv1 as [Hlen _ _ _ _ _ _]. lia. }
  destruct Hinv2 as [Ht He Hs Htask (new & Hcalls & Hnew) Hslot Herr].
  exists (slots m2), (groupErr g2), m2, new.
  split; [reflexivity|]. split; [assumption|].
  destruct (groupErr g2) as [first|].
  - split; [|discriminate]. split; [|discriminate]. intros _.
    destruct Herr as (i & err & _ & Hi).
    destruct (lookup_lt_is_Some_2 hs2 i) as [h Hh].
    { apply lookup_lt_Some in Hi. lia. }
    destruct (lookup_lt_is_Some_2 sentences i) as [token Htok].
    { apply lookup_lt_Some in Hi. lia. }
    pose proof (Htask i _ h token I Hi Hh Htok) as (c & Hc & Hfailed).
    exists c. split; [|assumption]. apply Hnew. eauto.
  - assert (Hpost : forall i h token,
        hs2 !! i = Some h -> sentences !! i = Some token ->
        TaskPost request token h None).
    { intros i h token Hh Htok.
      destruct (Hall i) as (err & Hi); [eapply lookup_lt_Some; eassumption|].
      pose proof (Herr i err I Hi) as ->.
      exact (Htask i _ h token I Hi Hh Htok). }
    split.
    + split; [congruence|]. intros (c & Hc & Hfailed).
      apply Hnew in Hc. destruct Hc as (i & h & Hh & Hc).
      destruct (lookup_lt_is_Some_2 sentences i) as [token Htok].
      { apply lookup_lt_Some in Hh. lia. }
      destruct (Hpost i h token Hh Htok) as [Hnone _].
      now apply Hnone in Hc.
    + intros _. split; [assumption|]. intros i token Htok.
      destruct (lookup_lt_is_Some_2 hs2 i) as [h Hh].
      { apply lookup_lt_Some in Htok. lia. }
      destruct (Hpost i h token Hh Htok) as [_ (text & Hlast & Htr)].
      exists text. split.
      * rewrite (Hslot i h Hh), Hlast. reflexivity.
      * eapply Translates_mono; [|eassumption].
        intros c Hc. apply Hnew. eauto.
Qed.

End Group.

(** ** The orchestration *)

Section Orchestration.
Context {html : Html.Package} {sentencizer : Sentencizer.Package}.
Context {sha256 : Sha256.Package} {json : Json.Package}.
Context {World : Type}.
Context {dynamoClient : DynamoDBClient World}.
Context {translateClient : TranslateClient World}.
Variable translateTableName : string.

(** C5.  Whatever the scheduler does with the tasks of a batch, and with
    clients that keep their contract, the wait of the handler returns, and
    it returns an error exactly when a cache lookup, a translation or a
    cache store of some task failed.  With an error the handler answers 500
    "Error during translation", a fixed body with no translated text in it.
    Without one the slice of translations is as long as the batch and its
    slot [i] holds a translation of the sentence at [i]: the text of the cache
    item found under the fingerprint of that sentence, or the text the
    provider returned for that sentence. *)
Theorem orchestration_all_or_nothing (laws : ClientLaws) (sched : list Pick)
    (event : APIGatewayProxyRequest) (request : TranslateRequest)
    (htmlContent : bool) (htmlTokens : list Token) (sentences : list string)
    (wordCounts : list Z) (m m1 : Machine World) :
  unmarshalRequest (EventBody event) = (request, None) ->
  validateRequest request = None ->
  exec (doesTargetLanguageExist ctxHandler (TargetLanguage request)) m =
    (Returns (true, None), m1) ->
  extractSentences request =
    Returns (htmlContent, (htmlTokens, sentences, wordCounts, None)) ->
  exists translated err m2 new,
    translateSentences translateTableName sched request sentences m1 =
      (Returns (translated, err), m2) /\
    calls m2 = calls m1 ++ new /\
    (err <> None <-> exists c, c ∈ new /\ failed c) /\
    (err <> None ->
     handle translateTableName sched event m =
       (Returns (mkResponse StatusInternalServerError "Error during translation",
                 None), m2)) /\
    (err = None ->
     length translated = length sentences /\
     forall i token,
       sentences !! i = Some token ->
       exists text,
         translated !! i = Some text /\ Translates request token text new).
Proof.
  intros Hbody Hvalid Hlang Hextract.
  destruct (translateSentences_spec laws translateTableName request sentences
              (calls m1) sched m1 eq_refl)
    as (translated & err & m2 & new & Hrun & Hcalls & Herr & Hok).
  exists translated, err, m2, new.
  split; [assumption|]. split; [assumption|]. split; [assumption|].
  split; [|assumption].
  intros Hfail. unfold handle. rewrite Hbody, Hvalid.
  unfold andThen at 1. rewrite Hlang. cbn [negb].
  unfold andThen at 1. unfold lift. rewrite Hextract.
  unfold andThen. rewrite Hrun.
  destruct err as [first|]; [reflexivity | congruence].
Qed.

End Orchestration.

(** ** The mock clients *)

(** The mock clients keep the contract of the clients. *)
Lemma mock_laws (languages : list string)
    (translate : string -> string -> option string) :
  ClientLaws (dynamoClient := Mock.dynamoClient)
    (translateClient := Mock.translateClient languages translate).
Proof.
  split.
  - intros done params table. cbn [GetItem Mock.dynamoClient].
    unfold Mock.getItem, lawfulGet. destruct done; [discriminate|].
    destruct (Mock.stringOf (GetItemInput_Key params !! "hash")) as [h|];
      [|discriminate].
    intros _. eexists. split; [reflexivity|]. cbn [GetItemOutput_Item].
    intros item Hitem. destruct (table !! h) as [found|]; [|discriminate].
    injection Hitem as <-. unfold isS, Mock.attributes.
    repeat split; eexists; simplify_map_eq; reflexivity.
  - intros done params table. cbn [TranslateText Mock.translateClient].
    unfold Mock.translateText, lawfulTranslate. destruct done; [discriminate|].
    destruct (TranslateTextInput_Text params) as [text|]; [|discriminate].
    destruct (TargetLanguageCode params) as [target|]; [|discriminate].
    destruct (translate text target) as [translated|]; [|discriminate].
    intros _. do 2 eexists. split; reflexivity.
Qed.

(** The orchestration on the mock clients, for a text of two sentences and
    a scheduler that starts both tasks and lets the second one go first. *)
Lemma orchestration_all_or_nothing_mock :
  exists translated err m2 new,
    translateSentences (sha256 := sha256Ref)
        (dynamoClient := Mock.dynamoClient)
        (translateClient := Mock.translateClient ["es"] Mock.spanish)
        "TranslateCache" [Launch; Launch; Step 1; Step 0]
        (mkTranslateRequest "en" "es" "Hello world. How are you?")
        ["Hello world."; "How are you?"] (mkMachine ∅ [listedSpanish] []) =
      (Returns (translated, err), m2) /\
    calls m2 = [listedSpanish] ++ new /\
    (err <> None <-> exists c, c ∈ new /\ failed c) /\
    (err <> None ->
     mockHandle [Launch; Launch; Step 1; Step 0]
         "en|es|Hello world. How are you?" =
       (Returns (mkResponse StatusInternalServerError "Error during translation",
                 None), m2)) /\
    (err = None ->
     length translated = 2 /\
     forall i token,
       ["Hello world."; "How are you?"] !! i = Some token ->
       exists text,
         translated !! i = Some text /\
         Translates (mkTranslateRequest "en" "es" "Hello world. How are you?")
           token text new).
Proof.
  apply (orchestration_all_or_nothing (html := htmlRef)
           (sentencizer := sentencizerRef) (json := Mock.json Mock.decode)
           "TranslateCache" (mock_laws ["es"] Mock.spanish)
           [Launch; Launch; Step 1; Step 0]
           (mkEvent "en|es|Hello world. How are you?")
           (mkTranslateRequest "en" "es" "Hello world. How are you?")
           false [] ["Hello world."; "How are you?"] []
           (mkMachine ∅ [] []) (mkMachine ∅ [listedSpanish] []));
    reflexivity.
Defined.

(** A batch one sentence of which the mock provider cannot translate: the
    other sentence is translated and stored in its slot, and the handler
    answers 500 all the same. *)
Lemma mock_batch_with_failure :
  mockHandle [Launch; Launch; Step 1; Step 1; Step 1; Step 1; Step 0]
    "en|es|Good bye. Hello world." =
  (Returns (mkResponse StatusInternalServerError "Error during translation",
            None),
   snd (mockHandle [Launch; Launch; Step 1; Step 1; Step 1; Step 1; Step 0]
          "en|es|Good bye. Hello world.")) /\
  slots (snd (mockHandle [Launch; Launch; Step 1; Step 1; Step 1; Step 1; Step 0]
                "en|es|Good bye. Hello world.")) = [""; "Hola mundo."].
Proof. split; vm_compute; reflexivity. Qed.

(** The handler on the mock clients, asked for a language they do not
    list. *)
Lemma unsupported_target_language_mock :
  mockHandle [] "en|xx|Hello" =
  (Returns (mkResponse StatusUnprocessableEntity "Target language not supported",
            None),
   mkMachine ∅ [listedSpanish] []).
Proof.
  apply (unsupported_target_language_fails_fast (html := htmlRef)
           (sentencizer := sentencizerRef) (sha256 := sha256Ref)
           (json := Mock.json Mock.decode)
           (dynamoClient := Mock.dynamoClient)
           (translateClient := Mock.translateClient ["es"] Mock.spanish)
           "TranslateCache" [] (mkEvent "en|xx|Hello")
           (mkTranslateRequest "en" "xx" "Hello") (mkMachine ∅ [] [])
           (mkListLanguagesOutput (Some [mkLanguage (Some "es")]))
           [mkLanguage (Some "es")] ["es"] ∅);
    try reflexivity.
  cbn. intros [H|[]]. discriminate.
Defined.

(** The handler on the mock clients, asked to translate the empty text: it
    answers 400, not 200 with an empty translation. *)
Lemma empty_text_is_not_translated :
  fst (mockHandle [] "en|es|") =
    Returns (mkResponse StatusBadRequest "text is required", None) /\
  StatusBadRequest <> StatusOK.
Proof. split; [reflexivity | discriminate]. Qed.

Lemma empty_text_is_rejected_mock :
  exists msg,
    mockHandle [] "en|es|" =
      (Returns (mkResponse StatusBadRequest msg, None), mkMachine ∅ [] []) /\
    ("en" <> "" -> "es" <> "" -> msg = "text is required").
Proof.
  apply (empty_text_is_rejected (html := htmlRef)
           (sentencizer := sentencizerRef) (sha256 := sha256Ref)
           (json := Mock.json Mock.decode)
           (dynamoClient := Mock.dynamoClient)
           (translateClient := Mock.translateClient ["es"] Mock.spanish)
           "TranslateCache" [] (mkEvent "en|es|")
           (mkTranslateRequest "en" "es" "") (mkMachine ∅ [] []));
    reflexivity.
Defined.

(** * More of [html.go] *)

Lemma htmlFailing_laws : TokenizerLaws (html := htmlFailing).
Proof.
  split.
  - intros z tt_ z1 H Hne. injection H as <- _. congruence.
  - intros z raw z1 H. injection H as _ <-. reflexivity.
  - intros z token z1 H. injection H as _ <-. reflexivity.
Qed.

Lemma getTextFromHTML_returns_reference :
  exists result,
    getTextFromHTML (html := htmlRef) (sentencizer := sentencizerRef)
      "<p>Hello world. How are you?</p>" = Returns result.
Proof.
  apply (getTextFromHTML_returns (html := htmlRef) (sentencizer := sentencizerRef)
           "<p>Hello world. How are you?</p>").
  exact htmlRef_laws.
Defined.

Lemma concat_empty_cons (s : string) (l : list string) :
  String.concat "" (s :: l) = s +:+ String.concat "" l.
Proof.
  destruct l as [|x l]; cbn [String.concat]; [now rewrite app_nil_right | reflexivity].
Qed.

Lemma concat_empty_app (a b : list string) :
  String.concat "" (a ++ b) = String.concat "" a +:+ String.concat "" b.
Proof.
  induction a as [|x a IH]; [reflexivity|].
  rewrite <- app_comm_cons, !concat_empty_cons, IH. now rewrite app_associative.
Qed.

Section Extraction.
Context {html : Html.Package} {sentencizer : Sentencizer.Package}.

(** X2.  What [getTextFromHTML] returns without an error is in document
    order: the sentences are those of the text tokens whose trimmed text is
    not empty, token after token, each text trimmed before it is segmented,
    and the count at [k] is the number of sentences of the [k]-th such
    token. *)
Theorem getTextFromHTML_in_document_order (input : string)
    (tokens : list Token) (texts : list string) (counts : list Z) :
  getTextFromHTML input = Returns (tokens, texts, counts, None) ->
  exists ems,
    Emits (NewTokenizer (replaceNonUTF8Characters input)) ems io_EOF /\
    tokens = map emToken ems /\
    texts = concat (map sentencesOf (filter yieldsText ems)) /\
    counts = map countOf (filter yieldsText ems).
Proof.
  unfold getTextFromHTML. intros H.
  destruct (getTextFromHTML_loop _ _ _ _ _) as [result|] eqn:Hloop;
    [|discriminate].
  injection H as ->.
  apply getTextFromHTML_loop_sound in Hloop as (ems & Hems & -> & -> & ->).
  exists ems. repeat split; assumption.
Qed.


End Extraction.

Lemma getTextFromHTML_in_document_order_reference :
  exists ems,
    Emits (html := htmlRef)
      (NewTokenizer (replaceNonUTF8Characters "<p>Hello world. How are you?</p>"))
      ems io_EOF /\
    [mkToken StartTagToken 0 "p" []; mkToken TextToken 0 "" [];
     mkToken EndTagToken 0 "p" []] = map emToken ems /\
    ["Hello world."; "How are you?"] =
      concat (map (sentencesOf (sentencizer := sentencizerRef))
                (filter yieldsText ems)) /\
    [2%Z] = map (countOf (sentencizer := sentencizerRef)) (filter yieldsText ems).
Proof.
  apply (getTextFromHTML_in_document_order (html := htmlRef)
           (sentencizer := sentencizerRef) "<p>Hello world. How are you?</p>").
  reflexivity.
Defined.


(** ** Reconstruction *)

Section Reconstruction.
Context {html : Html.Package}.

(** X8.  The inner loop of [reconstructHTML] writes the next [count]
    translated sentences from [textIndex] on, in order and with nothing
    between them; where fewer are left it writes those and stops without an
    error, and [textIndex] advances by the number written. *)
Theorem writeSentences_writes_next (count : nat)
    (translatedSentences : list string) (sb : Builder) (textIndex : nat) :
  writeSentences count translatedSentences sb textIndex =
  (sb +:+ String.concat "" (take count (drop textIndex translatedSentences)),
   textIndex + length (take count (drop textIndex translatedSentences))).
Proof.
  revert sb textIndex. induction count as [|count IH]; intros sb textIndex.
  - cbn [writeSentences take String.concat length].
    now rewrite app_nil_right, Nat.add_0_r.
  - cbn [writeSentences].
    destruct (translatedSentences !! textIndex) as [sentence|] eqn:Hlookup.
    + rewrite IH, (drop_S _ _ _ Hlookup). cbn [take length].
      rewrite concat_empty_cons. unfold WriteString.
      rewrite app_associative. f_equal. lia.
    + rewrite IH. apply lookup_ge_None in Hlookup.
      rewrite (drop_ge _ _ Hlookup). now destruct count.
Qed.

Lemma reconstructHTML_loop_panics (tokens : list Token)
    (translatedSentences : list string) (sentenceCounts : list Z) :
  forall sb textIndex sentenceIndex,
    sentenceIndex <= length sentenceCounts ->
    length sentenceCounts < sentenceIndex + length (textTokens tokens) ->
    reconstructHTML_loop tokens translatedSentences sentenceCounts
      sb textIndex sentenceIndex =
    Panics (IndexOutOfRange (length sentenceCounts) (length sentenceCounts)).
Proof.
  induction tokens as [|token tokens IH]; intros sb textIndex sentenceIndex Hle Hlt.
  - cbn in Hlt. lia.
  - rewrite textTokens_cons in Hlt. cbn [reconstructHTML_loop].
    destruct (Typ token); cbn [isTextToken length] in Hlt;
      try (apply IH; assumption).
    destruct (sentenceCounts !! sentenceIndex) as [count|] eqn:Hcount.
    + apply lookup_lt_Some in Hcount.
      destruct (writeSentences _ _ _ _) as [sb' textIndex'].
      apply IH; lia.
    + apply lookup_ge_None in Hcount.
      replace sentenceIndex with (length sentenceCounts) by lia. reflexivity.
Qed.

(** X4.  [reconstructHTML] reads one count for every text token, whatever
    the token holds: with at least as many counts as text tokens it
    returns, and with fewer it panics on the first text token past the
    counts, with the index and the length both equal to the number of
    counts. *)
Theorem reconstructHTML_needs_a_count_per_text_token (tokens : list Token)
    (translatedSentences : list string) (sentenceCounts : list Z) :
  (length (textTokens tokens) <= length sentenceCounts ->
   exists s,
     reconstructHTML tokens translatedSentences sentenceCounts = Returns s) /\
  (length sentenceCounts < length (textTokens tokens) ->
   reconstructHTML tokens translatedSentences sentenceCounts =
   Panics (IndexOutOfRange (length sentenceCounts) (length sentenceCounts))).
Proof.
  split.
  - intros H. unfold reconstructHTML.
    apply reconstructHTML_loop_returns; lia.
  - intros H. unfold reconstructHTML.
    apply reconstructHTML_loop_panics; lia.
Qed.

Lemma reconstructHTML_loop_markup (tokens : list Token)
    (translatedSentences : list string) (sentenceCounts : list Z) :
  Forall (fun token => Typ token <> TextToken) tokens ->
  forall sb textIndex sentenceIndex,
    reconstructHTML_loop tokens translatedSentences sentenceCounts
      sb textIndex sentenceIndex =
    Returns (sb +:+ String.concat "" (map Token_String tokens)).
Proof.
  induction 1 as [|token tokens Htoken _ IH]; intros sb textIndex sentenceIndex.
  - cbn. now rewrite app_nil_right.
  - cbn [reconstructHTML_loop map]. rewrite concat_empty_cons.
    destruct (Typ token); try congruence; rewrite IH; unfold WriteString;
      now rewrite app_associative.
Qed.

(** X7.  On tokens none of which is a text token, [reconstructHTML]
    returns the strings of the tokens one after the other: it reads no count
    (and so does not panic), and the translated sentences it is given are
    all left out. *)
Theorem reconstructHTML_markup_only (tokens : list Token)
    (translatedSentences : list string) (sentenceCounts : list Z) :
  Forall (fun token => Typ token <> TextToken) tokens ->
  reconstructHTML tokens translatedSentences sentenceCounts =
  Returns (String.concat "" (map Token_String tokens)).
Proof.
  intros H. unfold reconstructHTML.
  now rewrite reconstructHTML_loop_markup.
Qed.

Lemma reconstructHTML_loop_ignores (tokens tokens' : list Token)
    (translatedSentences : list string) (sentenceCounts : list Z) :
  Forall2 (fun a b => Typ a = Typ b /\
                      (Typ a <> TextToken -> Token_String a = Token_String b))
    tokens tokens' ->
  forall sb textIndex sentenceIndex,
    reconstructHTML_loop tokens translatedSentences sentenceCounts
      sb textIndex sentenceIndex =
    reconstructHTML_loop tokens' translatedSentences sentenceCounts
      sb textIndex sentenceIndex.
Proof.
  induction 1 as [|a b tokens tokens' [Htyp Hstr] _ IH];
    intros sb textIndex sentenceIndex; [reflexivity|].
  cbn [reconstructHTML_loop]. rewrite <- Htyp.
  destruct (Typ a) eqn:Ha;
    try (rewrite Hstr by discriminate; apply IH).
  destruct (sentenceCounts !! sentenceIndex); [|reflexivity].
  destruct (writeSentences _ _ _ _). apply IH.
Qed.

(** X6.  [reconstructHTML] writes nothing of what a text token holds: two
    token lists with the same types, token by token, whose tokens other than
    text tokens print alike, give the same result.  The text of the document
    reaches the output through the translated sentences only. *)
Theorem reconstructHTML_ignores_source_text (tokens tokens' : list Token)
    (translatedSentences : list string) (sentenceCounts : list Z) :
  Forall2 (fun a b => Typ a = Typ b /\
                      (Typ a <> TextToken -> Token_String a = Token_String b))
    tokens tokens' ->
  reconstructHTML tokens translatedSentences sentenceCounts =
  reconstructHTML tokens' translatedSentences sentenceCounts.
Proof.
  intros H. unfold reconstructHTML. now apply reconstructHTML_loop_ignores.
Qed.

End Reconstruction.

Lemma reconstructHTML_markup_only_reference :
  reconstructHTML (html := htmlRef)
    [mkToken StartTagToken 0 "br" []; mkToken EndTagToken 0 "br" []]
    ["Hola"] [] =
  Returns (String.concat ""
             (map (Token_String (Package := htmlRef))
                [mkToken StartTagToken 0 "br" []; mkToken EndTagToken 0 "br" []])).
Proof.
  apply (reconstructHTML_markup_only (html := htmlRef)).
  repeat constructor; discriminate.
Defined.

Lemma reconstructHTML_ignores_source_text_reference :
  reconstructHTML (html := htmlRef)
    [mkToken StartTagToken 0 "p" []; mkToken TextToken 0 "Hello" [];
     mkToken EndTagToken 0 "p" []] ["Hola"] [1%Z] =
  reconstructHTML (html := htmlRef)
    [mkToken StartTagToken 0 "p" []; mkToken TextToken 0 "" [];
     mkToken EndTagToken 0 "p" []] ["Hola"] [1%Z].
Proof.
  apply (reconstructHTML_ignores_source_text (html := htmlRef)).
  repeat constructor; cbn; congruence.
Defined.

(** ** Extraction and reconstruction together *)

Section BlankText.
Context {html : Html.Package} {sentencizer : Sentencizer.Package}.

Lemma text_tokens_and_counts (ems : list Emitted) :
  Forall (fun em => Typ (emToken em) = emType em) ems ->
  length (filter yieldsText ems) <= length (textTokens (map emToken ems)) /\
  (length (textTokens (map emToken ems)) <= length (filter yieldsText ems) <->
   Forall (fun em => emType em = TextToken -> TrimSpace (emText em) <> "") ems).
Proof.
  induction 1 as [|em ems Htyp _ [IHle IH]].
  - cbn. split; [lia|]. split; [constructor | lia].
  - cbn [map]. rewrite textTokens_cons, filter_bool_cons, Forall_cons, Htyp.
    assert (Hy : yieldsText em =
                 isTextToken (emType em) &&
                 negb (String.eqb (TrimSpace (emText em)) "")) by reflexivity.
    rewrite Hy. clear Hy.
    destruct (emType em) eqn:Hem; cbn [isTextToken andb];
      try (split; [assumption|]; rewrite IH; split;
           [intros ?; split; [discriminate | assumption] | tauto]).
    destruct (String.eqb_spec (TrimSpace (emText em)) "") as [Hblank|Hblank];
      cbn [negb length].
    + split; [lia|]. split; [lia|]. intros [Hhead _]. now destruct Hhead.
    + split; [lia|]. rewrite <- IH. split; [intros ?; split; [tauto | lia] | lia].
Qed.

(** X5.  The tokens and the counts that [getTextFromHTML] returns fit
    [reconstructHTML] exactly when no text token of the document is blank.
    [getTextFromHTML] keeps every text token but records a count only for
    those whose trimmed text is not empty, and [reconstructHTML] reads a
    count for every text token: where the tokens returned by [Token] carry
    the type [Next] reported, the reconstruction returns if and only if the
    trimmed text of every text token is not empty, whatever the translated
    sentences are. *)
Theorem blank_text_token_breaks_reconstruction (input : string)
    (tokens : list Token) (texts : list string) (counts : list Z)
    (translatedSentences : list string) :
  getTextFromHTML input = Returns (tokens, texts, counts, None) ->
  exists ems,
    Emits (NewTokenizer (replaceNonUTF8Characters input)) ems io_EOF /\
    tokens = map emToken ems /\
    (Forall (fun em => Typ (emToken em) = emType em) ems ->
     ((exists s,
          reconstructHTML tokens translatedSentences counts = Returns s) <->
      Forall (fun em => emType em = TextToken -> TrimSpace (emText em) <> "")
        ems)).
Proof.
  unfold getTextFromHTML. intros H.
  destruct (getTextFromHTML_loop _ _ _ _ _) as [result|] eqn:Hloop;
    [|discriminate].
  injection H as ->.
  apply getTextFromHTML_loop_sound in Hloop as (ems & Hems & -> & -> & ->).
  exists ems. split; [assumption|]. split; [reflexivity|].
  intros Htyped. cbn [app].
  rewrite reconstructHTML_returns_iff, length_map.
  now apply text_tokens_and_counts.
Qed.

End BlankText.

Lemma blank_text_token_breaks_reconstruction_reference :
  exists ems,
    Emits (html := htmlRef)
      (NewTokenizer
         (replaceNonUTF8Characters "<p>Hello world.</p> <p>How are you?</p>"))
      ems io_EOF /\
    [mkToken StartTagToken 0 "p" []; mkToken TextToken 0 "" [];
     mkToken EndTagToken 0 "p" []; mkToken TextToken 0 "" [];
     mkToken StartTagToken 0 "p" []; mkToken TextToken 0 "" [];
     mkToken EndTagToken 0 "p" []] = map emToken ems /\
    (Forall (fun em => Typ (emToken em) = emType em) ems ->
     ((exists s,
          reconstructHTML (html := htmlRef)
            [mkToken StartTagToken 0 "p" []; mkToken TextToken 0 "" [];
             mkToken EndTagToken 0 "p" []; mkToken TextToken 0 "" [];
             mkToken StartTagToken 0 "p" []; mkToken TextToken 0 "" [];
             mkToken EndTagToken 0 "p" []]
            ["Hola mundo."; "¿Cómo estás?"] [1%Z; 1%Z] = Returns s) <->
      Forall (fun em => emType em = TextToken -> TrimSpace (emText em) <> "")
        ems)).
Proof.
  apply (blank_text_token_breaks_reconstruction (html := htmlRef)
           (sentencizer := sentencizerRef)
           "<p>Hello world.</p> <p>How are you?</p>" _
           ["Hello world."; "How are you?"]).
  reflexivity.
Defined.

(** ** The classifier and concatenation *)

Lemma occurs_embedded (substr text before after : string) :
  occurs substr text -> occurs substr (before +:+ text +:+ after).
Proof.
  intros (b & a & ->). exists (before +:+ b), (a +:+ after).
  now rewrite !app_associative.
Qed.

Lemma occurs_first_byte (c : ascii) (rest text : string) :
  occurs (String c rest) text -> exists n, String.get n text = Some c.
Proof.
  intros (before & after & ->).
  induction before as [|d before [n IH]]; [now exists 0|].
  exists (S n). now rewrite app_cons.
Qed.

(** X9.  The classification is kept by every text that holds a text
    classified as markup: whatever is written before and after it, the whole
    is markup as well; and a text without the byte ["<"] is plain. *)
Theorem isHTML_of_embedded_text :
  (forall before text after,
      isHTML text = true -> isHTML (before +:+ text +:+ after) = true) /\
  (forall text,
      (forall n, String.get n text <> Some "<"%char) -> isHTML text = false).
Proof.
  split.
  - intros before text after. unfold isHTML.
    rewrite !orb_true_iff, !Contains_spec.
    intros [[[H|H]|H]|H]; eauto using occurs_embedded.
  - intros text Hnone. unfold isHTML.
    rewrite !orb_false_iff. repeat split;
      (destruct (Contains text _) eqn:H; [|reflexivity];
       apply Contains_spec, occurs_first_byte in H as [n H];
       now apply Hnone in H).
Qed.

(** ** Bytes that are not UTF-8 *)

Lemma takeBytes_dropBytes (w : nat) (s : string) :
  takeBytes w s +:+ dropBytes w s = s.
Proof.
  revert s. induction w as [|w IH]; intros s; [reflexivity|].
  destruct s as [|c s]; [reflexivity|].
  cbn [takeBytes dropBytes]. rewrite app_cons. now f_equal.
Qed.

Lemma takeBytes_app (w : nat) (s t : string) :
  w <= String.length s -> takeBytes w (s +:+ t) = takeBytes w s.
Proof.
  revert s. induction w as [|w IH]; intros s Hw; [reflexivity|].
  destruct s as [|c s]; simpl in Hw; [lia|].
  rewrite app_cons. cbn [takeBytes]. f_equal. apply IH. lia.
Qed.

Lemma length_takeBytes (w : nat) (s : string) :
  w <= String.length s -> String.length (takeBytes w s) = w.
Proof.
  revert s. induction w as [|w IH]; intros s Hw; [reflexivity|].
  destruct s as [|c s]; simpl in Hw; [lia|].
  cbn [takeBytes String.length]. f_equal. apply IH. lia.
Qed.

Lemma takeBytes_all (s : string) : takeBytes (String.length s) s = s.
Proof. induction s as [|c s IH]; [reflexivity|]. cbn. now f_equal. Qed.

Lemma dropBytes_all (s : string) : dropBytes (String.length s) s = "".
Proof. induction s as [|c s IH]; [reflexivity|]. exact IH. Qed.

Lemma list_ascii_of_app (a b : string) :
  list_ascii_of_string (a +:+ b) = list_ascii_of_string a ++ list_ascii_of_string b.
Proof.
  induction a as [|c a IH]; [reflexivity|].
  rewrite app_cons. cbn [list_ascii_of_string]. now rewrite IH.
Qed.

Lemma runeWidth_le (s : string) : runeWidth s <= String.length s.
Proof.
  destruct s as [|c [|d [|e [|f s]]]]; cbv [runeWidth]; cbn [String.length];
    split_tests; lia.
Qed.

(** The width is read off the sequence itself: what follows it does not
    count. *)
Lemma runeWidth_takeBytes (s t : string) :
  runeWidth s <> 0 ->
  runeWidth (takeBytes (runeWidth s) s +:+ t) = runeWidth s.
Proof.
  destruct s as [|c [|d [|e [|f s]]]]; cbv [runeWidth];
    split_tests; cbn [takeBytes]; rewrite ?app_cons, ?app_nil_left;
    intros Hw; try congruence;
    repeat match goal with
           | H : ?b = _ |- context [if ?b then _ else _] => rewrite H
           end; reflexivity.
Qed.

(** X10.  [replaceNonUTF8Characters] leaves a text of ASCII bytes as it
    is. *)
Theorem replaceNonUTF8Characters_keeps_ascii (text : string) :
  Forall (fun c => nat_of_ascii c < 128) (list_ascii_of_string text) ->
  replaceNonUTF8Characters text = text.
Proof.
  unfold replaceNonUTF8Characters, ToValidUTF8_empty.
  induction text as [|c text IH]; intros H; [reflexivity|].
  cbn [list_ascii_of_string] in H. apply Forall_cons in H as [Hc H].
  cbn [String.length toValid].
  assert (Hw : runeWidth (String c text) = 1).
  { cbn [runeWidth]. apply Nat.ltb_lt in Hc. now rewrite Hc. }
  rewrite Hw. cbn [takeBytes dropBytes]. rewrite app_cons, app_nil_left.
  f_equal. now apply IH.
Qed.

Lemma toValid_sublist (fuel : nat) :
  forall s, list_ascii_of_string (toValid fuel s) `sublist_of` list_ascii_of_string s.
Proof.
  induction fuel as [|fuel IH]; intros s; [apply sublist_nil_l|].
  destruct s as [|c s]; [reflexivity|]. cbn [toValid].
  destruct (runeWidth (String c s)) as [|w] eqn:Hw.
  - cbn [list_ascii_of_string]. apply sublist_cons, IH.
  - assert (Hs : list_ascii_of_string (String c s) =
                 list_ascii_of_string (takeBytes (S w) (String c s)) ++
                 list_ascii_of_string (dropBytes (S w) (String c s)))
      by (now rewrite <- list_ascii_of_app, takeBytes_dropBytes).
    rewrite list_ascii_of_app, Hs.
    apply sublist_app; [reflexivity | apply IH].
Qed.

(** X11.  [replaceNonUTF8Characters] only deletes bytes: what it returns is
    the input with some bytes left out, the others in their order. *)
Theorem replaceNonUTF8Characters_only_deletes (text : string) :
  list_ascii_of_string (replaceNonUTF8Characters text)
    `sublist_of` list_ascii_of_string text.
Proof. apply toValid_sublist. Qed.

Lemma toValid_empty (fuel : nat) : toValid fuel "" = "".
Proof. now destruct fuel. Qed.

Lemma toValid_fixed (n : nat) :
  forall s k,
    String.length (toValid n s) <= k ->
    toValid k (toValid n s) = toValid n s.
Proof.
  induction n as [|n IH]; intros s k Hk; [apply toValid_empty|].
  destruct s as [|c s]; [apply toValid_empty|]. cbn [toValid] in Hk |- *.
  destruct (runeWidth (String c s)) as [|w] eqn:Hw; [now apply IH|].
  rewrite <- Hw in Hk |- *.
  assert (Hpos : runeWidth (String c s) <> 0) by lia.
  pose proof (runeWidth_le (String c s)) as Hle.
  pose proof (length_takeBytes _ _ Hle) as Hlen.
  set (chunk := takeBytes (runeWidth (String c s)) (String c s)) in *.
  set (rest := toValid n (dropBytes (runeWidth (String c s)) (String c s))) in *.
  rewrite length_app_bytes, Hlen in Hk.
  destruct k as [|k]; [lia|].
  assert (Hchunk : exists chunk', chunk = String c chunk').
  { subst chunk. rewrite Hw. cbn [takeBytes]. eauto. }
  destruct Hchunk as [chunk' Hchunk].
  assert (Hwidth : runeWidth (chunk +:+ rest) = runeWidth (String c s))
    by (apply runeWidth_takeBytes; assumption).
  rewrite Hchunk, app_cons in Hwidth |- *. cbn [toValid]. rewrite Hwidth, Hw.
  rewrite <- Hw, <- app_cons, <- Hchunk.
  rewrite takeBytes_app, dropBytes_app by lia.
  rewrite <- Hlen at 1 2. rewrite takeBytes_all, dropBytes_all, app_nil_left.
  f_equal. subst rest. apply IH. lia.
Qed.

(** X12.  [replaceNonUTF8Characters] changes nothing in what it
    returns: applied twice it gives what it gives applied once. *)
Theorem replaceNonUTF8Characters_idempotent (text : string) :
  replaceNonUTF8Characters (replaceNonUTF8Characters text) =
  replaceNonUTF8Characters text.
Proof.
  unfold replaceNonUTF8Characters, ToValidUTF8_empty.
  now apply toValid_fixed.
Qed.

Lemma replaceNonUTF8Characters_keeps_ascii_example :
  replaceNonUTF8Characters "<p>Hello</p>" = "<p>Hello</p>".
Proof.
  apply replaceNonUTF8Characters_keeps_ascii.
  repeat constructor; cbn; lia.
Defined.

(** * More of [main.go] *)

(** ** Validation and the early answers *)

(** X13.  [validateRequest] accepts a request exactly when its three fields
    are not empty, and reports one missing field only, the first in the
    order source language, target language, text. *)
Theorem validateRequest_first_missing_field (request : TranslateRequest) :
  (validateRequest request = None <->
   SourceLanguage request <> "" /\ TargetLanguage request <> "" /\
   Text request <> "") /\
  (SourceLanguage request = "" ->
   validateRequest request = Some (errorString "source_language is required")) /\
  (SourceLanguage request <> "" -> TargetLanguage request = "" ->
   validateRequest request = Some (errorString "target_language is required")) /\
  (SourceLanguage request <> "" -> TargetLanguage request <> "" ->
   Text request = "" ->
   validateRequest request = Some (errorString "text is required")).
Proof.
  unfold validateRequest.
  destruct (String.eqb_spec (SourceLanguage request) "") as [Hs|Hs];
    [repeat split; try congruence; try discriminate; tauto|].
  destruct (String.eqb_spec (TargetLanguage request) "") as [Ht|Ht];
    [repeat split; try congruence; try discriminate; tauto|].
  destruct (String.eqb_spec (Text request) "") as [Hx|Hx];
    repeat split; try congruence; try discriminate; tauto.
Qed.

Section EarlyAnswers.
Context {html : Html.Package} {sentencizer : Sentencizer.Package}.
Context {sha256 : Sha256.Package} {json : Json.Package}.
Context {World : Type}.
Context {dynamoClient : DynamoDBClient World}.
Context {translateClient : TranslateClient World}.
Variable translateTableName : string.

(** X14.  A body that cannot be decoded and a request that fails the
    validation are answered 400 before any client is called: the body is
    "Invalid request format" in the first case and the text of the validation
    error in the second, and the machine is left as it was. *)
Theorem rejected_request_makes_no_call (sched : list Pick)
    (event : APIGatewayProxyRequest) (m : Machine World) :
  (forall request err,
      Json.Unmarshal (EventBody event) = (request, Some err) ->
      handle translateTableName sched event m =
      (Returns (mkResponse StatusBadRequest "Invalid request format", None), m)) /\
  (forall request err,
      Json.Unmarshal (EventBody event) = (request, None) ->
      validateRequest request = Some err ->
      handle translateTableName sched event m =
      (Returns (mkResponse StatusBadRequest (Error err), None), m)).
Proof.
  split; intros request err Hbody; [|intros Hvalid];
    unfold handle, unmarshalRequest; rewrite Hbody; [reflexivity|].
  now rewrite Hvalid.
Qed.

(** X15.  When the provider cannot list its languages (the call fails, or
    it returns no list), the handler answers 500 "Error checking supported
    languages" after that one call: nothing is tokenized and no task is
    started. *)
Theorem language_check_failure_stops_the_handler (sched : list Pick)
    (event : APIGatewayProxyRequest) (request : TranslateRequest)
    (m : Machine World) (out : option ListLanguagesOutput) (err : option error)
    (w : World) :
  unmarshalRequest (EventBody event) = (request, None) ->
  validateRequest request = None ->
  ListLanguages false mkListLanguagesInput (world m) = ((out, err), w) ->
  err <> None \/ (exists listed, out = Some listed /\ Languages listed = None) ->
  handle translateTableName sched event m =
  (Returns (mkResponse StatusInternalServerError
              "Error checking supported languages", None),
   mkMachine w (calls m ++ [ListLanguagesCall mkListLanguagesInput (out, err)])
     (slots m)).
Proof.
  intros Hbody Hvalid Hlist Hcase.
  unfold handle. rewrite Hbody, Hvalid.
  unfold andThen, exec, doesTargetLanguageExist, getSupportedLanguages.
  cbn [bind runProg]. rewrite Hlist.
  destruct err as [e|]; [reflexivity|].
  destruct Hcase as [Hcase | (listed & -> & Hnone)]; [congruence|].
  cbn [deref bind]. rewrite Hnone. reflexivity.
Qed.

(** X16.  [doesTargetLanguageExist] makes one call, and with the codes the
    provider lists it answers whether the target language is one of them,
    by an exact comparison of the codes. *)
Theorem doesTargetLanguageExist_is_membership (done : Context -> bool)
    (ctx : Context) (targetLanguage : string) (m : Machine World)
    (out : ListLanguagesOutput) (langs : list Language) (codes : list string)
    (w : World) :
  ListLanguages (done ctx) mkListLanguagesInput (world m) = ((Some out, None), w) ->
  Languages out = Some langs ->
  map LanguageCode langs = map Some codes ->
  exists supported,
    runProg done (doesTargetLanguageExist ctx targetLanguage) m =
    (Returns (supported, None),
     mkMachine w
       (calls m ++ [ListLanguagesCall mkListLanguagesInput (Some out, None)])
       (slots m)) /\
    (supported = true <-> In targetLanguage codes).
Proof.
  intros Hlist Hlangs Hcodes.
  exists (slices_Contains codes targetLanguage). split.
  - unfold doesTargetLanguageExist, getSupportedLanguages.
    cbn [bind runProg]. rewrite Hlist. cbn [deref bind]. rewrite Hlangs.
    rewrite !runProg_bind, (runProg_languageCodes _ _ codes) by assumption.
    reflexivity.
  - unfold slices_Contains. rewrite existsb_exists. split.
    + intros (x & Hin & Heq). apply String.eqb_eq in Heq. now subst.
    + intros Hin. exists targetLanguage. split; [assumption|].
      apply String.eqb_refl.
Qed.

(** X19.  The handler reports every failure in the response: whenever it
    returns, the error it returns is [nil], and the status is 200, 400, 422
    or 500. *)
Theorem handle_never_returns_an_error (sched : list Pick)
    (event : APIGatewayProxyRequest) (m m' : Machine World)
    (response : APIGatewayProxyResponse) (err : option error) :
  handle translateTableName sched event m = (Returns (response, err), m') ->
  err = None /\
  (StatusCode response = StatusOK \/ StatusCode response = StatusBadRequest \/
   StatusCode response = StatusUnprocessableEntity \/
   StatusCode response = StatusInternalServerError).
Proof.
  unfold handle, respond, ret, andThen, lift.
  destruct (unmarshalRequest (EventBody event)) as [request [e|]];
    [intros H; injection H as <- <- _; tauto|].
  destruct (validateRequest request);
    [intros H; injection H as <- <- _; tauto|].
  destruct (exec _ m) as [[[supported [e|]]|pn|] m1]; try discriminate;
    [intros H; injection H as <- <- _; tauto|].
  destruct supported; cbn [negb];
    [|intros H; injection H as <- <- _; tauto].
  destruct (extractSentences request)
    as [[htmlContent [[[tokens sentences] counts] [e|]]]|pn|];
    try discriminate; [intros H; injection H as <- <- _; tauto|].
  destruct (translateSentences _ _ _ _ m1) as [[[translated [e|]]|pn|] m2];
    try discriminate; [intros H; injection H as <- <- _; tauto|].
  destruct (if htmlContent then _ else _) as [text|pn|]; try discriminate.
  destruct (marshalResponse _) as [body [e|]];
    intros H; injection H as <- <- _; tauto.
Qed.

End EarlyAnswers.

Lemma language_check_failure_unavailable :
  handle (html := htmlRef) (sentencizer := sentencizerRef) (sha256 := sha256Ref)
    (json := Mock.json Mock.decode) (dynamoClient := Mock.dynamoClient)
    (translateClient := unavailableTranslateClient)
    "TranslateCache" [] (mkEvent "en|es|Hello") (mkMachine ∅ [] []) =
  (Returns (mkResponse StatusInternalServerError
              "Error checking supported languages", None),
   mkMachine ∅
     [ListLanguagesCall mkListLanguagesInput
        (None, Some (errorString "service unavailable"))] []).
Proof.
  apply (language_check_failure_stops_the_handler (html := htmlRef)
           (sentencizer := sentencizerRef) (sha256 := sha256Ref)
           (json := Mock.json Mock.decode) (dynamoClient := Mock.dynamoClient)
           (translateClient := unavailableTranslateClient)
           "TranslateCache" [] (mkEvent "en|es|Hello")
           (mkTranslateRequest "en" "es" "Hello") (mkMachine ∅ [] [])
           None (Some (errorString "service unavailable")) ∅);
    try reflexivity.
  left. discriminate.
Defined.

Lemma doesTargetLanguageExist_is_membership_mock :
  exists supported,
    runProg (dynamoClient := Mock.dynamoClient)
      (translateClient := Mock.translateClient ["es"; "fr"] Mock.spanish)
      (fun _ => false) (doesTargetLanguageExist ctxHandler "fr")
      (mkMachine ∅ [] []) =
    (Returns (supported, None),
     mkMachine ∅
       [ListLanguagesCall mkListLanguagesInput
          (Some (mkListLanguagesOutput
                   (Some [mkLanguage (Some "es"); mkLanguage (Some "fr")])),
           None)] []) /\
    (supported = true <-> In "fr" ["es"; "fr"]).
Proof.
  apply (doesTargetLanguageExist_is_membership
           (dynamoClient := Mock.dynamoClient)
           (translateClient := Mock.translateClient ["es"; "fr"] Mock.spanish)
           (fun _ => false) ctxHandler "fr" (mkMachine ∅ [] [])
           (mkListLanguagesOutput
              (Some [mkLanguage (Some "es"); mkLanguage (Some "fr")]))
           [mkLanguage (Some "es"); mkLanguage (Some "fr")] ["es"; "fr"] ∅);
    reflexivity.
Defined.

Lemma handle_never_returns_an_error_mock :
  @None error = None /\
  (StatusCode (mkResponse StatusBadRequest "text is required") = StatusOK \/
   StatusCode (mkResponse StatusBadRequest "text is required") =
     StatusBadRequest \/
   StatusCode (mkResponse StatusBadRequest "text is required") =
     StatusUnprocessableEntity \/
   StatusCode (mkResponse StatusBadRequest "text is required") =
     StatusInternalServerError).
Proof.
  apply (handle_never_returns_an_error (html := htmlRef)
           (sentencizer := sentencizerRef) (sha256 := sha256Ref)
           (json := Mock.json Mock.decode) (dynamoClient := Mock.dynamoClient)
           (translateClient := Mock.translateClient ["es"] Mock.spanish)
           "TranslateCache" [] (mkEvent "en|es|") (mkMachine ∅ [] [])
           (mkMachine ∅ [] [])).
  reflexivity.
Defined.

(** ** The runs of a task *)

Section TaskProtocol.
Context {sha256 : Sha256.Package}.
Context {World : Type}.
Context {dynamoClient : DynamoDBClient World}.
Context {translateClient : TranslateClient World}.
Variable translateTableName : string.

(** X17.  A task, run with clients that keep their contract and a slot of
    its own, returns, and goes one of five ways.  It looks its sentence up in
    the cache first, under the fingerprint of the sentence and the two
    languages; a failed lookup ends it.  An item found is stored in the slot
    with no other call.  Only when no item is found does it call the
    provider, and only with a translation does it write to the cache, the
    item under the same fingerprint; a failure of either call ends it with
    the slot untouched, so a translation that cannot be cached is lost.  The
    slot is written last, and only by a task that returns [nil]. *)
Theorem task_goes_one_of_five_ways (laws : ClientLaws) (done : Context -> bool)
    (request : TranslateRequest) (index : nat) (token : string)
    (m : Machine World) :
  index < length (slots m) ->
  exists err m',
    runProg done (translateTask translateTableName request index token) m =
      (Returns err, m') /\
    TaskRun translateTableName request token index m err m'.
Proof.
  intros Hindex.
  unfold translateTask, shouldCacheBeUsed. cbn [bind runProg].
  pose proof (GetItem_lawful laws (done ctxGroup)
                (mkGetItemInput (Some translateTableName)
                   {[ "hash" := AttributeValueMemberS
                        (getHashFromText
                           (Sprintf_s_s_s (SourceLanguage request)
                              (TargetLanguage request) token)) ]})
                (world m)) as Hget.
  destruct (GetItem _ _ _) as [[response [err|]] w] eqn:Eget; cbn [fst] in Hget.
  { cbn [bind runProg]. do 2 eexists. split; [reflexivity|].
    apply lookup_failed with (out := (response, Some err)); reflexivity. }
  destruct (Hget eq_refl) as (resp & Hresp & Hitem). cbn in Hresp. subst response.
  cbn [deref bind].
  destruct (GetItemOutput_Item resp) as [item|] eqn:Hfound.
  - destruct (Hitem item eq_refl)
      as ([h Hh] & [t Ht] & [s Hs] & [sl Hsl] & [tl Htl]).
    rewrite Hh, Ht, Hs, Hsl, Htl.
    cbn [assertS bind Cache.TranslatedText runProg].
    unfold store. cbn [slots logCall].
    destruct (decide (index < length (slots m))) as [_|Hout]; [|lia].
    cbn [runProg]. do 2 eexists. split; [reflexivity|].
    apply served_from_cache with (response := resp) (item := item) (text := t);
      try assumption;
        cbn [logCall calls slots]; rewrite <- ?app_assoc; reflexivity.
  - cbn [bind]. unfold translateLanguage. cbn [bind runProg].
    match goal with
    | |- context [TranslateText ?d ?p ?w] =>
        pose proof (TranslateText_lawful laws d p w) as Htr;
        destruct (TranslateText d p w) as [[output [err|]] w1] eqn:Etr
    end; cbn [fst] in Htr.
    { cbn [bind runProg]. do 2 eexists. split; [reflexivity|].
      apply translation_failed with (response := resp) (out := (output, Some err));
        try assumption;
        cbn [logCall calls slots]; rewrite <- ?app_assoc; reflexivity. }
    destruct (Htr eq_refl) as (out & text & Hout & Htext). cbn in Hout. subst output.
    cbn [deref bind]. rewrite Htext. cbn [deref bind TranslatedText].
    unfold cacheTranslatedText. cbn [bind runProg].
    destruct (PutItem _ _ _) as [[stored [err|]] w2] eqn:Eput.
    { cbn [bind runProg]. do 2 eexists. split; [reflexivity|].
      apply store_failed with (response := resp) (output := out) (text := text)
                              (out := (stored, Some err));
        try assumption;
        cbn [logCall calls slots]; rewrite <- ?app_assoc; reflexivity. }
    cbn [bind runProg]. unfold store. cbn [slots logCall].
    destruct (decide (index < length (slots m))) as [_|Hout]; [|lia].
    cbn [runProg]. do 2 eexists. split; [reflexivity|].
    apply translated_and_stored with (response := resp) (output := out)
                                     (text := text) (out := (stored, None));
      try assumption;
        cbn [logCall calls slots]; rewrite <- ?app_assoc; reflexivity.
Qed.

End TaskProtocol.

Lemma task_goes_one_of_five_ways_mock :
  exists err m',
    runProg (dynamoClient := Mock.dynamoClient)
      (translateClient := Mock.translateClient ["es"] Mock.spanish)
      (fun _ => false)
      (translateTask (sha256 := sha256Ref) "TranslateCache"
         (mkTranslateRequest "en" "es" "Hello") 0 "Hello")
      (mkMachine ∅ [] [""]) = (Returns err, m') /\
    TaskRun (sha256 := sha256Ref) "TranslateCache"
      (mkTranslateRequest "en" "es" "Hello") "Hello" 0
      (mkMachine (∅ : Mock.Table) [] [""]) err m'.
Proof.
  apply (task_goes_one_of_five_ways (sha256 := sha256Ref) "TranslateCache"
           (mock_laws ["es"] Mock.spanish) (fun _ => false)
           (mkTranslateRequest "en" "es" "Hello") 0 "Hello"
           (mkMachine ∅ [] [""])).
  cbn. lia.
Defined.

(** ** The cache, written and read back *)

Lemma attributes_lookup (item : Cache.Item) :
  Mock.attributes item !! "hash" =
    Some (AttributeValueMemberS (Cache.Hash item)) /\
  Mock.attributes item !! "translated_text" =
    Some (AttributeValueMemberS (Cache.TranslatedText item)) /\
  Mock.attributes item !! "source_text" =
    Some (AttributeValueMemberS (Cache.SourceText item)) /\
  Mock.attributes item !! "source_language" =
    Some (AttributeValueMemberS (Cache.SourceLanguage item)) /\
  Mock.attributes item !! "target_language" =
    Some (AttributeValueMemberS (Cache.TargetLanguage item)).
Proof. unfold Mock.attributes. repeat split; simplify_map_eq; reflexivity. Qed.

Lemma itemOf_attributes (item : Cache.Item) :
  Mock.itemOf (Mock.attributes item) = Some item.
Proof.
  destruct (attributes_lookup item) as (Hh & Ht & Hs & Hsl & Htl).
  unfold Mock.itemOf. rewrite Hh, Ht, Hs, Hsl, Htl. now destruct item.
Qed.

Section CacheRoundTrip.
Context {sha256 : Sha256.Package}.
Variable languages : list string.
Variable translate : string -> string -> option string.
Variable translateTableName : string.
Variable request : TranslateRequest.
Variable token : string.

Local Abbreviation run index m :=
  (runProg (dynamoClient := Mock.dynamoClient)
     (translateClient := Mock.translateClient languages translate)
     (fun _ => false)
     (translateTask translateTableName request index token) m).

Local Abbreviation key :=
  (fingerprint (SourceLanguage request) (TargetLanguage request) token).

(** A task that finds its sentence in the table. *)
Lemma mock_task_hit (item : Cache.Item) (index : nat) (m : Machine Mock.Table) :
  world m !! key = Some item ->
  run index m =
  match store index (Cache.TranslatedText item)
          (logCall
             (lookupCall translateTableName request token
                (Some (mkGetItemOutput (Some (Mock.attributes item))), None))
             (world m) m) with
  | Some m' => (Returns None, m')
  | None =>
      (Panics (IndexOutOfRange index (length (slots m))),
       logCall
         (lookupCall translateTableName request token
            (Some (mkGetItemOutput (Some (Mock.attributes item))), None))
         (world m) m)
  end.
Proof.
  intros Hfound.
  unfold translateTask, shouldCacheBeUsed. cbn [bind runProg].
  cbn [GetItem Mock.dynamoClient]. unfold Mock.getItem.
  cbn [GetItemInput_Key]. rewrite lookup_singleton_eq. cbn [Mock.stringOf].
  fold key. rewrite Hfound. cbn [fmap option_fmap option_map].
  cbn [deref bind GetItemOutput_Item].
  destruct (attributes_lookup item) as (Hh & Ht & Hs & Hsl & Htl).
  rewrite Hh, Ht, Hs, Hsl, Htl. cbn [assertS bind Cache.TranslatedText runProg].
  unfold lookupCall, lookupInput. fold key.
  destruct (store _ _ _); reflexivity.
Qed.

(** A task that returns [nil] leaves its sentence in the table, with the
    text it stored in its slot. *)
Lemma mock_task_leaves_item (index : nat) (m m1 : Machine Mock.Table) :
  run index m = (Returns None, m1) ->
  exists item,
    world m1 !! key = Some item /\
    slots m1 !! index = Some (Cache.TranslatedText item).
Proof.
  destruct (world m !! key) as [item|] eqn:Hfound.
  - rewrite (mock_task_hit item) by assumption. unfold store.
    cbn [slots logCall calls world].
    destruct (decide (index < length (slots m))) as [Hin|Hout]; [|discriminate].
    intros H. injection H as <-. exists item. cbn [world slots].
    split; [assumption | now apply list_lookup_insert_eq].
  - unfold translateTask, shouldCacheBeUsed. cbn [bind runProg].
    cbn [GetItem Mock.dynamoClient]. unfold Mock.getItem.
    cbn [GetItemInput_Key]. rewrite lookup_singleton_eq. cbn [Mock.stringOf].
    fold key. rewrite Hfound. cbn [fmap option_fmap option_map].
    cbn [deref bind GetItemOutput_Item runProg].
    unfold translateLanguage. cbn [bind runProg].
    cbn [TranslateText Mock.translateClient]. unfold Mock.translateText.
    cbn [TranslateTextInput_Text TargetLanguageCode world logCall].
    destruct (translate token (TargetLanguage request)) as [text|];
      [|cbn [bind runProg]; discriminate].
    cbn [deref bind TranslateTextOutput_TranslatedText TranslatedText runProg].
    unfold cacheTranslatedText. cbn [bind runProg].
    cbn [PutItem Mock.dynamoClient]. unfold Mock.putItem.
    cbn [PutItemInput_Item world logCall Cache.Hash Cache.TranslatedText
         Cache.SourceText Cache.SourceLanguage Cache.TargetLanguage].
    change (Mock.itemOf _)
      with (Mock.itemOf
              (Mock.attributes
                 (Cache.mkItem key text token (SourceLanguage request)
                    (TargetLanguage request)))).
    rewrite itemOf_attributes. cbn [bind runProg Cache.Hash].
    unfold store. cbn [slots logCall calls world].
    destruct (decide (index < length (slots m))) as [Hin|Hout]; [|discriminate].
    intros H. injection H as <-. eexists. cbn [world slots].
    split; [apply lookup_insert_eq|].
    cbn [Cache.TranslatedText]. now apply list_lookup_insert_eq.
Qed.

(** X18.  What a task writes to the cache, a later task reads back.  On a
    table that keeps what is put in it, after a task for a sentence has
    returned [nil], a task for the same sentence and the same languages,
    whatever its slot and whatever the provider would answer now, makes one
    call, the lookup, finds the item, and stores the text the first task
    stored: the key it looks up is the key the first task wrote under, and
    the attributes it reads are the ones written. *)
Theorem second_translation_is_served_from_cache (index index' : nat)
    (m m1 m1' : Machine Mock.Table) :
  run index m = (Returns None, m1) ->
  world m1' = world m1 ->
  index' < length (slots m1') ->
  exists response text,
    slots m1 !! index = Some text /\
    run index' m1' =
    (Returns None,
     mkMachine (world m1')
       (calls m1' ++
        [lookupCall translateTableName request token (Some response, None)])
       (<[index' := text]> (slots m1'))).
Proof.
  intros Hrun Hworld Hindex'.
  apply mock_task_leaves_item in Hrun as (item & Hitem & Hslot).
  rewrite <- Hworld in Hitem.
  exists (mkGetItemOutput (Some (Mock.attributes item))),
         (Cache.TranslatedText item).
  split; [assumption|].
  rewrite (mock_task_hit item) by assumption. unfold store.
  cbn [slots logCall calls world].
  destruct (decide (index' < length (slots m1'))) as [_|Hout]; [reflexivity | lia].
Qed.

End CacheRoundTrip.

Lemma second_translation_is_served_from_cache_mock :
  exists response text,
    slots (snd (runProg (dynamoClient := Mock.dynamoClient)
                  (translateClient := Mock.translateClient ["es"] Mock.spanish)
                  (fun _ => false)
                  (translateTask (sha256 := sha256Ref) "TranslateCache"
                     (mkTranslateRequest "en" "es" "Hello") 0 "Hello")
                  (mkMachine ∅ [] [""]))) !! 0 = Some text /\
    runProg (dynamoClient := Mock.dynamoClient)
      (translateClient := Mock.translateClient ["es"] Mock.spanish)
      (fun _ => false)
      (translateTask (sha256 := sha256Ref) "TranslateCache"
         (mkTranslateRequest "en" "es" "Hello") 1 "Hello")
      (mkMachine
         (world (snd (runProg (dynamoClient := Mock.dynamoClient)
                        (translateClient := Mock.translateClient ["es"] Mock.spanish)
                        (fun _ => false)
                        (translateTask (sha256 := sha256Ref) "TranslateCache"
                           (mkTranslateRequest "en" "es" "Hello") 0 "Hello")
                        (mkMachine ∅ [] [""]))))
         [] [""; ""]) =
    (Returns None,
     mkMachine
       (world (snd (runProg (dynamoClient := Mock.dynamoClient)
                      (translateClient := Mock.translateClient ["es"] Mock.spanish)
                      (fun _ => false)
                      (translateTask (sha256 := sha256Ref) "TranslateCache"
                         (mkTranslateRequest "en" "es" "Hello") 0 "Hello")
                      (mkMachine ∅ [] [""]))))
       ([] ++
        [lookupCall (sha256 := sha256Ref) "TranslateCache"
           (mkTranslateRequest "en" "es" "Hello") "Hello"
           (Some response, None)])
       (<[1 := text]> [""; ""])).
Proof.
  apply (second_translation_is_served_from_cache (sha256 := sha256Ref)
           ["es"] Mock.spanish "TranslateCache"
           (mkTranslateRequest "en" "es" "Hello") "Hello" 0 1
           (mkMachine ∅ [] [""])).
  - vm_compute. reflexivity.
  - reflexivity.
  - cbn. lia.
Defined.

(** ** The answers of the handler to a batch *)

Section Answers.
Context {html : Html.Package} {sentencizer : Sentencizer.Package}.
Context {sha256 : Sha256.Package} {json : Json.Package}.
Context {World : Type}.
Context {dynamoClient : DynamoDBClient World}.
Context {translateClient : TranslateClient World}.
Variable translateTableName : string.

(** X20.  A plain text, from a valid request for a supported language and
    with clients that keep their contract, is answered in one of two ways,
    whatever the scheduler does.  If a call of a task failed, the answer is
    500 "Error during translation".  If none failed, the text is cut in
    sentences by [splitSentences], the sentence at [i] has its translation at
    [i], and the answer is the encoding of [reconstructPlainText] of the
    translations, with status 200, or 500 "Error marshalling response" when
    the encoder fails. *)
Theorem plain_text_answer (laws : ClientLaws) (sched : list Pick)
    (event : APIGatewayProxyRequest) (request : TranslateRequest)
    (m m1 : Machine World) :
  unmarshalRequest (EventBody event) = (request, None) ->
  validateRequest request = None ->
  exec (doesTargetLanguageExist ctxHandler (TargetLanguage request)) m =
    (Returns (true, None), m1) ->
  isHTML (Text request) = false ->
  exists translated new m2,
    calls m2 = calls m1 ++ new /\
    (((exists c, c ∈ new /\ failed c) /\
      handle translateTableName sched event m =
      (Returns (mkResponse StatusInternalServerError "Error during translation",
                None), m2)) \/
     ((forall c, c ∈ new -> ~ failed c) /\
      length translated = length (splitSentences (Text request)) /\
      (forall i sentence,
          splitSentences (Text request) !! i = Some sentence ->
          exists text,
            translated !! i = Some text /\
            Translates request sentence text new) /\
      handle translateTableName sched event m =
      (Returns
         (match marshalResponse
                  (mkTranslateResponse (reconstructPlainText translated) ""
                     0%float) with
          | (body, None) => mkResponse StatusOK body
          | (_, Some _) =>
              mkResponse StatusInternalServerError "Error marshalling response"
          end, None), m2))).
Proof.
  intros Hbody Hvalid Hlang Hplain.
  destruct (translateSentences_spec laws translateTableName request
              (splitSentences (Text request)) (calls m1) sched m1 eq_refl)
    as (translated & err & m2 & new & Hrun & Hcalls & Herr & Hok).
  exists translated, new, m2. split; [assumption|].
  assert (Hhandle :
    handle translateTableName sched event m =
    match err with
    | Some _ =>
        (Returns (mkResponse StatusInternalServerError "Error during translation",
                  None), m2)
    | None =>
        (Returns
           (match marshalResponse
                    (mkTranslateResponse (reconstructPlainText translated) ""
                       0%float) with
            | (body, None) => mkResponse StatusOK body
            | (_, Some _) =>
                mkResponse StatusInternalServerError "Error marshalling response"
            end, None), m2)
    end).
  { unfold handle. rewrite Hbody, Hvalid.
    unfold andThen at 1. rewrite Hlang. cbn [negb].
    unfold andThen at 1. unfold lift, extractSentences. rewrite Hplain.
    unfold andThen at 1. rewrite Hrun.
    destruct err as [first|]; [reflexivity|].
    unfold andThen. destruct (marshalResponse _) as [body [e|]]; reflexivity. }
  destruct err as [first|].
  - left. split; [|assumption]. apply Herr. discriminate.
  - right. destruct (Hok eq_refl) as [Hlen Hslots].
    split; [|split; [assumption | split; assumption]].
    intros c Hc Hfailed. apply (proj2 Herr); [eauto | reflexivity].
Qed.

(** X21.  Markup for which [getTextFromHTML] returns fewer counts than text
    tokens (a blank text token between two elements is enough) is never
    answered 200: with clients that keep their contract the handler either
    answers 500 "Error during translation", a call having failed, or, every
    sentence translated, panics in [reconstructHTML] with an index out of
    range. *)
Theorem markup_with_uncounted_text_is_never_answered (laws : ClientLaws)
    (sched : list Pick) (event : APIGatewayProxyRequest)
    (request : TranslateRequest) (tokens : list Token)
    (sentences : list string) (counts : list Z) (m m1 : Machine World) :
  unmarshalRequest (EventBody event) = (request, None) ->
  validateRequest request = None ->
  exec (doesTargetLanguageExist ctxHandler (TargetLanguage request)) m =
    (Returns (true, None), m1) ->
  isHTML (Text request) = true ->
  getTextFromHTML (Text request) = Returns (tokens, sentences, counts, None) ->
  length counts < length (textTokens tokens) ->
  exists m2,
    handle translateTableName sched event m =
    (Returns (mkResponse StatusInternalServerError "Error during translation",
              None), m2) \/
    handle translateTableName sched event m =
    (Panics (IndexOutOfRange (length counts) (length counts)), m2).
Proof.
  intros Hbody Hvalid Hlang Hmarkup Hextract Hcounts.
  destruct (translateSentences_spec laws translateTableName request
              sentences (calls m1) sched m1 eq_refl)
    as (translated & err & m2 & new & Hrun & _).
  exists m2.
  destruct err as [first|]; [left | right];
    unfold handle; rewrite Hbody, Hvalid;
    unfold andThen at 1; rewrite Hlang; cbn [negb];
    unfold andThen at 1; unfold lift, extractSentences;
    rewrite Hmarkup, Hextract;
    unfold andThen at 1; rewrite Hrun; [reflexivity|].
  unfold andThen, reconstructHTML.
  rewrite reconstructHTML_loop_panics by lia. reflexivity.
Qed.

End Answers.

Lemma plain_text_answer_mock :
  exists translated new m2,
    calls m2 = [listedSpanish] ++ new /\
    (((exists c, c ∈ new /\ failed c) /\
      mockHandle [Launch; Step 0] "en|es|Hello world. How are you?" =
      (Returns (mkResponse StatusInternalServerError "Error during translation",
                None), m2)) \/
     ((forall c, c ∈ new -> ~ failed c) /\
      length translated = length ["Hello world."; "How are you?"] /\
      (forall i sentence,
          ["Hello world."; "How are you?"] !! i = Some sentence ->
          exists text,
            translated !! i = Some text /\
            Translates (sha256 := sha256Ref)
              (mkTranslateRequest "en" "es" "Hello world. How are you?")
              sentence text new) /\
      mockHandle [Launch; Step 0] "en|es|Hello world. How are you?" =
      (Returns
         (match marshalResponse (json := Mock.json Mock.decode)
                  (mkTranslateResponse (reconstructPlainText translated) ""
                     0%float) with
          | (body, None) => mkResponse StatusOK body
          | (_, Some _) =>
              mkResponse StatusInternalServerError "Error marshalling response"
          end, None), m2))).
Proof.
  apply (plain_text_answer (html := htmlRef) (sentencizer := sentencizerRef)
           (sha256 := sha256Ref) (json := Mock.json Mock.decode)
           "TranslateCache" (mock_laws ["es"] Mock.spanish) [Launch; Step 0]
           (mkEvent "en|es|Hello world. How are you?")
           (mkTranslateRequest "en" "es" "Hello world. How are you?")
           (mkMachine ∅ [] []) (mkMachine ∅ [listedSpanish] []));
    reflexivity.
Defined.

Lemma markup_with_uncounted_text_mock :
  exists m2,
    mockHandle [] "en|es|<p>Hello world.</p> <p>How are you?</p>" =
    (Returns (mkResponse StatusInternalServerError "Error during translation",
              None), m2) \/
    mockHandle [] "en|es|<p>Hello world.</p> <p>How are you?</p>" =
    (Panics (IndexOutOfRange (length [1%Z; 1%Z]) (length [1%Z; 1%Z])), m2).
Proof.
  apply (markup_with_uncounted_text_is_never_answered (html := htmlRef)
           (sentencizer := sentencizerRef) (sha256 := sha256Ref)
           (json := Mock.json Mock.decode)
           "TranslateCache" (mock_laws ["es"] Mock.spanish) []
           (mkEvent "en|es|<p>Hello world.</p> <p>How are you?</p>")
           (mkTranslateRequest "en" "es" "<p>Hello world.</p> <p>How are you?</p>")
           [mkToken StartTagToken 0 "p" []; mkToken TextToken 0 "" [];
            mkToken EndTagToken 0 "p" []; mkToken TextToken 0 "" [];
            mkToken StartTagToken 0 "p" []; mkToken TextToken 0 "" [];
            mkToken EndTagToken 0 "p" []]
           ["Hello world."; "How are you?"] [1%Z; 1%Z]
           (mkMachine ∅ [] []) (mkMachine ∅ [listedSpanish] []));
    try reflexivity.
  vm_compute. lia.
Defined.

Section TokenizerFailure.
Context {html : Html.Package} {sentencizer : Sentencizer.Package}.
Context {sha256 : Sha256.Package} {json : Json.Package}.
Context {World : Type}.
Context {dynamoClient : DynamoDBClient World}.
Context {translateClient : TranslateClient World}.
Variable translateTableName : string.

(** X22.  When the tokenizer stops on an error that is not [io.EOF] in a
    text classified as markup, the handler answers 500 "Error processing HTML
    content" with the machine as the language check left it: no task is
    started, and nothing is looked up, translated or cached, whatever was
    tokenized before the error. *)
Theorem tokenizer_failure_stops_the_handler (sched : list Pick)
    (event : APIGatewayProxyRequest) (request : TranslateRequest)
    (ems : list Emitted) (err : error) (m m1 : Machine World) :
  unmarshalRequest (EventBody event) = (request, None) ->
  validateRequest request = None ->
  exec (doesTargetLanguageExist ctxHandler (TargetLanguage request)) m =
    (Returns (true, None), m1) ->
  isHTML (Text request) = true ->
  TokenizerLaws ->
  Emits (NewTokenizer (replaceNonUTF8Characters (Text request))) ems err ->
  err <> io_EOF ->
  handle translateTableName sched event m =
  (Returns (mkResponse StatusInternalServerError "Error processing HTML content",
            None), m1).
Proof.
  intros Hbody Hvalid Hlang Hmarkup Hlaws Hems Herr.
  assert (Hextract : getTextFromHTML (Text request) =
                     Returns ([], [], [], Some err)).
  { unfold getTextFromHTML.
    rewrite (getTextFromHTML_loop_complete _ _ _ Hems)
      by (apply Emits_bounded in Hems; [lia | assumption]).
    destruct err; [congruence | reflexivity | reflexivity]. }
  unfold handle. rewrite Hbody, Hvalid.
  unfold andThen at 1. rewrite Hlang. cbn [negb].
  unfold andThen, lift, extractSentences. rewrite Hmarkup, Hextract.
  reflexivity.
Qed.

End TokenizerFailure.

Lemma tokenizer_failure_failing :
  handle (html := htmlFailing) (sentencizer := sentencizerRef)
    (sha256 := sha256Ref) (json := Mock.json Mock.decode)
    (dynamoClient := Mock.dynamoClient)
    (translateClient := Mock.translateClient ["es"] Mock.spanish)
    "TranslateCache" [] (mkEvent "en|es|<p>Hello</p>") (mkMachine ∅ [] []) =
  (Returns (mkResponse StatusInternalServerError "Error processing HTML content",
            None), mkMachine ∅ [listedSpanish] []).
Proof.
  apply (tokenizer_failure_stops_the_handler (html := htmlFailing)
           (sentencizer := sentencizerRef) (sha256 := sha256Ref)
           (json := Mock.json Mock.decode) (dynamoClient := Mock.dynamoClient)
           (translateClient := Mock.translateClient ["es"] Mock.spanish)
           "TranslateCache" [] (mkEvent "en|es|<p>Hello</p>")
           (mkTranslateRequest "en" "es" "<p>Hello</p>") []
           (errorString "max buffer exceeded") (mkMachine ∅ [] []));
    try reflexivity.
  - exact htmlFailing_laws.
  - apply (Emits_end (html := htmlFailing) tt tt). reflexivity.
  - discriminate.
Defined.

(** ** The fingerprint and the hyphen *)





(** ** The limit of the group *)

Lemma inFlight_startFirst (ts : list Task) :
  length (filter isRunning (startFirst ts)) <= S (length (filter isRunning ts)).
Proof.
  induction ts as [|t ts IH]; [cbn; lia|].
  destruct t as [f|f|err]; cbn [startFirst]; rewrite !filter_bool_cons;
    cbn [isRunning length]; lia.
Qed.

Lemma inFlight_insert (ts : list Task) :
  forall i f t,
    ts !! i = Some (Running f) ->
    length (filter isRunning (<[i := t]> ts)) <= length (filter isRunning ts).
Proof.
  induction ts as [|t0 ts IH]; intros i f t Hi; [discriminate|].
  destruct i as [|i].
  - cbn in Hi. injection Hi as ->.
    change (<[0 := t]> (Running f :: ts)) with (t :: ts).
    rewrite !filter_bool_cons. cbn [isRunning length].
    destruct (isRunning t); cbn [length]; lia.
  - cbn in Hi. specialize (IH i f t Hi).
    change (<[S i := t]> (t0 :: ts)) with (t0 :: <[i := t]> ts).
    rewrite !filter_bool_cons.
    destruct (isRunning t0); cbn [length]; lia.
Qed.

Section Limit.
Context {World : Type}.
Context {dynamoClient : DynamoDBClient World}.
Context {translateClient : TranslateClient World}.

Lemma runPicks_inFlight (sched : list Pick) :
  forall g m g' m',
    inFlight g <= limit ->
    runPicks sched g m = (Returns g', m') ->
    inFlight g' <= limit.
Proof.
  induction sched as [|p sched IH]; intros g m g' m' Hg H; cbn [runPicks] in H.
  - now injection H as <- _.
  - destruct p as [|i]; cbn [pick] in H.
    + apply (IH _ _ _ _) in H; [assumption|].
      unfold launch. destruct (decide (inFlight g < limit)) as [Hlt|_];
        [|assumption].
      unfold inFlight in *. cbn [tasks].
      pose proof (inFlight_startFirst (tasks g)). lia.
    + unfold stepTask in H.
      destruct (tasks g !! i) as [[f|f|err]|] eqn:Hi;
        try (apply (IH _ _ _ _ Hg) in H; assumption).
      assert (Hstep : forall t,
                inFlight (mkGroup (<[i := t]> (tasks g)) (groupErr g)
                            (cancelled g)) <= limit).
      { intros t. unfold inFlight in *. cbn [tasks].
        pose proof (inFlight_insert _ _ _ t Hi). lia. }
      destruct f; try discriminate;
        try (destruct (stepProg _ _ _) as [f' m1];
             apply (IH _ _ _ _ (Hstep _)) in H; assumption).
      apply (IH _ _ _ _) in H; [assumption|].
      unfold finish, inFlight in *. cbn [tasks].
      pose proof (inFlight_insert _ _ _ (Finished a) Hi). lia.
Qed.

(** X24.  At most ten tasks of a batch run at a time: from the group
    the handler's loop makes, with the limit it sets, whatever the scheduler
    picks, the number of tasks started and not yet returned never exceeds
    ten. *)
Theorem at_most_ten_tasks_in_flight {sha256 : Sha256.Package}
    (translateTableName : string) (sched : list Pick)
    (request : TranslateRequest) (sentences : list string)
    (m m' : Machine World) (g : Group) :
  runPicks sched
    (mkGroup (makeTasks translateTableName request sentences) None false) m =
    (Returns g, m') ->
  inFlight g <= 10.
Proof.
  apply runPicks_inFlight. unfold inFlight, makeTasks. cbn [tasks].
  assert (H : forall (l : list string) k,
             filter isRunning
               (imap (fun idx tok =>
                        Queued (translateTask translateTableName request
                                  (k + idx) tok)) l) = []).
  { induction l as [|x l IH]; intros k; [reflexivity|].
    cbn [imap]. rewrite filter_bool_cons. cbn [isRunning].
    rewrite <- (IH (S k)). f_equal. apply imap_ext. intros i y _.
    unfold compose. now replace (k + S i) with (S k + i) by lia. }
  rewrite (H sentences 0 :
             filter isRunning
               (imap (fun idx tok =>
                        Queued (translateTask translateTableName request idx tok))
                  sentences) = []).
  cbn. unfold limit. lia.
Qed.

End Limit.

Lemma at_most_ten_tasks_in_flight_mock :
  inFlight
    (match fst (runPicks (dynamoClient := Mock.dynamoClient)
                  (translateClient := Mock.translateClient ["es"] Mock.spanish)
                  (replicate 12 Launch)
                  (mkGroup
                     (makeTasks (sha256 := plainSum) "TranslateCache"
                        (mkTranslateRequest "en" "es" "Hello")
                        (replicate 12 "Hello")) None false)
                  (mkMachine ∅ [] (replicate 12 ""))) with
     | Returns g => g
     | _ => mkGroup [] None false
     end) <= 10.
Proof.
  apply (at_most_ten_tasks_in_flight (dynamoClient := Mock.dynamoClient)
           (translateClient := Mock.translateClient ["es"] Mock.spanish)
           (sha256 := plainSum) "TranslateCache" (replicate 12 Launch)
           (mkTranslateRequest "en" "es" "Hello") (replicate 12 "Hello")
           (mkMachine ∅ [] (replicate 12 ""))
           (mkMachine ∅ [] (replicate 12 ""))).
  reflexivity.
Defined.

(** ** An item that is not a cache item *)

Section ForeignItem.
Context {sha256 : Sha256.Package}.
Context {World : Type}.
Context {dynamoClient : DynamoDBClient World}.
Context {translateClient : TranslateClient World}.
Variable translateTableName : string.

Lemma assertS_panics {A : Type} (v : option AttributeValue)
    (k : string -> Prog A) :
  ~ isS v -> bind (assertS v) k = Throw InterfaceConversion.
Proof.
  intros Hnot. destruct v as [[value| | |]|]; try reflexivity.
  destruct Hnot. now exists value.
Qed.

(** X25.  An item found in the table that lacks one of the five string
    attributes of a cache item makes the task panic on the type assertion,
    after the lookup and before any other call: [shouldCacheBeUsed] checks
    that an item was found, not what it holds. *)
Theorem foreign_cache_item_panics (done : Context -> bool)
    (request : TranslateRequest) (index : nat) (token : string)
    (m : Machine World) (response : GetItemOutput)
    (item : gmap string AttributeValue) (w : World) :
  GetItem (done ctxGroup) (lookupInput translateTableName request token)
    (world m) = ((Some response, None), w) ->
  GetItemOutput_Item response = Some item ->
  ~ (isS (item !! "hash") /\ isS (item !! "translated_text") /\
     isS (item !! "source_text") /\ isS (item !! "source_language") /\
     isS (item !! "target_language")) ->
  runProg done (translateTask translateTableName request index token) m =
  (Panics InterfaceConversion,
   mkMachine w
     (calls m ++ [lookupCall translateTableName request token
                    (Some response, None)])
     (slots m)).
Proof.
  intros Hget Hitem Hnot.
  unfold translateTask, shouldCacheBeUsed. cbn [bind runProg].
  change (mkGetItemInput _ _)
    with (lookupInput translateTableName request token).
  rewrite Hget. cbn [deref bind]. rewrite Hitem.
  assert (Hdec : forall v, isS v \/ ~ isS v).
  { intros [[value| | |]|]; [left; now exists value | right..];
      intros [value H]; discriminate. }
  destruct (Hdec (item !! "hash")) as [[h Hh]|Hh];
    [rewrite Hh; cbn [assertS bind] | now rewrite (assertS_panics _ _ Hh)].
  destruct (Hdec (item !! "translated_text")) as [[t Ht]|Ht];
    [rewrite Ht; cbn [assertS bind] | now rewrite (assertS_panics _ _ Ht)].
  destruct (Hdec (item !! "source_text")) as [[s Hs]|Hs];
    [rewrite Hs; cbn [assertS bind] | now rewrite (assertS_panics _ _ Hs)].
  destruct (Hdec (item !! "source_language")) as [[sl Hsl]|Hsl];
    [rewrite Hsl; cbn [assertS bind] | now rewrite (assertS_panics _ _ Hsl)].
  destruct (Hdec (item !! "target_language")) as [[tl Htl]|Htl];
    [|now rewrite (assertS_panics _ _ Htl)].
  destruct Hnot. unfold isS. rewrite Hh, Ht, Hs, Hsl, Htl. eauto 10.
Qed.

End ForeignItem.

Lemma foreign_cache_item_panics_mock :
  runProg (dynamoClient := foreignDynamoClient)
    (translateClient := Mock.translateClient ["es"] Mock.spanish)
    (fun _ => false)
    (translateTask (sha256 := plainSum) "TranslateCache"
       (mkTranslateRequest "en" "es" "Hello") 0 "Hello")
    (mkMachine ∅ [] [""]) =
  (Panics InterfaceConversion,
   mkMachine ∅
     ([] ++ [lookupCall (sha256 := plainSum) "TranslateCache"
               (mkTranslateRequest "en" "es" "Hello") "Hello"
               (Some (mkGetItemOutput
                        (Some {[ "hash" := AttributeValueMemberS "0000" ]})),
                None)])
     [""]).
Proof.
  apply (foreign_cache_item_panics (sha256 := plainSum)
           (dynamoClient := foreignDynamoClient)
           (translateClient := Mock.translateClient ["es"] Mock.spanish)
           "TranslateCache" (fun _ => false)
           (mkTranslateRequest "en" "es" "Hello") 0 "Hello"
           (mkMachine ∅ [] [""])
           (mkGetItemOutput (Some {[ "hash" := AttributeValueMemberS "0000" ]}))
           {[ "hash" := AttributeValueMemberS "0000" ]} ∅);
    try reflexivity.
  intros (_ & [value H] & _). vm_compute in H. discriminate.
Defined.

(** ** The digest as a key *)

Lemma digit_in_hextable (n : nat) :
  In (Hex.digit n) (list_ascii_of_string Hex.hextable).
Proof.
  do 16 (destruct n as [|n]; [cbn; tauto|]). cbn. tauto.
Qed.

(** X26.  [getHashFromText] writes the checksum as lower-case hexadecimal
    digits, two for each byte, and loses nothing of it: two texts with the
    same digest have the same checksum. *)
Theorem getHashFromText_is_lowercase_hex {sha256 : Sha256.Package} :
  (forall text,
      Forall (fun c => In c (list_ascii_of_string "0123456789abcdef"))
        (list_ascii_of_string (getHashFromText text)) /\
      String.length (getHashFromText text) =
        2 * String.length (Sha256.Sum256 text)) /\
  (forall text text',
      getHashFromText text = getHashFromText text' ->
      Sha256.Sum256 text = Sha256.Sum256 text').
Proof.
  split.
  - intros text. unfold getHashFromText. split; [|apply length_EncodeToString].
    induction (Sha256.Sum256 text) as [|c bytes IH]; [constructor|].
    cbn [Hex.EncodeToString list_ascii_of_string].
    apply Forall_cons; split; [apply digit_in_hextable|].
    apply Forall_cons; split; [apply digit_in_hextable | exact IH].
  - intros text text'. unfold getHashFromText. apply EncodeToString_injective.
Qed.

(** ** The plain join *)

Lemma spaceWidth_before_space (s t : string) :
  s <> "" -> spaceWidth s = 0 -> spaceWidth (s +:+ String " " t) = 0.
Proof.
  intros Hs. destruct s as [|c [|d [|e s]]]; [congruence| | |];
    destruct t as [|f t];
    rewrite ?app_cons, ?app_nil_left; cbv [spaceWidth];
    change (nat_of_ascii " ") with 32;
    split_tests; try congruence; tests_to_props; lia.
Qed.

Lemma spaceWidthLast_before_space (r t : string) :
  r <> "" -> spaceWidthLast r = 0 -> spaceWidthLast (r +:+ String " " t) = 0.
Proof.
  intros Hr. destruct r as [|c [|b [|a r]]]; [congruence| | |];
    destruct t as [|f t];
    rewrite ?app_cons, ?app_nil_left; cbv [spaceWidthLast spaceWidth];
    change (nat_of_ascii " ") with 32;
    split_tests; try congruence; tests_to_props; try lia; try discriminate.
  repeat match goal with
         | H : context [if ?b then _ else _] |- _ => destruct b eqn:?
         end;
    try discriminate; try congruence; tests_to_props; lia.
Qed.

Lemma reverseBytes_involutive (s : string) : reverseBytes (reverseBytes s) = s.
Proof.
  induction s as [|c s IH]; [reflexivity|].
  cbn [reverseBytes]. rewrite reverseBytes_app, IH. reflexivity.
Qed.

Lemma length_reverseBytes (s : string) :
  String.length (reverseBytes s) = String.length s.
Proof.
  induction s as [|c s IH]; [reflexivity|].
  cbn [reverseBytes String.length]. rewrite length_app_bytes, IH. simpl. lia.
Qed.

(** A text with no white space at either end is its own trimming. *)
Lemma TrimSpace_fixed (s : string) :
  spaceWidth s = 0 -> spaceWidthLast (reverseBytes s) = 0 -> TrimSpace s = s.
Proof.
  intros Hleft Hright. unfold TrimSpace, TrimLeftSpace, TrimRightSpace.
  assert (Hl : trimLeft (String.length s) s = s).
  { destruct (String.length s); [reflexivity|].
    cbn [trimLeft]. now rewrite Hleft. }
  rewrite Hl.
  assert (Hr : trimLeftRev (String.length s) (reverseBytes s) = reverseBytes s).
  { destruct (String.length s); [reflexivity|].
    cbn [trimLeftRev]. now rewrite Hright. }
  rewrite Hr. apply reverseBytes_involutive.
Qed.

Lemma concat_space_last (l : list string) (final : string) :
  last l = Some final ->
  String.concat " " l = final \/
  exists before, String.concat " " l = before +:+ " " +:+ final.
Proof.
  induction l as [|s l IH]; [discriminate|].
  destruct l as [|s' l].
  - intros H. injection H as <-. now left.
  - intros H. change (last (s :: s' :: l)) with (last (s' :: l)) in H.
    change (String.concat " " (s :: s' :: l))
      with (s +:+ " " +:+ String.concat " " (s' :: l)).
    right. destruct (IH H) as [-> | (before & ->)].
    + now exists s.
    + exists (s +:+ " " +:+ before). now rewrite !app_associative.
Qed.

(** X28.  [reconstructPlainText] returns the translated sentences joined
    by single spaces, with nothing else changed, when the first sentence is
    not empty and begins with no white space and the last one is not empty
    and ends with none: the trimming then removes the separator written
    after the last sentence and nothing more. *)
Theorem reconstructPlainText_of_trimmed_sentences (l : list string)
    (first final : string) :
  head l = Some first -> last l = Some final ->
  first <> "" -> spaceWidth first = 0 ->
  final <> "" -> spaceWidthLast (reverseBytes final) = 0 ->
  reconstructPlainText l = String.concat " " l.
Proof.
  intros Hhead Hlast Hfirst Hleft Hfinal Hright.
  assert (Htrim : reconstructPlainText l = TrimSpace (String.concat " " l)).
  { unfold reconstructPlainText. destruct l as [|s rest]; [discriminate|].
    rewrite reconstructPlainText_loop_join by discriminate.
    rewrite app_nil_left. apply TrimSpace_app_space. }
  rewrite Htrim. apply TrimSpace_fixed.
  - destruct l as [|s [|s' rest]]; [discriminate| |];
      cbn in Hhead; injection Hhead as ->; [exact Hleft|].
    change (String.concat " " (first :: s' :: rest))
      with (first +:+ String " " (String.concat " " (s' :: rest))).
    now apply spaceWidth_before_space.
  - assert (Hrev : reverseBytes final <> "").
    { intros H. apply (f_equal reverseBytes) in H.
      rewrite reverseBytes_involutive in H. now subst. }
    destruct (concat_space_last l final Hlast) as [-> | (before & ->)];
      [exact Hright|].
    rewrite reverseBytes_app.
    change (" " +:+ final) with (String " " final).
    change (reverseBytes (String " " final))
      with (reverseBytes final +:+ " ").
    rewrite app_associative.
    change (" " +:+ reverseBytes before)
      with (String " " (reverseBytes before)).
    now apply spaceWidthLast_before_space.
Qed.

Lemma reconstructPlainText_of_trimmed_sentences_example :
  reconstructPlainText ["Hola mundo."; "¿Cómo estás?"] =
  String.concat " " ["Hola mundo."; "¿Cómo estás?"].
Proof.
  apply (reconstructPlainText_of_trimmed_sentences
           ["Hola mundo."; "¿Cómo estás?"] "Hola mundo." "¿Cómo estás?");
    try reflexivity; discriminate.
Defined.

(** ** A batch without a sentence, and markup that fits *)

Section MoreAnswers.
Context {html : Html.Package} {sentencizer : Sentencizer.Package}.
Context {sha256 : Sha256.Package} {json : Json.Package}.
Context {World : Type}.
Context {dynamoClient : DynamoDBClient World}.
Context {translateClient : TranslateClient World}.
Variable translateTableName : string.

Lemma runPicks_no_task (sched : list Pick) (m : Machine World) :
  runPicks sched (mkGroup [] None false) m = (Returns (mkGroup [] None false), m).
Proof.
  induction sched as [|p sched IH]; [reflexivity|].
  cbn [runPicks]. destruct p as [|i]; cbn [pick].
  - unfold launch. destruct (decide _); exact IH.
  - exact IH.
Qed.

(** X29.  A text in which [splitSentences] finds no sentence (a text not
    classified as markup, from a valid request for a supported language) is
    answered without a task: no lookup, no translation and no store is
    made, whatever the scheduler does, and the answer is the encoding of the
    empty translation, with status 200. *)
Theorem text_without_sentence_is_answered_empty (sched : list Pick)
    (event : APIGatewayProxyRequest) (request : TranslateRequest)
    (m m1 : Machine World) :
  unmarshalRequest (EventBody event) = (request, None) ->
  validateRequest request = None ->
  exec (doesTargetLanguageExist ctxHandler (TargetLanguage request)) m =
    (Returns (true, None), m1) ->
  isHTML (Text request) = false ->
  splitSentences (Text request) = [] ->
  handle translateTableName sched event m =
  (Returns
     (match marshalResponse (mkTranslateResponse "" "" 0%float) with
      | (body, None) => mkResponse StatusOK body
      | (_, Some _) =>
          mkResponse StatusInternalServerError "Error marshalling response"
      end, None),
   mkMachine (world m1) (calls m1) []).
Proof.
  intros Hbody Hvalid Hlang Hplain Hnone.
  unfold handle. rewrite Hbody, Hvalid.
  unfold andThen at 1. rewrite Hlang. cbn [negb].
  unfold andThen at 1. unfold lift, extractSentences. rewrite Hplain, Hnone.
  unfold andThen at 1. unfold translateSentences, Wait, makeTasks.
  cbn [imap length replicate]. rewrite runPicks_no_task.
  cbn [tasks length seq drain groupErr slots].
  unfold andThen.
  change (reconstructPlainText []) with "".
  destruct (marshalResponse _) as [body [e|]]; reflexivity.
Qed.

(** X30.  Markup for which [getTextFromHTML] returns a count for every
    text token is answered, whatever the scheduler does and with clients
    that keep their contract: either 500 "Error during translation", a call
    of a task having failed, or, no call having failed, the encoding of what
    [reconstructHTML] makes of the tokens, the translations and the counts,
    the translation at [i] being that of the sentence at [i]. *)
Theorem markup_answer (laws : ClientLaws) (sched : list Pick)
    (event : APIGatewayProxyRequest) (request : TranslateRequest)
    (tokens : list Token) (sentences : list string) (counts : list Z)
    (m m1 : Machine World) :
  unmarshalRequest (EventBody event) = (request, None) ->
  validateRequest request = None ->
  exec (doesTargetLanguageExist ctxHandler (TargetLanguage request)) m =
    (Returns (true, None), m1) ->
  isHTML (Text request) = true ->
  getTextFromHTML (Text request) = Returns (tokens, sentences, counts, None) ->
  length (textTokens tokens) <= length counts ->
  exists translated new m2 text,
    calls m2 = calls m1 ++ new /\
    (((exists c, c ∈ new /\ failed c) /\
      handle translateTableName sched event m =
      (Returns (mkResponse StatusInternalServerError "Error during translation",
                None), m2)) \/
     ((forall c, c ∈ new -> ~ failed c) /\
      length translated = length sentences /\
      (forall i sentence,
          sentences !! i = Some sentence ->
          exists translation,
            translated !! i = Some translation /\
            Translates request sentence translation new) /\
      reconstructHTML tokens translated counts = Returns text /\
      handle translateTableName sched event m =
      (Returns
         (match marshalResponse (mkTranslateResponse text "" 0%float) with
          | (body, None) => mkResponse StatusOK body
          | (_, Some _) =>
              mkResponse StatusInternalServerError "Error marshalling response"
          end, None), m2))).
Proof.
  intros Hbody Hvalid Hlang Hmarkup Hextract Hcounts.
  destruct (translateSentences_spec laws translateTableName request
              sentences (calls m1) sched m1 eq_refl)
    as (translated & err & m2 & new & Hrun & Hcalls & Herr & Hok).
  destruct (proj2 (reconstructHTML_returns_iff tokens translated counts) Hcounts)
    as [text Htext].
  exists translated, new, m2, text. split; [assumption|].
  destruct err as [first|]; [left | right].
  - split; [apply Herr; discriminate|].
    unfold handle. rewrite Hbody, Hvalid.
    unfold andThen at 1. rewrite Hlang. cbn [negb].
    unfold andThen at 1. unfold lift, extractSentences.
    rewrite Hmarkup, Hextract.
    unfold andThen at 1. rewrite Hrun. reflexivity.
  - destruct (Hok eq_refl) as [Hlen Hslots].
    split; [|split; [assumption | split; [assumption | split; [assumption|]]]].
    { intros c Hc Hfailed. apply (proj2 Herr); [eauto | reflexivity]. }
    unfold handle. rewrite Hbody, Hvalid.
    unfold andThen at 1. rewrite Hlang. cbn [negb].
    unfold andThen at 1. unfold lift, extractSentences.
    rewrite Hmarkup, Hextract.
    unfold andThen at 1. rewrite Hrun.
    unfold andThen. rewrite Htext.
    destruct (marshalResponse _) as [body [e|]]; reflexivity.
Qed.

End MoreAnswers.

Lemma text_without_sentence_mock :
  mockHandle [Launch; Step 0] "en|es| " =
  (Returns
     (match marshalResponse (json := Mock.json Mock.decode)
              (mkTranslateResponse "" "" 0%float) with
      | (body, None) => mkResponse StatusOK body
      | (_, Some _) =>
          mkResponse StatusInternalServerError "Error marshalling response"
      end, None),
   mkMachine ∅ [listedSpanish] []).
Proof.
  apply (text_without_sentence_is_answered_empty (html := htmlRef)
           (sentencizer := sentencizerRef) (sha256 := sha256Ref)
           (json := Mock.json Mock.decode) (dynamoClient := Mock.dynamoClient)
           (translateClient := Mock.translateClient ["es"] Mock.spanish)
           "TranslateCache" [Launch; Step 0] (mkEvent "en|es| ")
           (mkTranslateRequest "en" "es" " ") (mkMachine ∅ [] [])
           (mkMachine ∅ [listedSpanish] []));
    reflexivity.
Defined.

Lemma markup_answer_mock :
  exists translated new m2 text,
    calls m2 = [listedSpanish] ++ new /\
    (((exists c, c ∈ new /\ failed c) /\
      mockHandle [Launch] "en|es|<p>Hello world. How are you?</p>" =
      (Returns (mkResponse StatusInternalServerError "Error during translation",
                None), m2)) \/
     ((forall c, c ∈ new -> ~ failed c) /\
      length translated = length ["Hello world."; "How are you?"] /\
      (forall i sentence,
          ["Hello world."; "How are you?"] !! i = Some sentence ->
          exists translation,
            translated !! i = Some translation /\
            Translates (sha256 := sha256Ref)
              (mkTranslateRequest "en" "es" "<p>Hello world. How are you?</p>")
              sentence translation new) /\
      reconstructHTML (html := htmlRef)
        [mkToken StartTagToken 0 "p" []; mkToken TextToken 0 "" [];
         mkToken EndTagToken 0 "p" []] translated [2%Z] = Returns text /\
      mockHandle [Launch] "en|es|<p>Hello world. How are you?</p>" =
      (Returns
         (match marshalResponse (json := Mock.json Mock.decode)
                  (mkTranslateResponse text "" 0%float) with
          | (body, None) => mkResponse StatusOK body
          | (_, Some _) =>
              mkResponse StatusInternalServerError "Error marshalling response"
          end, None), m2))).
Proof.
  apply (markup_answer (html := htmlRef) (sentencizer := sentencizerRef)
           (sha256 := sha256Ref) (json := Mock.json Mock.decode)
           "TranslateCache" (mock_laws ["es"] Mock.spanish) [Launch]
           (mkEvent "en|es|<p>Hello world. How are you?</p>")
           (mkTranslateRequest "en" "es" "<p>Hello world. How are you?</p>")
           [mkToken StartTagToken 0 "p" []; mkToken TextToken 0 "" [];
            mkToken EndTagToken 0 "p" []]
           ["Hello world."; "How are you?"] [2%Z]
           (mkMachine ∅ [] []) (mkMachine ∅ [listedSpanish] []));
    reflexivity.
Defined.
